(** * Office 365 Management Activity collector: a shallow embedding

    Source: [management_activity.py].  The program obtains an OAuth token,
    lists the content blobs of a time window, fetches each blob and
    appends its events, one JSON document per line, to rotating files.

    Modelling conventions.
    - A Python [str] is a list of Unicode code points ([list N]); what
      [len] returns is the length of that list.
    - JSON values as [response.json()] delivers them are the inductive
      type [json]; Python [int] is [Z], Python [float] is a binary64
      primitive float.
    - The effects of the program (HTTP exchanges, [open], [write]) are
      threaded through a state-and-exception monad over a [world] that
      holds the chronological trace of effects and the file system.
    - Library calls are modelled after the behaviour of the libraries the
      source imports: [json] (encoder with [ensure_ascii=False]),
      [requests] (sessions, mounted adapters, [raise_for_status]) and
      [urllib3] ([Retry]).  Text files are encoded as UTF-8 and newlines
      are written untranslated, as on a POSIX platform.  Every attempt is
      assumed to reach the server and to obtain an HTTP response;
      redirects, connection failures and waiting times are not modelled. *)

From Stdlib Require Import ZArith NArith List Bool Lia PrimFloat Ascii String.
From Stdlib Require Import DecimalZ DecimalN DecimalPos DecimalFacts.
From stdpp Require Import gmap list.

Local Open Scope Z_scope.

(* ===================================================================== *)
(** ** Python strings *)
(* ===================================================================== *)

Abbreviation pystr := (list N).

(** An ASCII literal as a Python string. *)
Definition lit (s : string) : pystr :=
  List.map N_of_ascii (list_ascii_of_string s).

(** [len(s)] *)
Definition len (s : pystr) : Z := Z.of_nat (length s).

Fixpoint starts_with (s prefix : pystr) {struct prefix} : bool :=
  match prefix, s with
  | [], _ => true
  | p :: prefix', c :: s' => (c =? p)%N && starts_with s' prefix'
  | _ :: _, [] => false
  end.

(** [str.lower] on the ASCII letters. *)
Definition lower_char (c : N) : N :=
  if ((65 <=? c) && (c <=? 90))%N then (c + 32)%N else c.

Definition lower (s : pystr) : pystr := List.map lower_char s.

(** [sep.join(parts)] *)
Fixpoint join (sep : pystr) (parts : list pystr) : pystr :=
  match parts with
  | [] => []
  | [p] => p
  | p :: rest => p ++ sep ++ join sep rest
  end.

Definition digit_char (d : N) : N := (48 + d)%N.

Fixpoint uint_chars (u : Decimal.uint) : pystr :=
  match u with
  | Decimal.Nil => []
  | Decimal.D0 u' => digit_char 0 :: uint_chars u'
  | Decimal.D1 u' => digit_char 1 :: uint_chars u'
  | Decimal.D2 u' => digit_char 2 :: uint_chars u'
  | Decimal.D3 u' => digit_char 3 :: uint_chars u'
  | Decimal.D4 u' => digit_char 4 :: uint_chars u'
  | Decimal.D5 u' => digit_char 5 :: uint_chars u'
  | Decimal.D6 u' => digit_char 6 :: uint_chars u'
  | Decimal.D7 u' => digit_char 7 :: uint_chars u'
  | Decimal.D8 u' => digit_char 8 :: uint_chars u'
  | Decimal.D9 u' => digit_char 9 :: uint_chars u'
  end.

(** [str(n)] for a Python [int]: decimal digits, a leading minus sign for
    negative numbers. *)
Definition int_str (z : Z) : pystr :=
  match Z.to_int z with
  | Decimal.Pos u => uint_chars u
  | Decimal.Neg u => 45%N :: uint_chars u
  end.

(* ===================================================================== *)
(** ** JSON values and the Python operations the program applies to them *)
(* ===================================================================== *)

#[warnings="-register-all"]
Inductive json : Type :=
  | JNull
  | JBool (b : bool)
  | JInt (z : Z)
  | JFloat (f : float)
  | JStr (s : pystr)
  | JArr (items : list json)
  | JObj (fields : list (pystr * json)).

(** The exceptions the program can raise.  [HTTPError] carries the status
    of the response that [raise_for_status] rejected; [RetryError] is what
    [requests] raises when [urllib3] gives up retrying; [InvalidSchema]
    stands for every failure of [requests] to prepare a request or to find
    an adapter for its URL. *)
Inductive exn : Type :=
  | HTTPError (status : Z)
  | RetryError
  | InvalidSchema
  | JSONDecodeError
  | KeyError (key : pystr)
  | TypeError
  | AttributeError
  | UnicodeEncodeError.

Inductive result (A : Type) : Type :=
  | Ok (a : A)
  | Raise (e : exn).
Arguments Ok {A} a.
Arguments Raise {A} e.

(** [bool(v)] *)
Definition truthy (v : json) : bool :=
  match v with
  | JNull => false
  | JBool b => b
  | JInt z => negb (z =? 0)
  | JFloat f => negb (PrimFloat.eqb f 0%float)
  | JStr s => match s with [] => false | _ => true end
  | JArr items => match items with [] => false | _ => true end
  | JObj fields => match fields with [] => false | _ => true end
  end.

Fixpoint assoc_get (key : pystr) (fields : list (pystr * json)) : option json :=
  match fields with
  | [] => None
  | (k, x) :: rest => if decide (k = key) then Some x else assoc_get key rest
  end.

(** [v.get(key)]: only a dict has the method; a missing key gives [None]. *)
Definition py_get (v : json) (key : pystr) : result json :=
  match v with
  | JObj fields => Ok (default JNull (assoc_get key fields))
  | _ => Raise AttributeError
  end.

(** [v[key]] for a string key. *)
Definition py_getitem (v : json) (key : pystr) : result json :=
  match v with
  | JObj fields =>
      match assoc_get key fields with
      | Some x => Ok x
      | None => Raise (KeyError key)
      end
  | _ => Raise TypeError
  end.

(** What [for x in v] iterates over. *)
Definition py_iter (v : json) : result (list json) :=
  match v with
  | JArr items => Ok items
  | JObj fields => Ok (List.map (fun kv => JStr (fst kv)) fields)
  | JStr s => Ok (List.map (fun c => JStr [c]) s)
  | _ => Raise TypeError
  end.

(* ===================================================================== *)
(** ** [json.dumps(v, ensure_ascii=False)] *)
(* ===================================================================== *)

Definition hex_char (d : N) : N :=
  if (d <? 10)%N then (48 + d)%N else (87 + d)%N.

(** The replacement of one character by [ESCAPE.sub]: the quote, the
    backslash and the control characters below U+0020 are escaped, every
    other character, ASCII or not, is kept. *)
Definition escape_char (c : N) : pystr :=
  if (c =? 34)%N then [92; 34]%N
  else if (c =? 92)%N then [92; 92]%N
  else if (c =? 10)%N then [92; 110]%N
  else if (c =? 13)%N then [92; 114]%N
  else if (c =? 9)%N then [92; 116]%N
  else if (c =? 8)%N then [92; 98]%N
  else if (c =? 12)%N then [92; 102]%N
  else if (c <? 32)%N then [92; 117; 48; 48; hex_char (c / 16); hex_char (c mod 16)]%N
  else [c].

Definition encode_basestring (s : pystr) : pystr :=
  34%N :: flat_map escape_char s ++ [34%N].

Section Encoder.

(** [float.__repr__] on finite floats, not reproduced here. *)
Variable float_repr : float -> pystr.

Definition floatstr (f : float) : pystr :=
  if PrimFloat.is_nan f then lit "NaN"
  else if PrimFloat.eqb f infinity then lit "Infinity"
  else if PrimFloat.eqb f neg_infinity then lit "-Infinity"
  else float_repr f.

Fixpoint dumps (v : json) : pystr :=
  match v with
  | JNull => lit "null"
  | JBool true => lit "true"
  | JBool false => lit "false"
  | JInt z => int_str z
  | JFloat f => floatstr f
  | JStr s => encode_basestring s
  | JArr items => lit "[" ++ join (lit ", ") (List.map dumps items) ++ lit "]"
  | JObj fields =>
      lit "{"
      ++ join (lit ", ")
           (List.map (fun kv => encode_basestring (fst kv) ++ lit ": " ++ dumps (snd kv))
              fields)
      ++ lit "}"
  end.

End Encoder.

(* ===================================================================== *)
(** ** UTF-8, the encoding of the text files *)
(* ===================================================================== *)

Definition is_surrogate (c : N) : bool := ((55296 <=? c) && (c <=? 57343))%N.

(** The bytes of one code point; a lone surrogate cannot be encoded, and
    there is no code point beyond U+10FFFF. *)
Definition utf8_encode_char (c : N) : option (list N) :=
  if (c <? 128)%N then Some [c]
  else if (c <? 2048)%N then Some [192 + c / 64; 128 + c mod 64]%N
  else if is_surrogate c then None
  else if (c <? 65536)%N then
    Some [224 + c / 4096; 128 + (c / 64) mod 64; 128 + c mod 64]%N
  else if (c <=? 1114111)%N then
    Some [240 + c / 262144; 128 + (c / 4096) mod 64; 128 + (c / 64) mod 64;
          128 + c mod 64]%N
  else None.

Fixpoint utf8_encode (s : pystr) : option (list N) :=
  match s with
  | [] => Some []
  | c :: s' =>
      match utf8_encode_char c, utf8_encode s' with
      | Some bs, Some rest => Some (bs ++ rest)
      | _, _ => None
      end
  end.

Definition is_cont (b : N) : bool := ((128 <=? b) && (b <? 192))%N.

Definition push (c : N) (r : option pystr) : option pystr :=
  match r with
  | Some s => Some (c :: s)
  | None => None
  end.

(** The strict UTF-8 decoder, by which the bytes of a text file are read
    back: continuation bytes are checked, overlong forms, surrogates and
    values beyond U+10FFFF are refused. *)
Fixpoint utf8_decode (bs : list N) : option pystr :=
  match bs with
  | [] => Some []
  | b0 :: r0 =>
      if (b0 <? 128)%N then push b0 (utf8_decode r0)
      else if (b0 <? 192)%N then None
      else if (b0 <? 224)%N then
        match r0 with
        | b1 :: r1 =>
            let c := ((b0 - 192) * 64 + (b1 - 128))%N in
            if is_cont b1 && (128 <=? c)%N then push c (utf8_decode r1) else None
        | _ => None
        end
      else if (b0 <? 240)%N then
        match r0 with
        | b1 :: b2 :: r2 =>
            let c := (((b0 - 224) * 64 + (b1 - 128)) * 64 + (b2 - 128))%N in
            if is_cont b1 && is_cont b2 && (2048 <=? c)%N && negb (is_surrogate c)
            then push c (utf8_decode r2) else None
        | _ => None
        end
      else if (b0 <? 248)%N then
        match r0 with
        | b1 :: b2 :: b3 :: r3 =>
            let c :=
              ((((b0 - 240) * 64 + (b1 - 128)) * 64 + (b2 - 128)) * 64 + (b3 - 128))%N in
            if is_cont b1 && is_cont b2 && is_cont b3
               && (65536 <=? c)%N && (c <=? 1114111)%N
            then push c (utf8_decode r3) else None
        | _ => None
        end
      else None
  end.

(* ===================================================================== *)
(** ** [json.loads], by which a written line is read back *)
(* ===================================================================== *)

Definition is_ws (c : N) : bool :=
  ((c =? 32) || (c =? 9) || (c =? 10) || (c =? 13))%N.

Fixpoint skip_ws (s : pystr) : pystr :=
  match s with
  | c :: rest => if is_ws c then skip_ws rest else s
  | [] => []
  end.

Definition is_digit (c : N) : bool := ((48 <=? c) && (c <=? 57))%N.

Definition hex_val (c : N) : option N :=
  if is_digit c then Some (c - 48)%N
  else if ((97 <=? c) && (c <=? 102))%N then Some (c - 87)%N
  else if ((65 <=? c) && (c <=? 70))%N then Some (c - 55)%N
  else None.

(** [_decode_uXXXX]: the value of four hexadecimal digits. *)
Definition decode_uXXXX (h1 h2 h3 h4 : N) : option N :=
  match hex_val h1, hex_val h2, hex_val h3, hex_val h4 with
  | Some a, Some b, Some c, Some d => Some (((a * 16 + b) * 16 + c) * 16 + d)%N
  | _, _, _, _ => None
  end.

(** The character a simple escape stands for. *)
Definition unescape (e : N) : option N :=
  if (e =? 34)%N then Some 34%N
  else if (e =? 92)%N then Some 92%N
  else if (e =? 47)%N then Some 47%N
  else if (e =? 98)%N then Some 8%N
  else if (e =? 102)%N then Some 12%N
  else if (e =? 110)%N then Some 10%N
  else if (e =? 114)%N then Some 13%N
  else if (e =? 116)%N then Some 9%N
  else None.

Definition is_high_surrogate (uni : N) : bool :=
  ((55296 <=? uni) && (uni <=? 56319))%N.

(** The low half of a surrogate pair, when the six characters that follow
    a high surrogate are a [\uXXXX] escape that holds one. *)
Definition low_surrogate (b u l1 l2 l3 l4 : N) : option N :=
  if ((b =? 92) && (u =? 117))%N then
    match decode_uXXXX l1 l2 l3 l4 with
    | Some uni2 => if ((56320 <=? uni2) && (uni2 <=? 57343))%N then Some uni2 else None
    | None => None
    end
  else None.

Definition prepend (c : N) (r : option (pystr * pystr)) : option (pystr * pystr) :=
  match r with
  | Some (str, rem) => Some (c :: str, rem)
  | None => None
  end.

(** [py_scanstring] in strict mode, from just after the opening quote:
    the decoded string and the text after the closing quote. *)
Fixpoint scanstring (s : pystr) : option (pystr * pystr) :=
  match s with
  | [] => None
  | c :: rest =>
      if (c =? 34)%N then Some ([], rest)
      else if (c =? 92)%N then
        match rest with
        | [] => None
        | e :: rest1 =>
            if (e =? 117)%N then
              match rest1 with
              | h1 :: h2 :: h3 :: h4 :: rest2 =>
                  match decode_uXXXX h1 h2 h3 h4 with
                  | None => None
                  | Some uni =>
                      if is_high_surrogate uni then
                        match rest2 with
                        | b :: u :: l1 :: l2 :: l3 :: l4 :: rest3 =>
                            match low_surrogate b u l1 l2 l3 l4 with
                            | Some uni2 =>
                                prepend (65536 + ((uni - 55296) * 1024 + (uni2 - 56320)))%N
                                  (scanstring rest3)
                            | None => prepend uni (scanstring rest2)
                            end
                        | _ => prepend uni (scanstring rest2)
                        end
                      else prepend uni (scanstring rest2)
                  end
              | _ => None
              end
            else
              match unescape e with
              | Some x => prepend x (scanstring rest1)
              | None => None
              end
        end
      else if (c <? 32)%N then None
      else prepend c (scanstring rest)
  end.

Fixpoint scan_digits (s : pystr) : pystr * pystr :=
  match s with
  | c :: rest =>
      if is_digit c then let (ds, rem) := scan_digits rest in (c :: ds, rem)
      else ([], s)
  | [] => ([], [])
  end.

Fixpoint chars_uint (s : pystr) : Decimal.uint :=
  match s with
  | [] => Decimal.Nil
  | c :: rest =>
      let u := chars_uint rest in
      if (c =? 48)%N then Decimal.D0 u
      else if (c =? 49)%N then Decimal.D1 u
      else if (c =? 50)%N then Decimal.D2 u
      else if (c =? 51)%N then Decimal.D3 u
      else if (c =? 52)%N then Decimal.D4 u
      else if (c =? 53)%N then Decimal.D5 u
      else if (c =? 54)%N then Decimal.D6 u
      else if (c =? 55)%N then Decimal.D7 u
      else if (c =? 56)%N then Decimal.D8 u
      else if (c =? 57)%N then Decimal.D9 u
      else Decimal.Nil
  end.

(** [int(text)] on an integer literal. *)
Definition int_of_literal (text : pystr) : Z :=
  match text with
  | c :: ds =>
      if (c =? 45)%N then Z.of_int (Decimal.Neg (chars_uint ds))
      else Z.of_int (Decimal.Pos (chars_uint text))
  | [] => 0
  end.

(** The three groups of [NUMBER_RE]: an integer part (an optional minus
    sign, then a single zero or a non-zero digit followed by digits), an
    optional fraction (a dot and at least one digit) and an optional
    exponent (e or E, an optional sign, at least one digit). *)
Definition scan_int_part (s : pystr) : option (pystr * pystr) :=
  match s with
  | c :: rest =>
      if (c =? 48)%N then Some ([c], rest)
      else if is_digit c then let (ds, rem) := scan_digits rest in Some (c :: ds, rem)
      else None
  | [] => None
  end.

Definition scan_frac (s : pystr) : pystr * pystr :=
  match s with
  | c :: rest =>
      if (c =? 46)%N then
        match scan_digits rest with
        | ([], _) => ([], s)
        | (ds, rem) => (c :: ds, rem)
        end
      else ([], s)
  | [] => ([], s)
  end.

Definition scan_exp (s : pystr) : pystr * pystr :=
  match s with
  | c :: rest =>
      if ((c =? 101) || (c =? 69))%N then
        let (sign, rest') :=
          match rest with
          | x :: rest' => if ((x =? 45) || (x =? 43))%N then ([x], rest') else ([], rest)
          | [] => ([], rest)
          end in
        match scan_digits rest' with
        | ([], _) => ([], s)
        | (ds, rem) => (c :: sign ++ ds, rem)
        end
      else ([], s)
  | [] => ([], s)
  end.

(** Python [dict(pairs)]: a repeated key keeps its first position and
    takes the last value. *)
Fixpoint dict_set (key : pystr) (value : json) (d : list (pystr * json))
    : list (pystr * json) :=
  match d with
  | [] => [(key, value)]
  | (k, x) :: rest =>
      if decide (k = key) then (k, value) :: rest else (k, x) :: dict_set key value rest
  end.

Definition dict_of_pairs (pairs : list (pystr * json)) : list (pystr * json) :=
  fold_left (fun d kv => dict_set (fst kv) (snd kv) d) pairs [].

Section Decoder.

(** [float(text)] on a number literal with a fraction or an exponent, not
    reproduced here. *)
Variable float_of_literal : pystr -> option float.

Definition match_number (s : pystr) : option (json * pystr) :=
  let (sign, s1) :=
    match s with
    | c :: rest => if (c =? 45)%N then ([c], rest) else ([], s)
    | [] => ([], s)
    end in
  match scan_int_part s1 with
  | None => None
  | Some (int_part, s2) =>
      let (frac, s3) := scan_frac s2 in
      let (exp, s4) := scan_exp s3 in
      match frac, exp with
      | [], [] => Some (JInt (int_of_literal (sign ++ int_part)), s4)
      | _, _ =>
          match float_of_literal (sign ++ int_part ++ frac ++ exp) with
          | Some f => Some (JFloat f, s4)
          | None => None
          end
      end
  end.

(** The scanner on anything but a string, an object or an array. *)
Definition scan_atom (s : pystr) : option (json * pystr) :=
  if starts_with s (lit "null") then Some (JNull, skipn 4 s)
  else if starts_with s (lit "true") then Some (JBool true, skipn 4 s)
  else if starts_with s (lit "false") then Some (JBool false, skipn 5 s)
  else
    match match_number s with
    | Some r => Some r
    | None =>
        if starts_with s (lit "NaN") then Some (JFloat nan, skipn 3 s)
        else if starts_with s (lit "Infinity") then Some (JFloat infinity, skipn 8 s)
        else if starts_with s (lit "-Infinity") then Some (JFloat neg_infinity, skipn 9 s)
        else None
    end.

(** What follows the opening bracket or brace, or a value inside an
    array or an object. *)
Inductive punct : Type := Comma | Close | Other.

Definition next_punct (close : N) (s : pystr) : punct * pystr :=
  match skip_ws s with
  | c :: rest =>
      if (c =? 44)%N then (Comma, rest)
      else if (c =? close)%N then (Close, rest)
      else (Other, c :: rest)
  | [] => (Other, [])
  end.

(** [scan_once], [JSONArray] and [JSONObject].  The fuel bounds the
    number of nested calls; [loads] gives as much as the text is long. *)
Fixpoint scan_once (fuel : nat) (s : pystr) : option (json * pystr) :=
  match fuel with
  | O => None
  | S fuel' =>
      match s with
      | [] => None
      | c :: rest =>
          if (c =? 34)%N then
            match scanstring rest with
            | Some (str, rem) => Some (JStr str, rem)
            | None => None
            end
          else if (c =? 123)%N then
            match next_punct 125 rest with
            | (Close, rem) => Some (JObj [], rem)
            | _ =>
                match scan_fields fuel' (skip_ws rest) with
                | Some (pairs, rem) => Some (JObj (dict_of_pairs pairs), rem)
                | None => None
                end
            end
          else if (c =? 91)%N then
            match next_punct 93 rest with
            | (Close, rem) => Some (JArr [], rem)
            | _ =>
                match scan_items fuel' (skip_ws rest) with
                | Some (items, rem) => Some (JArr items, rem)
                | None => None
                end
            end
          else scan_atom s
      end
  end
with scan_items (fuel : nat) (s : pystr) : option (list json * pystr) :=
  match fuel with
  | O => None
  | S fuel' =>
      match scan_once fuel' s with
      | Some (v, rem) =>
          match next_punct 93 rem with
          | (Comma, rem') =>
              match scan_items fuel' (skip_ws rem') with
              | Some (items, rem'') => Some (v :: items, rem'')
              | None => None
              end
          | (Close, rem') => Some ([v], rem')
          | (Other, _) => None
          end
      | None => None
      end
  end
with scan_fields (fuel : nat) (s : pystr) : option (list (pystr * json) * pystr) :=
  match fuel with
  | O => None
  | S fuel' =>
      match s with
      | [] => None
      | q :: rest =>
          if (q =? 34)%N then
            match scanstring rest with
            | Some (key, rem) =>
                match skip_ws rem with
                | colon :: rem' =>
                    if (colon =? 58)%N then
                      match scan_once fuel' (skip_ws rem') with
                      | Some (v, rem'') =>
                          match next_punct 125 rem'' with
                          | (Comma, rem3) =>
                              match scan_fields fuel' (skip_ws rem3) with
                              | Some (pairs, rem4) => Some ((key, v) :: pairs, rem4)
                              | None => None
                              end
                          | (Close, rem3) => Some ([(key, v)], rem3)
                          | (Other, _) => None
                          end
                      | None => None
                      end
                    else None
                | [] => None
                end
            | None => None
            end
          else None
      end
  end.

(** [json.loads(text)]: one document, surrounded by white space only. *)
Definition loads (text : pystr) : option json :=
  match scan_once (length text) (skip_ws text) with
  | Some (v, rem) => match skip_ws rem with [] => Some v | _ => None end
  | None => None
  end.

End Decoder.

(** What can follow a value in the encoder's output: a comma, a closing
    bracket or brace, the newline that ends the line, or nothing. *)
Definition delimited (rest : pystr) : bool :=
  match rest with
  | [] => true
  | c :: _ => ((c =? 44) || (c =? 93) || (c =? 125) || (c =? 10))%N
  end.

(** Fuel that suffices to scan the text of a value. *)
Fixpoint need (v : json) : nat :=
  match v with
  | JArr items => S (fold_right (fun x acc => S (need x + acc)) O items)
  | JObj fields => S (fold_right (fun kv acc => S (need (snd kv) + acc)) O fields)
  | _ => 1
  end.

Section Readable.

Variable float_repr : float -> pystr.
Variable float_of_literal : pystr -> option float.

(** The assumption made on a float of an event: the scanner reads the
    text the encoder prints for it back, before any delimiter.  For the
    floats of Python this is the guarantee that [float(repr(x)) == x]. *)
Definition readable_float (f : float) : Prop :=
  forall fuel rest,
    delimited rest = true ->
    scan_once float_of_literal (S fuel) (floatstr float_repr f ++ rest)
    = Some (JFloat f, rest).

(** The values a Python program holds after [response.json()]: the keys
    of every object are distinct; and their floats are readable. *)
Fixpoint well_formed (v : json) : Prop :=
  match v with
  | JFloat f => readable_float f
  | JArr items => fold_right (fun x acc => well_formed x /\ acc) True items
  | JObj fields =>
      NoDup (List.map fst fields)
      /\ fold_right (fun kv acc => well_formed (snd kv) /\ acc) True fields
  | _ => True
  end.

End Readable.

(* ===================================================================== *)
(** ** The world: HTTP exchanges and files *)
(* ===================================================================== *)

Inductive http_method : Type := GET | POST | HEAD | PUT | DELETE | OPTIONS | TRACE.

#[global] Instance http_method_eq_dec : EqDecision http_method.
Proof. solve_decision. Defined.

(** A request as [Session.request] receives it.  [rq_timeout] is [None]
    when the caller passes no [timeout] argument. *)
Record request : Type := {
  rq_method : http_method;
  rq_url : pystr;
  rq_headers : list (pystr * pystr);
  rq_params : list (pystr * pystr);
  rq_data : list (pystr * pystr);
  rq_timeout : option Z
}.

(** A response: its status, whether it has a [Retry-After] header, and
    what [response.json()] makes of its body ([None]: not JSON). *)
Record response : Type := {
  status_code : Z;
  retry_after : bool;
  body : option json
}.

(** The effects of a run, in program order. *)
Inductive io_event : Type :=
  | EvAttempt (rq : request) (resp : response)
  | EvOpen (name : pystr)
  | EvWrite (name : pystr) (text : pystr).

Record world : Type := {
  trace : list io_event;
  fs : gmap (list N) (list N)
}.

(** Computations that change the world and may raise. *)
Definition M (A : Type) : Type := world -> result A * world.

Definition ret {A} (a : A) : M A := fun w => (Ok a, w).

Definition raise {A} (e : exn) : M A := fun w => (Raise e, w).

Definition bind {A B} (m : M A) (k : A -> M B) : M B :=
  fun w =>
    match m w with
    | (Ok a, w') => k a w'
    | (Raise e, w') => (Raise e, w')
    end.

Definition lift {A} (r : result A) : M A := fun w => (r, w).

Notation "'do' x <- m ; k" := (bind m (fun x => k))
  (at level 10, x name, m at level 100, k at level 200).

Definition log_event (ev : io_event) (w : world) : world :=
  {| trace := trace w ++ [ev]; fs := fs w |}.

(** [open(name, "a")]: the file is created when it does not exist; the
    handle is the name it was opened under. *)
Definition open_append (name : pystr) : M pystr :=
  fun w =>
    (Ok name,
     {| trace := trace w ++ [EvOpen name];
        fs := <[name := default [] (fs w !! name)]> (fs w) |}).

(** [file.write(text)] on a handle opened for appending.  The text is
    encoded as a whole: when it cannot be encoded the call raises and
    nothing of it is recorded. *)
Definition file_write (file : pystr) (text : pystr) : M unit :=
  fun w =>
    match utf8_encode text with
    | Some bytes =>
        (Ok tt,
         {| trace := trace w ++ [EvWrite file text];
            fs := <[file := default [] (fs w !! file) ++ bytes]> (fs w) |})
    | None => (Raise UnicodeEncodeError, w)
    end.

(* ===================================================================== *)
(** ** [urllib3.Retry] and [requests.Session] *)
(* ===================================================================== *)

Record Retry : Type := {
  total : nat;
  backoff_factor : Z;
  status_forcelist : list Z;
  allowed_methods : list http_method
}.

(** [Retry.DEFAULT_ALLOWED_METHODS], used when the constructor is given no
    [allowed_methods]. *)
Definition DEFAULT_ALLOWED_METHODS : list http_method :=
  [HEAD; GET; PUT; DELETE; OPTIONS; TRACE].

Definition RETRY_AFTER_STATUS_CODES : list Z := [413; 429; 503].

(** [Retry(total=..., backoff_factor=..., status_forcelist=...)] *)
Definition Retry_new (total : nat) (backoff_factor : Z) (status_forcelist : list Z) : Retry :=
  {| total := total; backoff_factor := backoff_factor;
     status_forcelist := status_forcelist;
     allowed_methods := DEFAULT_ALLOWED_METHODS |}.

(** The policy of [HTTPAdapter()] built without [max_retries]. *)
Definition DEFAULT_RETRIES : Retry := Retry_new 0 0 [].

Definition mem_Z (x : Z) (l : list Z) : bool := existsb (Z.eqb x) l.

Definition mem_method (m : http_method) (l : list http_method) : bool :=
  existsb (fun m' => bool_decide (m = m')) l.

(** [Retry.is_retry(method, status_code, has_retry_after)] with [left]
    retries remaining. *)
Definition is_retry (r : Retry) (left : nat) (m : http_method) (status : Z)
    (has_retry_after : bool) : bool :=
  if negb (mem_method m (allowed_methods r)) then false
  else if mem_Z status (status_forcelist r) then true
  else negb (Nat.eqb left 0) && has_retry_after && mem_Z status RETRY_AFTER_STATUS_CODES.

Record HTTPAdapter : Type := { max_retries : Retry }.

Record Session : Type := { adapters : list (pystr * HTTPAdapter) }.

Fixpoint set_adapter (prefix : pystr) (a : HTTPAdapter)
    (l : list (pystr * HTTPAdapter)) : list (pystr * HTTPAdapter) :=
  match l with
  | [] => [(prefix, a)]
  | (k, b) :: rest =>
      if decide (k = prefix) then (k, a) :: rest
      else (k, b) :: set_adapter prefix a rest
  end.

(** [Session.mount]: the adapter is registered under the prefix and the
    shorter prefixes are moved behind it. *)
Definition mount (s : Session) (prefix : pystr) (a : HTTPAdapter) : Session :=
  let l := set_adapter prefix a (adapters s) in
  let short (kv : pystr * HTTPAdapter) := (length (fst kv) <? length prefix)%nat in
  {| adapters := List.filter (fun kv => negb (short kv)) l ++ List.filter short l |}.

(** [requests.Session()] *)
Definition Session_new : Session :=
  mount (mount {| adapters := [] |} (lit "https://") {| max_retries := DEFAULT_RETRIES |})
        (lit "http://") {| max_retries := DEFAULT_RETRIES |}.

(** [Session.get_adapter(url)]: the first mounted prefix the lower-cased
    URL starts with. *)
Definition get_adapter (s : Session) (url : pystr) : option HTTPAdapter :=
  snd <$> List.find (fun kv => starts_with (lower url) (lower (fst kv))) (adapters s).

Section Network.

(** The remote side: the response to an attempt, which may depend on
    everything that happened before. *)
Variable server : list io_event -> request -> response.

(** One attempt on the wire. *)
Definition attempt (rq : request) : M response :=
  fun w =>
    let resp := server (trace w) rq in
    (Ok resp, log_event (EvAttempt rq resp) w).

(** [HTTPConnectionPool.urlopen] as [HTTPAdapter.send] calls it: the
    request is repeated while the policy asks for it and retries remain;
    when none remains, [MaxRetryError] surfaces as [RetryError]. *)
Fixpoint urlopen (r : Retry) (left : nat) (rq : request) : M response :=
  do resp <- attempt rq;
  if is_retry r left (rq_method rq) (status_code resp) (retry_after resp) then
    match left with
    | O => raise RetryError
    | S left' => urlopen r left' rq
    end
  else ret resp.

Definition adapter_send (a : HTTPAdapter) (rq : request) : M response :=
  urlopen (max_retries a) (total (max_retries a)) rq.

(** [Session.request]: the URL argument is whatever the caller passes;
    only a string that some mounted prefix matches can be sent. *)
Definition session_request (s : Session) (m : http_method) (url : json)
    (headers params data : list (pystr * pystr)) (timeout : option Z) : M response :=
  match url with
  | JStr u =>
      match get_adapter s u with
      | Some a =>
          adapter_send a
            {| rq_method := m; rq_url := u; rq_headers := headers;
               rq_params := params; rq_data := data; rq_timeout := timeout |}
      | None => raise InvalidSchema
      end
  | _ => raise InvalidSchema
  end.

(** [response.raise_for_status()] *)
Definition raise_for_status (resp : response) : M unit :=
  if (400 <=? status_code resp) && (status_code resp <? 600)
  then raise (HTTPError (status_code resp))
  else ret tt.

(** [response.json()] *)
Definition response_json (resp : response) : M json :=
  match body resp with
  | Some v => ret v
  | None => raise JSONDecodeError
  end.

End Network.

(* ===================================================================== *)
(** ** The program *)
(* ===================================================================== *)

Definition REQUEST_TIMEOUT : Z := 120.
Definition MAX_FILE_SIZE_MB : Z := 500.

(** [get_session_with_retries()] *)
Definition get_session_with_retries : Session :=
  let session := Session_new in
  let retries := Retry_new 5 1 [429; 500; 502; 503; 504] in
  let adapter := {| max_retries := retries |} in
  mount session (lit "https://") adapter.

(** [get_new_file_name(base_name, extension, index)] *)
Definition get_new_file_name (base_name extension : pystr) (index : Z) : pystr :=
  base_name ++ lit "_" ++ int_str index ++ extension.

Definition token_url (tenant_id : pystr) : pystr :=
  lit "https://login.microsoftonline.com/" ++ tenant_id ++ lit "/oauth2/v2.0/token".

Definition token_body (client_id client_secret : pystr) : list (pystr * pystr) :=
  [ (lit "grant_type", lit "client_credentials");
    (lit "client_id", client_id);
    (lit "client_secret", client_secret);
    (lit "scope", lit "https://manage.office.com/.default") ].

Definition auth_headers (token : pystr) : list (pystr * pystr) :=
  [ (lit "Authorization", lit "Bearer " ++ token);
    (lit "Accept", lit "application/json") ].

Definition content_base_url (tenant_id : pystr) : pystr :=
  lit "https://manage.office.com/api/v1.0/" ++ tenant_id
  ++ lit "/activity/feed/subscriptions/content".

Definition listing_params (start_date_time end_date_time : pystr) : list (pystr * pystr) :=
  [ (lit "contentType", lit "Audit.AzureActiveDirectory");
    (lit "startTime", start_date_time);
    (lit "endTime", end_date_time) ].

(** The local variables of the collection loop. *)
Record loop_state : Type := {
  file_index : Z;
  current_file_name : pystr;
  current_file_size : Z;
  total_logs : Z
}.

Section Program.

Variable float_repr : float -> pystr.
Variable server : list io_event -> request -> response.

(** [get_access_token(session, tenant_id, client_id, client_secret)] *)
Definition get_access_token (session : Session)
    (tenant_id client_id client_secret : pystr) : M json :=
  let url := token_url tenant_id in
  let body := token_body client_id client_secret in
  do response <- session_request server session POST (JStr url) [] [] body None;
  do _ <- raise_for_status response;
  do parsed <- response_json response;
  lift (py_getitem parsed (lit "access_token")).

Section Collect.

Variable session : Session.
Variables token tenant_id start_date_time end_date_time : pystr.
Variables base_file_name extension : pystr.

(** Lines 86 to 93: the accounting that follows the write of one
    event, and the rotation of the file name. *)
Definition account (event : json) (ls : loop_state) : loop_state :=
  let size := current_file_size ls + (len (dumps float_repr event) + 1) in
  let total := total_logs ls + 1 in
  if size >? MAX_FILE_SIZE_MB * 1024 * 1024 then
    let index := file_index ls + 1 in
    {| file_index := index;
       current_file_name := get_new_file_name base_file_name extension index;
       current_file_size := 0;
       total_logs := total |}
  else
    {| file_index := file_index ls;
       current_file_name := current_file_name ls;
       current_file_size := size;
       total_logs := total |}.

(** The body of [for event in event_data], lines 84 to 93; [file] is
    the handle opened by the enclosing [with].  [json.dump] writes the
    text that [json.dumps] returns; what it may have written of a line
    before an encoding error is not modelled. *)
Definition write_event (file : pystr) (event : json) (ls : loop_state) : M loop_state :=
  do _ <- file_write file (dumps float_repr event);
  do _ <- file_write file [10%N];
  ret (account event ls).

Fixpoint write_events (file : pystr) (events : list json) (ls : loop_state)
    : M loop_state :=
  match events with
  | [] => ret ls
  | event :: rest =>
      do ls' <- write_event file event ls;
      write_events file rest ls'
  end.

(** The body of [for content in content_list], lines 72 to 93. *)
Definition process_content (content : json) (ls : loop_state) : M loop_state :=
  do content_uri <- lift (py_get content (lit "contentUri"));
  if negb (truthy content_uri) then ret ls
  else
    do event_response <-
      session_request server session GET content_uri (auth_headers token) [] []
        (Some REQUEST_TIMEOUT);
    do _ <- raise_for_status event_response;
    do event_data <- response_json event_response;
    do file <- open_append (current_file_name ls);
    do events <- lift (py_iter event_data);
    write_events file events ls.

Fixpoint collect_loop (content_list : list json) (ls : loop_state) : M loop_state :=
  match content_list with
  | [] => ret ls
  | content :: rest =>
      do ls' <- process_content content ls;
      collect_loop rest ls'
  end.

Definition initial_loop_state : loop_state :=
  {| file_index := 0;
     current_file_name := get_new_file_name base_file_name extension 0;
     current_file_size := 0;
     total_logs := 0 |}.

(** [collect_logs(session, token, tenant_id, start_date_time,
    end_date_time, base_file_name, extension)].  The [logging.info] call
    of line 95 changes neither the result nor the output files and is
    left out. *)
Definition collect_logs : M Z :=
  let headers := auth_headers token in
  let base_url := content_base_url tenant_id in
  let params := listing_params start_date_time end_date_time in
  do response <-
    session_request server session GET (JStr base_url) headers params []
      (Some REQUEST_TIMEOUT);
  do _ <- raise_for_status response;
  do content_list <- response_json response;
  do contents <- lift (py_iter content_list);
  do ls <- collect_loop contents initial_loop_state;
  ret (total_logs ls).

End Collect.

End Program.

(* ===================================================================== *)
(** ** Measures on traces *)
(* ===================================================================== *)

(** The number of bytes a successful [write] of [text] appends. *)
Definition utf8_size (text : pystr) : Z :=
  match utf8_encode text with
  | Some bytes => len bytes
  | None => 0
  end.

(** Bytes appended to the file [name] along a trace. *)
Fixpoint bytes_written (name : pystr) (tr : list io_event) : Z :=
  match tr with
  | [] => 0
  | EvWrite f text :: tr' =>
      (if decide (f = name) then utf8_size text else 0) + bytes_written name tr'
  | _ :: tr' => bytes_written name tr'
  end.

(** The files opened along a trace, in order. *)
Fixpoint opened (tr : list io_event) : list pystr :=
  match tr with
  | [] => []
  | EvOpen f :: tr' => f :: opened tr'
  | _ :: tr' => opened tr'
  end.

(** The writes of a trace, in order: file and text. *)
Fixpoint writes (tr : list io_event) : list (pystr * pystr) :=
  match tr with
  | [] => []
  | EvWrite f text :: tr' => (f, text) :: writes tr'
  | _ :: tr' => writes tr'
  end.

(** The requests sent along a trace, one per attempt, in order. *)
Fixpoint requests (tr : list io_event) : list request :=
  match tr with
  | [] => []
  | EvAttempt rq _ :: tr' => rq :: requests tr'
  | _ :: tr' => requests tr'
  end.

(** The serialized size of an event as line 86 computes it. *)
Definition line_size (float_repr : float -> pystr) (event : json) : Z :=
  len (dumps float_repr event) + 1.

Definition sum_line_sizes (float_repr : float -> pystr) (events : list json) : Z :=
  fold_right (fun e acc => line_size float_repr e + acc) 0 events.

(** The requests a step adds to the trace all satisfy [P]. *)
Definition adds_requests (P : request -> Prop) (w w' : world) : Prop :=
  exists tr, trace w' = trace w ++ tr /\ Forall P (requests tr).

(** A GET that carries the timeout of line 13. *)
Definition timed_get (rq : request) : Prop :=
  rq_method rq = GET /\ rq_timeout rq = Some REQUEST_TIMEOUT.

(** The three requests the program builds. *)
Definition token_request (tenant_id client_id client_secret : pystr) : request :=
  {| rq_method := POST; rq_url := token_url tenant_id; rq_headers := [];
     rq_params := []; rq_data := token_body client_id client_secret;
     rq_timeout := None |}.

Definition listing_request (token tenant_id start_date_time end_date_time : pystr)
    : request :=
  {| rq_method := GET; rq_url := content_base_url tenant_id;
     rq_headers := auth_headers token;
     rq_params := listing_params start_date_time end_date_time; rq_data := [];
     rq_timeout := Some REQUEST_TIMEOUT |}.

Definition content_request (token content_uri : pystr) : request :=
  {| rq_method := GET; rq_url := content_uri; rq_headers := auth_headers token;
     rq_params := []; rq_data := []; rq_timeout := Some REQUEST_TIMEOUT |}.

(** The adapter mounted by [get_session_with_retries] and the one
    [requests.Session()] comes with. *)
Definition retry_adapter : HTTPAdapter :=
  {| max_retries := Retry_new 5 1 [429; 500; 502; 503; 504] |}.

Definition default_adapter : HTTPAdapter := {| max_retries := DEFAULT_RETRIES |}.

(** A response that the policy [r] answers with another attempt, as long
    as retries remain: the method is retryable and the status is listed,
    or the server asks to retry later with one of the statuses that
    [Retry-After] is honoured for. *)
Definition transient (r : Retry) (m : http_method) (resp : response) : bool :=
  mem_method m (allowed_methods r)
  && (mem_Z (status_code resp) (status_forcelist r)
      || (retry_after resp && mem_Z (status_code resp) RETRY_AFTER_STATUS_CODES)).

(** Worlds that differ by HTTP attempts only. *)
Definition only_attempts (w w' : world) : Prop :=
  fs w' = fs w /\
  exists tr, trace w' = trace w ++ tr /\ opened tr = [] /\ writes tr = [].

(** A plain success response carrying a JSON body. *)
Definition ok_response (v : json) : response :=
  {| status_code := 200; retry_after := false; body := Some v |}.

(** The content URI a listing entry carries, when it carries one: a
    non-empty string under the key [contentUri]. *)
Definition content_uri_of (entry : json) : option pystr :=
  match entry with
  | JObj fields =>
      match assoc_get (lit "contentUri") fields with
      | Some (JStr (c :: uri)) => Some (c :: uri)
      | _ => None
      end
  | _ => None
  end.

Fixpoint fetched_uris (entries : list json) : list pystr :=
  match entries with
  | [] => []
  | entry :: rest =>
      match content_uri_of entry with
      | Some uri => uri :: fetched_uris rest
      | None => fetched_uris rest
      end
  end.

(** A well-formed listing entry: an object whose [contentUri], when it has
    a truthy one, is a string that one of the mounted prefixes matches. *)
Definition listing_entry_ok (entry : json) : Prop :=
  exists fields, entry = JObj fields /\
    (truthy (default JNull (assoc_get (lit "contentUri") fields)) = false
     \/ exists uri, assoc_get (lit "contentUri") fields = Some (JStr uri) /\ uri <> [] /\
          (starts_with (lower uri) (lit "https://") = true
           \/ starts_with (lower uri) (lit "http://") = true)).

(** An event whose JSON text the output file can take. *)
Definition writable (float_repr : float -> pystr) (event : json) : Prop :=
  is_Some (utf8_encode (dumps float_repr event)).

(** The two writes line 84 and line 85 make for one event. *)
Definition event_writes (float_repr : float -> pystr) (file : pystr) (event : json)
    : list io_event :=
  [EvWrite file (dumps float_repr event); EvWrite file [10%N]].

(** The accounting of a whole sequence of events. *)
Definition account_all (float_repr : float -> pystr) (base_file_name extension : pystr)
    (events : list json) (ls : loop_state) : loop_state :=
  fold_left (fun st e => account float_repr base_file_name extension e st) events ls.

(** The threshold of line 90. *)
Definition threshold : Z := MAX_FILE_SIZE_MB * 1024 * 1024.

(* ===================================================================== *)
(** ** Concrete scenarios *)
(* ===================================================================== *)

(** A float printer for the scenarios below, none of which holds a float. *)
Definition sample_float_repr (f : float) : pystr := lit "0.0".

Definition empty_world : world := {| trace := []; fs := ∅ |}.

(** An event object with one field whose value is a run of [n] letters. *)
Definition padded_event (n : nat) : json := JObj [(lit "k", JStr (repeat 97%N n))].

Definition blob_uri : pystr := lit "https://blob/1".

(** A server with one content blob: the listing request (the one with
    query parameters) is answered with a single entry pointing at the
    blob, every other request with the blob's events. *)
Definition single_blob_server (events : list json) : list io_event -> request -> response :=
  fun _ rq =>
    match rq_params rq with
    | [] => ok_response (JArr events)
    | _ => ok_response (JArr [JObj [(lit "contentUri", JStr blob_uri)]])
    end.

(** A server that answers every request with the same response. *)
Definition constant_server (resp : response) : list io_event -> request -> response :=
  fun _ _ => resp.

(** Two small events and a listing with one entry that points at a blob,
    one that has no [contentUri] and one whose [contentUri] is empty. *)
Definition two_events : list json :=
  [ JObj [(lit "id", JInt 1)]; JObj [(lit "id", JInt 2); (lit "ok", JBool true)] ].

Definition mixed_listing : list json :=
  [ JObj [(lit "contentUri", JStr blob_uri)];
    JObj [(lit "contentId", JStr (lit "b"))];
    JObj [(lit "contentUri", JStr [])] ].

Definition mixed_server : list io_event -> request -> response :=
  fun _ rq =>
    match rq_params rq with
    | [] => ok_response (JArr two_events)
    | _ => ok_response (JArr mixed_listing)
    end.

(** A listing without any usable content URI. *)
Definition barren_listing : list json :=
  [ JObj [(lit "contentUri", JStr [])];
    JObj [];
    JObj [(lit "contentUri", JNull)] ].

(** Token endpoints: one that grants a token, one that answers 300 with a
    token in the body, one that refuses, one that grants nothing. *)
Definition token_response (status : Z) : response :=
  {| status_code := status; retry_after := false;
     body := Some (JObj [(lit "token_type", JStr (lit "Bearer"));
                         (lit "access_token", JStr (lit "abc"))]) |}.

Definition tokenless_response : response :=
  ok_response (JObj [(lit "token_type", JStr (lit "Bearer"))]).

(** An event with one character outside ASCII (U+00E9). *)
Definition accented_event : json := JObj [(lit "k", JStr [233%N])].

(** A server that is overloaded: every request is answered 503. *)
Definition unavailable : response :=
  {| status_code := 503; retry_after := false; body := None |}.

(** A server whose listing points at a blob served over plain [http://],
    and whose blobs are unavailable. *)
Definition plain_http_uri : pystr := lit "http://blob/1".

Definition plain_http_server : list io_event -> request -> response :=
  fun _ rq =>
    match rq_params rq with
    | [] => unavailable
    | _ => ok_response (JArr [JObj [(lit "contentUri", JStr plain_http_uri)]])
    end.

(** The statuses [get_session_with_retries] asks to retry. *)
Definition retried_statuses : list Z := [429; 500; 502; 503; 504].

(** A float reader for the scenarios, whose only float is zero, and an
    event with a non-ASCII string, a float and a nested array. *)
Definition sample_float_of_literal (text : pystr) : option float := Some 0%float.

Definition measured_event : json :=
  JObj [ (lit "k", JStr [233%N]);
         (lit "x", JFloat 0%float);
         (lit "n", JArr [JInt (-3); JNull; JStr (lit "a b")]) ].

(* ===================================================================== *)
(** ** Invariants, file effects and further scenarios *)
(* ===================================================================== *)

(** The name in use is the one of the current index. *)
Definition name_matches_index (base_file_name extension : pystr) (ls : loop_state) : Prop :=
  current_file_name ls = get_new_file_name base_file_name extension (file_index ls).

(** The counter is within the rotation threshold. *)
Definition counter_in_range (ls : loop_state) : Prop :=
  0 <= current_file_size ls <= threshold.

(** The files a trace opens or writes to, in order. *)
Fixpoint touched (tr : list io_event) : list pystr :=
  match tr with
  | [] => []
  | EvOpen f :: tr' => f :: touched tr'
  | EvWrite f _ :: tr' => f :: touched tr'
  | EvAttempt _ _ :: tr' => touched tr'
  end.

(** A step that opens and writes only files whose name satisfies [P],
    and leaves every other file as it was. *)
Definition touches_only (P : pystr -> Prop) (w w' : world) : Prop :=
  (exists tr, trace w' = trace w ++ tr /\ Forall P (touched tr))
  /\ forall name, ~ P name -> fs w' !! name = fs w !! name.

(** A step that only appends: every file that existed still exists and
    starts with the content it had. *)
Definition appends_only (w w' : world) : Prop :=
  forall name old, fs w !! name = Some old ->
    exists added, fs w' !! name = Some (old ++ added).

(** The names [get_new_file_name] gives to the files of a run. *)
Definition numbered_name (base_file_name extension : pystr) (name : pystr) : Prop :=
  exists i, 0 <= i /\ name = get_new_file_name base_file_name extension i.

(** A computation all of whose steps are in the relation [R], whatever
    its outcome. *)
Definition preserves {A} (R : world -> world -> Prop) (m : M A) : Prop :=
  forall w r w', m w = (r, w') -> R w w'.

(** The values a [for] loop can iterate over. *)
Definition iterable (v : json) : bool :=
  match v with
  | JArr _ | JObj _ | JStr _ => true
  | _ => false
  end.

(** The world after [open(name, "a")]. *)
Definition after_open (name : pystr) (w : world) : world :=
  {| trace := trace w ++ [EvOpen name];
     fs := <[name := default [] (fs w !! name)]> (fs w) |}.

(** A code point the file encoding can take. *)
Definition encodable (c : N) : bool := negb (is_surrogate c) && (c <=? 1114111)%N.

(** A refusal of the service: the status and an error object. *)
Definition refusal (status : Z) : response :=
  {| status_code := status; retry_after := false;
     body := Some (JObj [(lit "Message",
                          JStr (lit "Authorization has been denied for this request."))]) |}.

(** A content URI with a scheme no adapter is mounted for. *)
Definition ftp_uri : pystr := lit "ftp://blob/1".

(** An event that holds a lone surrogate (U+D800). *)
Definition surrogate_event : json := JObj [(lit "k", JStr [55296%N])].

(** The requests of a collection: the listing request, or the GET of a
    content URI, both with the bearer token of the run. *)
Definition collection_request
    (token tenant_id start_date_time end_date_time : pystr) (rq : request) : Prop :=
  rq = listing_request token tenant_id start_date_time end_date_time
  \/ exists content_uri, rq = content_request token content_uri.

(** A character that is not a control character. *)
Definition printable (c : N) : bool := (32 <=? c)%N.

(** A token endpoint that answers with a page that is not JSON, and one
    that answers with a JSON array. *)
Definition html_response : response :=
  {| status_code := 200; retry_after := false; body := None |}.

Definition array_response : response := ok_response (JArr [JStr (lit "abc")]).

(** The text of the lines of a sequence of events: each event's JSON
    text followed by a newline. *)
Definition lines_text (float_repr : float -> pystr) (events : list json) : pystr :=
  flat_map (fun e => dumps float_repr e ++ [10%N]) events.

(* ===================================================================== *)
(** * Properties *)
(* ===================================================================== *)

(** ** JSON values *)

(** Structural induction through the nested lists. *)
Lemma json_nested_ind (P : json -> Prop) :
  P JNull ->
  (forall b, P (JBool b)) ->
  (forall z, P (JInt z)) ->
  (forall f, P (JFloat f)) ->
  (forall s, P (JStr s)) ->
  (forall items, Forall P items -> P (JArr items)) ->
  (forall fields, Forall (fun kv => P (snd kv)) fields -> P (JObj fields)) ->
  forall v, P v.
Proof.
  intros Hnull Hbool Hint Hfloat Hstr Harr Hobj.
  fix IH 1. intros [ | b | z | f | s | items | fields ].
  - exact Hnull.
  - apply Hbool.
  - apply Hint.
  - apply Hfloat.
  - apply Hstr.
  - apply Harr. induction items as [ | x items IHitems ].
    + constructor.
    + constructor; [ apply IH | exact IHitems ].
  - apply Hobj. induction fields as [ | [k x] fields IHfields ].
    + constructor.
    + constructor; [ apply IH | exact IHfields ].
Qed.

(** ** The monad *)

Lemma bind_Ok {A B} (m : M A) (k : A -> M B) w a w' :
  m w = (Ok a, w') -> bind m k w = k a w'.
Proof. intros H. unfold bind. now rewrite H. Qed.

Lemma bind_inv_Ok {A B} (m : M A) (k : A -> M B) w b w2 :
  bind m k w = (Ok b, w2) ->
  exists a w1, m w = (Ok a, w1) /\ k a w1 = (Ok b, w2).
Proof.
  unfold bind. destruct (m w) as [[a | e] w1]; intros H.
  - now exists a, w1.
  - discriminate.
Qed.

Lemma lift_inv_Ok {A} (r : result A) w a w' :
  lift r w = (Ok a, w') -> r = Ok a /\ w' = w.
Proof. unfold lift. intros H. now inversion H. Qed.

Tactic Notation "bind_inv" hyp(H) "as" ident(a) ident(w1) ident(H1) :=
  apply bind_inv_Ok in H; destruct H as (a & w1 & H1 & H).

(** ** Strings and the encoder *)

Lemma len_app (s t : pystr) : len (s ++ t) = len s + len t.
Proof. unfold len. rewrite length_app. lia. Qed.

Lemma utf8_encode_app (s t : pystr) bs bt :
  utf8_encode s = Some bs -> utf8_encode t = Some bt ->
  utf8_encode (s ++ t) = Some (bs ++ bt).
Proof.
  revert bs. induction s as [ | c s IH ]; intros bs Hs Ht; simpl in *.
  - inversion Hs. exact Ht.
  - destruct (utf8_encode_char c) as [bc | ]; [ | discriminate ].
    destruct (utf8_encode s) as [bs' | ]; [ | discriminate ].
    inversion Hs; subst. rewrite (IH bs' eq_refl Ht). now rewrite <- app_assoc.
Qed.

Lemma utf8_encode_ascii (s : pystr) :
  Forall (fun c => (c < 128)%N) s -> utf8_encode s = Some s.
Proof.
  induction 1 as [ | c s Hc _ IH ]; simpl; [ reflexivity | ].
  unfold utf8_encode_char. apply N.ltb_lt in Hc. now rewrite Hc, IH.
Qed.

Lemma utf8_size_ascii (s : pystr) :
  Forall (fun c => (c < 128)%N) s -> utf8_size s = len s.
Proof. intros H. unfold utf8_size. now rewrite utf8_encode_ascii. Qed.

Lemma bytes_written_app name tr1 tr2 :
  bytes_written name (tr1 ++ tr2) = bytes_written name tr1 + bytes_written name tr2.
Proof.
  induction tr1 as [ | [ rq resp | f | f text ] tr1 IH ]; simpl; try lia.
Qed.

Lemma opened_app tr1 tr2 : opened (tr1 ++ tr2) = opened tr1 ++ opened tr2.
Proof.
  induction tr1 as [ | [ rq resp | f | f text ] tr1 IH ]; simpl; congruence.
Qed.

Lemma writes_app tr1 tr2 : writes (tr1 ++ tr2) = writes tr1 ++ writes tr2.
Proof.
  induction tr1 as [ | [ rq resp | f | f text ] tr1 IH ]; simpl; congruence.
Qed.

Lemma requests_app tr1 tr2 : requests (tr1 ++ tr2) = requests tr1 ++ requests tr2.
Proof.
  induction tr1 as [ | [ rq resp | f | f text ] tr1 IH ]; simpl; congruence.
Qed.

(** ** The write of one event *)

Lemma file_write_run file text w bytes :
  utf8_encode text = Some bytes ->
  file_write file text w =
    (Ok tt,
     {| trace := trace w ++ [EvWrite file text];
        fs := <[file := default [] (fs w !! file) ++ bytes]> (fs w) |}).
Proof. intros H. unfold file_write. now rewrite H. Qed.

Section WriteFacts.

Variable float_repr : float -> pystr.
Variables base_file_name extension : pystr.

Local Abbreviation account' := (account float_repr base_file_name extension).
Local Abbreviation write_event' := (write_event float_repr base_file_name extension).

Lemma write_event_run file event ls w bytes :
  utf8_encode (dumps float_repr event) = Some bytes ->
  write_event' file event ls w =
    (Ok (account' event ls),
     {| trace := trace w ++ [EvWrite file (dumps float_repr event); EvWrite file [10%N]];
        fs := <[file := default [] (fs w !! file) ++ bytes ++ [10%N]]> (fs w) |}).
Proof.
  intros Henc. unfold write_event.
  rewrite (bind_Ok _ _ _ _ _ (file_write_run file _ w bytes Henc)).
  rewrite (bind_Ok _ _ _ _ _ (file_write_run file [10%N] _ [10%N] eq_refl)).
  unfold ret. cbn [trace fs].
  rewrite lookup_insert_eq, insert_insert_eq. cbn [default from_option]. unfold id.
  rewrite <- !app_assoc. reflexivity.
Qed.

Lemma write_event_fails file event ls w :
  utf8_encode (dumps float_repr event) = None ->
  write_event' file event ls w = (Raise UnicodeEncodeError, w).
Proof.
  intros Henc. unfold write_event, bind, file_write.
  now rewrite Henc.
Qed.

End WriteFacts.

(** ** The HTTP layer *)

Lemma only_attempts_refl w : only_attempts w w.
Proof. split; [ reflexivity | ]. exists []. now rewrite app_nil_r. Qed.

Lemma only_attempts_trans w1 w2 w3 :
  only_attempts w1 w2 -> only_attempts w2 w3 -> only_attempts w1 w3.
Proof.
  intros [Hfs1 (tr1 & Ht1 & Ho1 & Hw1)] [Hfs2 (tr2 & Ht2 & Ho2 & Hw2)].
  split; [ congruence | ]. exists (tr1 ++ tr2).
  rewrite Ht2, Ht1, <- app_assoc, opened_app, writes_app, Ho1, Ho2, Hw1, Hw2. auto.
Qed.

Section NetworkFacts.

Variable server : list io_event -> request -> response.

Lemma attempt_run rq w :
  attempt server rq w =
    (Ok (server (trace w) rq), log_event (EvAttempt rq (server (trace w) rq)) w).
Proof. reflexivity. Qed.

Lemma urlopen_unfold r left rq w :
  urlopen server r left rq w =
    let resp := server (trace w) rq in
    let w1 := log_event (EvAttempt rq resp) w in
    if is_retry r left (rq_method rq) (status_code resp) (retry_after resp) then
      match left with
      | O => (Raise RetryError, w1)
      | S left' => urlopen server r left' rq w1
      end
    else (Ok resp, w1).
Proof.
  destruct left; cbn [urlopen]; unfold bind; rewrite attempt_run; cbn zeta;
    destruct (is_retry _ _ _ _ _); reflexivity.
Qed.

(** A response that is not to be retried is returned at once. *)
Lemma urlopen_final r left rq w :
  let resp := server (trace w) rq in
  is_retry r left (rq_method rq) (status_code resp) (retry_after resp) = false ->
  urlopen server r left rq w = (Ok resp, log_event (EvAttempt rq resp) w).
Proof. intros resp H. rewrite urlopen_unfold. cbn zeta. fold resp. now rewrite H. Qed.

Lemma is_retry_transient r left m resp :
  is_retry r left m (status_code resp) (retry_after resp) = true ->
  transient r m resp = true.
Proof.
  unfold is_retry, transient.
  destruct (mem_method m (allowed_methods r)); cbn; [ | discriminate ].
  destruct (mem_Z (status_code resp) (status_forcelist r)); cbn; [ reflexivity | ].
  destruct (Nat.eqb left 0); cbn; [ discriminate | ]. auto.
Qed.

(** What [urlopen] does: it sends the same request up to [left + 1]
    times; every response but the last was transient; it fails only with
    [RetryError], after [left + 1] transient responses. *)
Lemma urlopen_spec r left rq w res w' :
  urlopen server r left rq w = (res, w') ->
  fs w' = fs w /\
  exists resps,
    trace w' = trace w ++ List.map (EvAttempt rq) resps /\
    match res with
    | Ok resp =>
        exists pre, resps = pre ++ [resp] /\ (length pre <= left)%nat /\
          Forall (fun x => transient r (rq_method rq) x = true) pre /\
          is_retry r (left - length pre) (rq_method rq) (status_code resp)
            (retry_after resp) = false
    | Raise e =>
        e = RetryError /\ length resps = S left /\
        Forall (fun x => transient r (rq_method rq) x = true) resps
    end.
Proof.
  revert w. induction left as [ | left IH ]; intros w; rewrite urlopen_unfold; cbn zeta;
    set (resp := server (trace w) rq);
    destruct (is_retry r _ (rq_method rq) (status_code resp) (retry_after resp)) eqn:Hretry.
  - intros H; inversion H; subst. split; [ reflexivity | ].
    exists [resp]. split; [ reflexivity | ]. split; [ reflexivity | ]. split; [ reflexivity | ].
    constructor; [ | constructor ]. eapply is_retry_transient; eauto.
  - intros H; inversion H; subst. split; [ reflexivity | ].
    exists [resp]. split; [ reflexivity | ]. exists []. cbn. auto.
  - intros H. apply IH in H. destruct H as [Hfs (resps & Htr & Hres)].
    split; [ exact Hfs | ]. exists (resp :: resps). split.
    + rewrite Htr. cbn. now rewrite <- app_assoc.
    + apply is_retry_transient in Hretry. destruct res as [ final | e ].
      * destruct Hres as (pre & -> & Hlen & Hall & Hlast).
        exists (resp :: pre). cbn. repeat split; auto; lia.
      * destruct Hres as (-> & Hlen & Hall). cbn. repeat split; auto.
  - intros H; inversion H; subst. split; [ reflexivity | ].
    exists [resp]. split; [ reflexivity | ]. exists []. cbn. repeat split; auto. lia.
Qed.

Lemma map_attempt_silent rq resps :
  opened (List.map (EvAttempt rq) resps) = [] /\ writes (List.map (EvAttempt rq) resps) = [].
Proof. induction resps; cbn; auto. Qed.

Lemma urlopen_only_attempts r left rq w res w' :
  urlopen server r left rq w = (res, w') -> only_attempts w w'.
Proof.
  intros H. apply urlopen_spec in H. destruct H as [Hfs (resps & Htr & _)].
  split; [ exact Hfs | ]. exists (List.map (EvAttempt rq) resps).
  destruct (map_attempt_silent rq resps). auto.
Qed.

Lemma session_request_only_attempts s m url headers params data timeout w res w' :
  session_request server s m url headers params data timeout w = (res, w') ->
  only_attempts w w'.
Proof.
  unfold session_request, adapter_send, raise.
  destruct url; try (intros H; inversion H; subst; apply only_attempts_refl).
  destruct (get_adapter s s0).
  - apply urlopen_only_attempts.
  - intros H; inversion H; subst; apply only_attempts_refl.
Qed.

(** With the methods [urllib3] retries by default, a POST is sent once
    and its response is returned whatever its status. *)
Lemma urlopen_post total backoff forcelist left rq w :
  rq_method rq = POST ->
  urlopen server (Retry_new total backoff forcelist) left rq w =
    (Ok (server (trace w) rq), log_event (EvAttempt rq (server (trace w) rq)) w).
Proof.
  intros Hm. apply urlopen_final. unfold is_retry. now rewrite Hm.
Qed.

End NetworkFacts.

(** ** The adapters of the shared session *)

Lemma session_adapters :
  adapters get_session_with_retries =
    [ (lit "https://", retry_adapter); (lit "http://", default_adapter) ].
Proof. reflexivity. Qed.

Lemma get_adapter_https url :
  starts_with (lower url) (lit "https://") = true ->
  get_adapter get_session_with_retries url = Some retry_adapter.
Proof.
  intros H. unfold get_adapter. rewrite session_adapters. cbn [List.find fst].
  change (lower (lit "https://")) with (lit "https://"). now rewrite H.
Qed.

Lemma get_adapter_http url :
  starts_with (lower url) (lit "https://") = false ->
  starts_with (lower url) (lit "http://") = true ->
  get_adapter get_session_with_retries url = Some default_adapter.
Proof.
  intros H1 H2. unfold get_adapter. rewrite session_adapters. cbn [List.find fst].
  change (lower (lit "https://")) with (lit "https://").
  change (lower (lit "http://")) with (lit "http://"). now rewrite H1, H2.
Qed.

Lemma get_adapter_none url :
  starts_with (lower url) (lit "https://") = false ->
  starts_with (lower url) (lit "http://") = false ->
  get_adapter get_session_with_retries url = None.
Proof.
  intros H1 H2. unfold get_adapter. rewrite session_adapters. cbn [List.find fst].
  change (lower (lit "https://")) with (lit "https://").
  change (lower (lit "http://")) with (lit "http://"). now rewrite H1, H2.
Qed.

Lemma token_url_https tenant_id :
  starts_with (lower (token_url tenant_id)) (lit "https://") = true.
Proof. reflexivity. Qed.

Lemma content_base_url_https tenant_id :
  starts_with (lower (content_base_url tenant_id)) (lit "https://") = true.
Proof. reflexivity. Qed.

(** ** The token request *)

Section TokenFacts.

Variable server : list io_event -> request -> response.

(** The whole behaviour of [get_access_token] on the shared session: one
    POST, whose response decides the outcome. *)
Lemma get_access_token_run tenant_id client_id client_secret w :
  get_access_token server get_session_with_retries tenant_id client_id client_secret w =
    let rq := token_request tenant_id client_id client_secret in
    let resp := server (trace w) rq in
    let w1 := log_event (EvAttempt rq resp) w in
    if (400 <=? status_code resp) && (status_code resp <? 600) then
      (Raise (HTTPError (status_code resp)), w1)
    else
      match body resp with
      | None => (Raise JSONDecodeError, w1)
      | Some v => (py_getitem v (lit "access_token"), w1)
      end.
Proof.
  unfold get_access_token, session_request.
  rewrite (get_adapter_https _ (token_url_https tenant_id)).
  unfold adapter_send, retry_adapter. cbn [max_retries].
  fold (token_request tenant_id client_id client_secret).
  rewrite (bind_Ok _ _ _ _ _
             (urlopen_post server _ _ _ _
                (token_request tenant_id client_id client_secret) w eq_refl)).
  cbn zeta. unfold raise_for_status.
  destruct ((400 <=? _) && (_ <? 600)); [ reflexivity | ].
  unfold bind, ret, response_json, raise, lift.
  destruct (body _); reflexivity.
Qed.

End TokenFacts.

(** C6, as amended.  On the shared session [get_access_token] fails with
    an [HTTPError] carrying the status exactly when the token endpoint
    answers with a 4xx or 5xx status; on every other status, a body that
    is a JSON object yields its [access_token] field, and a [KeyError] when
    the field is absent. *)
Theorem get_access_token_outcome
    (server : list io_event -> request -> response)
    (tenant_id client_id client_secret : pystr) (w : world) :
  let resp := server (trace w) (token_request tenant_id client_id client_secret) in
  let outcome :=
    fst (get_access_token server get_session_with_retries
           tenant_id client_id client_secret w) in
  (400 <= status_code resp < 600 -> outcome = Raise (HTTPError (status_code resp)))
  /\ (forall fields value,
        ~ 400 <= status_code resp < 600 ->
        body resp = Some (JObj fields) ->
        assoc_get (lit "access_token") fields = Some value ->
        outcome = Ok value)
  /\ (forall fields,
        ~ 400 <= status_code resp < 600 ->
        body resp = Some (JObj fields) ->
        assoc_get (lit "access_token") fields = None ->
        outcome = Raise (KeyError (lit "access_token"))).
Proof.
  cbn zeta. rewrite get_access_token_run. cbn zeta.
  set (resp := server _ _).
  destruct ((400 <=? status_code resp) && (status_code resp <? 600)) eqn:Hst.
  - apply andb_true_iff in Hst. destruct Hst as [H1 H2].
    apply Z.leb_le in H1. apply Z.ltb_lt in H2.
    split; [ reflexivity | ]. split; intros; exfalso; lia.
  - apply andb_false_iff in Hst.
    split; [ | split ].
    + intros [H1 H2]. destruct Hst as [Hst | Hst];
        [ apply Z.leb_gt in Hst | apply Z.ltb_ge in Hst ]; lia.
    + intros fields value _ Hbody Hget. rewrite Hbody. unfold py_getitem. now rewrite Hget.
    + intros fields _ Hbody Hget. rewrite Hbody. unfold py_getitem. now rewrite Hget.
Qed.

Lemma get_access_token_outcome_witness :
  fst (get_access_token (constant_server (token_response 401)) get_session_with_retries
         (lit "tenant") (lit "id") (lit "secret") empty_world)
    = Raise (HTTPError 401)
  /\ fst (get_access_token (constant_server (token_response 200)) get_session_with_retries
            (lit "tenant") (lit "id") (lit "secret") empty_world)
     = Ok (JStr (lit "abc"))
  /\ fst (get_access_token (constant_server tokenless_response) get_session_with_retries
            (lit "tenant") (lit "id") (lit "secret") empty_world)
     = Raise (KeyError (lit "access_token")).
Proof.
  split; [ | split ].
  - apply (proj1 (get_access_token_outcome (constant_server (token_response 401))
                    (lit "tenant") (lit "id") (lit "secret") empty_world)).
    cbn. lia.
  - apply (proj1 (proj2 (get_access_token_outcome (constant_server (token_response 200))
                           (lit "tenant") (lit "id") (lit "secret") empty_world))
             [(lit "token_type", JStr (lit "Bearer")); (lit "access_token", JStr (lit "abc"))]).
    + cbn. lia.
    + reflexivity.
    + reflexivity.
  - apply (proj2 (proj2 (get_access_token_outcome (constant_server tokenless_response)
                           (lit "tenant") (lit "id") (lit "secret") empty_world))
             [(lit "token_type", JStr (lit "Bearer"))]).
    + cbn. lia.
    + reflexivity.
    + reflexivity.
Defined.

(** C6 as stated fails: "every status outside 2xx makes
    [get_access_token] fail with an HTTP error" is refuted by a token
    endpoint answering 300 with a token in the body, for which the token is
    returned. *)
Lemma get_access_token_non_2xx_counterexample :
  ~ (forall (server : list io_event -> request -> response)
            (tenant_id client_id client_secret : pystr) (w : world),
       let resp := server (trace w) (token_request tenant_id client_id client_secret) in
       ~ 200 <= status_code resp < 300 ->
       fst (get_access_token server get_session_with_retries
              tenant_id client_id client_secret w)
       = Raise (HTTPError (status_code resp))).
Proof.
  intros Hclaim.
  specialize (Hclaim (constant_server (token_response 300))
                (lit "tenant") (lit "id") (lit "secret") empty_world).
  cbn zeta in Hclaim.
  assert (Hrun : fst (get_access_token (constant_server (token_response 300))
                        get_session_with_retries (lit "tenant") (lit "id") (lit "secret")
                        empty_world)
                 = Ok (JStr (lit "abc"))) by reflexivity.
  rewrite Hrun in Hclaim.
  assert (Hstatus : ~ 200 <= status_code (token_response 300) < 300) by (cbn; lia).
  specialize (Hclaim Hstatus). discriminate Hclaim.
Qed.

(** ** Skipped listing entries *)

Section SkipFacts.

Variable float_repr : float -> pystr.
Variable server : list io_event -> request -> response.
Variable session : Session.
Variables token base_file_name extension : pystr.

Local Abbreviation process_content' :=
  (process_content float_repr server session token base_file_name extension).
Local Abbreviation collect_loop' :=
  (collect_loop float_repr server session token base_file_name extension).

Lemma process_content_falsy fields ls w :
  truthy (default JNull (assoc_get (lit "contentUri") fields)) = false ->
  process_content' (JObj fields) ls w = (Ok ls, w).
Proof.
  intros H. unfold process_content, bind, lift, py_get.
  now rewrite H.
Qed.

Lemma collect_loop_app pre post ls w :
  collect_loop' (pre ++ post) ls w =
    bind (collect_loop' pre ls) (collect_loop' post) w.
Proof.
  revert ls w. induction pre as [ | c pre IH ]; intros ls w; cbn.
  - reflexivity.
  - unfold bind.
    destruct (process_content' c ls w) as [[ls1 | e] w1].
    + rewrite IH. reflexivity.
    + reflexivity.
Qed.

Lemma collect_loop_all_falsy entries ls w :
  Forall (fun entry => exists fields, entry = JObj fields /\
            truthy (default JNull (assoc_get (lit "contentUri") fields)) = false)
    entries ->
  collect_loop' entries ls w = (Ok ls, w).
Proof.
  induction 1 as [ | entry entries (fields & -> & Hfalsy) _ IH ]; cbn.
  - reflexivity.
  -       now rewrite (bind_Ok _ _ _ _ _ (process_content_falsy fields ls w Hfalsy)).
Qed.

End SkipFacts.

(** C8.  A listing entry without a [contentUri] field is skipped without
    any error: processing it returns normally and leaves the loop state
    (so the event total) and the world (no request, no file opened, nothing
    written) as they were, and a listing with the entry behaves as the
    listing without it. *)
Theorem entry_without_uri_is_skipped
    (float_repr : float -> pystr) (server : list io_event -> request -> response)
    (session : Session) (token base_file_name extension : pystr)
    (fields : list (pystr * json)) (pre post : list json)
    (ls : loop_state) (w : world) :
  assoc_get (lit "contentUri") fields = None ->
  process_content float_repr server session token base_file_name extension
    (JObj fields) ls w = (Ok ls, w)
  /\ collect_loop float_repr server session token base_file_name extension
       (pre ++ JObj fields :: post) ls w
     = collect_loop float_repr server session token base_file_name extension
         (pre ++ post) ls w.
Proof.
  intros Hmissing.
  assert (Hskip : forall ls' w',
             process_content float_repr server session token base_file_name extension
               (JObj fields) ls' w' = (Ok ls', w')).
  { intros ls' w'. apply process_content_falsy. now rewrite Hmissing. }
  split; [ apply Hskip | ].
  rewrite !collect_loop_app. unfold bind.
  destruct (collect_loop _ _ _ _ _ _ pre ls w) as [[ls1 | e] w1]; [ | reflexivity ].
  cbn [collect_loop]. now rewrite (bind_Ok _ _ _ _ _ (Hskip ls1 w1)).
Qed.

Lemma entry_without_uri_is_skipped_witness :
  let ls := initial_loop_state (lit "out") (lit ".json") in
  let entry := JObj [(lit "contentId", JStr (lit "b"))] in
  process_content sample_float_repr mixed_server get_session_with_retries (lit "token")
    (lit "out") (lit ".json") entry ls empty_world = (Ok ls, empty_world)
  /\ collect_loop sample_float_repr mixed_server get_session_with_retries (lit "token")
       (lit "out") (lit ".json")
       ([JObj [(lit "contentUri", JStr blob_uri)]] ++ entry :: [JObj []]) ls empty_world
     = collect_loop sample_float_repr mixed_server get_session_with_retries (lit "token")
         (lit "out") (lit ".json")
         ([JObj [(lit "contentUri", JStr blob_uri)]] ++ [JObj []]) ls empty_world.
Proof.
  intros ls entry.
  apply (entry_without_uri_is_skipped sample_float_repr mixed_server
           get_session_with_retries (lit "token") (lit "out") (lit ".json")
           [(lit "contentId", JStr (lit "b"))]
           [JObj [(lit "contentUri", JStr blob_uri)]] [JObj []] ls empty_world).
  reflexivity.
Defined.

(** C9.  When the listing request delivers an array none of whose entries
    has a truthy [contentUri] (the array may be empty; a missing field, a
    null and the empty string all count), [collect_logs] returns 0 in the
    world the listing request left: no file has been opened and the file
    system is unchanged. *)
Theorem collect_logs_without_uris
    (float_repr : float -> pystr) (server : list io_event -> request -> response)
    (session : Session)
    (token tenant_id start_date_time end_date_time base_file_name extension : pystr)
    (entries : list json) (resp : response) (w w1 : world) :
  session_request server session GET (JStr (content_base_url tenant_id))
    (auth_headers token) (listing_params start_date_time end_date_time) []
    (Some REQUEST_TIMEOUT) w = (Ok resp, w1) ->
  (400 <=? status_code resp) && (status_code resp <? 600) = false ->
  body resp = Some (JArr entries) ->
  Forall (fun entry => exists fields, entry = JObj fields /\
            truthy (default JNull (assoc_get (lit "contentUri") fields)) = false)
    entries ->
  collect_logs float_repr server session token tenant_id start_date_time
    end_date_time base_file_name extension w = (Ok 0, w1)
  /\ opened (trace w1) = opened (trace w)
  /\ fs w1 = fs w.
Proof.
  intros Hlist Hstatus Hbody Hentries. split.
  - unfold collect_logs. rewrite (bind_Ok _ _ _ _ _ Hlist).
    unfold raise_for_status. rewrite Hstatus.
    unfold response_json. rewrite Hbody.
    unfold bind at 1 2 3. unfold ret at 1 2. unfold lift. cbn [py_iter].
    unfold bind. now rewrite (collect_loop_all_falsy _ _ _ _ _ _ _ _ _ Hentries).
  - apply session_request_only_attempts in Hlist.
    destruct Hlist as [Hfs (tr & Htr & Hopen & _)].
    split; [ | exact Hfs ]. rewrite Htr, opened_app, Hopen. apply app_nil_r.
Qed.

(** ** Runs against a well-behaved server *)

Lemma raise_for_status_ok_response v w : raise_for_status (ok_response v) w = (Ok tt, w).
Proof. reflexivity. Qed.

Lemma response_json_ok_response v w : response_json (ok_response v) w = (Ok v, w).
Proof. reflexivity. Qed.

Lemma open_append_run name w :
  open_append name w =
    (Ok name,
     {| trace := trace w ++ [EvOpen name];
        fs := <[name := default [] (fs w !! name)]> (fs w) |}).
Proof. reflexivity. Qed.

Lemma lift_run {A} (r : result A) (a : A) w : r = Ok a -> lift r w = (Ok a, w).
Proof. now intros ->. Qed.

Section CollectFacts.

Variable float_repr : float -> pystr.
Variable server : list io_event -> request -> response.
Variables token base_file_name extension : pystr.

Local Abbreviation account' := (account float_repr base_file_name extension).
Local Abbreviation account_all' := (account_all float_repr base_file_name extension).
Local Abbreviation write_events' := (write_events float_repr base_file_name extension).
Local Abbreviation process_content' :=
  (process_content float_repr server get_session_with_retries token
     base_file_name extension).
Local Abbreviation collect_loop' :=
  (collect_loop float_repr server get_session_with_retries token
     base_file_name extension).

Lemma account_all_snoc events e ls :
  account_all' (events ++ [e]) ls = account' e (account_all' events ls).
Proof. unfold account_all. now rewrite fold_left_app. Qed.

Lemma total_logs_account e ls : total_logs (account' e ls) = total_logs ls + 1.
Proof.
  unfold account. cbn zeta.
  destruct (_ >? _); reflexivity.
Qed.

Lemma total_logs_account_all events ls :
  total_logs (account_all' events ls) = total_logs ls + Z.of_nat (length events).
Proof.
  revert ls. induction events as [ | e events IH ]; intros ls; cbn.
  - lia.
  - unfold account_all in IH |- *. cbn [fold_left].
    rewrite IH. rewrite total_logs_account. lia.
Qed.

(** The inner loop on events that can all be written: every line goes
    to the handle, the state is the accounting of the events. *)
Lemma write_events_run file events ls w :
  Forall (writable float_repr) events ->
  exists w',
    write_events' file events ls w = (Ok (account_all' events ls), w') /\
    trace w' = trace w ++ flat_map (event_writes float_repr file) events.
Proof.
  intros Hall. revert ls w. induction Hall as [ | e events [bytes He] _ IH ]; intros ls w.
  - exists w. cbn. now rewrite app_nil_r.
  - cbn [write_events].
    rewrite (bind_Ok _ _ _ _ _ (write_event_run _ _ _ file e ls w bytes He)).
    destruct (IH (account' e ls)
                {| trace := trace w ++ [EvWrite file (dumps float_repr e); EvWrite file [10%N]];
                   fs := <[file := default [] (fs w !! file) ++ bytes ++ [10%N]]> (fs w) |})
      as (w' & Hrun & Htr).
    exists w'. split; [ exact Hrun | ].
    rewrite Htr. cbn [trace flat_map event_writes]. now rewrite <- app_assoc.
Qed.

(** One listing entry with a content URI, answered with an array. *)
Lemma process_content_run fields uri events ls w :
  assoc_get (lit "contentUri") fields = Some (JStr uri) ->
  uri <> [] ->
  starts_with (lower uri) (lit "https://") = true
    \/ starts_with (lower uri) (lit "http://") = true ->
  server (trace w) (content_request token uri) = ok_response (JArr events) ->
  Forall (writable float_repr) events ->
  exists w',
    process_content' (JObj fields) ls w = (Ok (account_all' events ls), w') /\
    trace w' =
      trace w
      ++ [EvAttempt (content_request token uri) (ok_response (JArr events));
          EvOpen (current_file_name ls)]
      ++ flat_map (event_writes float_repr (current_file_name ls)) events.
Proof.
  intros Hget Hne Hscheme Hserver Hall.
  assert (Hsend :
    session_request server get_session_with_retries GET (JStr uri) (auth_headers token)
      [] [] (Some REQUEST_TIMEOUT) w =
    (Ok (ok_response (JArr events)),
     log_event (EvAttempt (content_request token uri) (ok_response (JArr events))) w)).
  { unfold session_request. fold (content_request token uri).
    assert (Hfinal : forall a, a = retry_adapter \/ a = default_adapter ->
              adapter_send server a (content_request token uri) w =
              (Ok (ok_response (JArr events)),
               log_event (EvAttempt (content_request token uri)
                            (ok_response (JArr events))) w)).
    { intros a Ha. unfold adapter_send. rewrite <- Hserver.
      apply urlopen_final. cbn zeta. rewrite Hserver.
      destruct Ha as [-> | ->]; reflexivity. }
    destruct (starts_with (lower uri) (lit "https://")) eqn:Hs.
    - rewrite (get_adapter_https _ Hs). apply Hfinal. now left.
    - destruct Hscheme as [Hscheme | Hscheme]; [ discriminate | ].
      rewrite (get_adapter_http _ Hs Hscheme). apply Hfinal. now right. }
  unfold process_content.
  unfold lift at 1. unfold bind at 1. cbn [py_get]. rewrite Hget. cbn [default from_option].
  unfold id.
  replace (truthy (JStr uri)) with true by (destruct uri; [ contradiction | reflexivity ]).
  cbn [negb]. rewrite (bind_Ok _ _ _ _ _ Hsend).
  rewrite (bind_Ok _ _ _ _ _ (raise_for_status_ok_response _ _)).
  rewrite (bind_Ok _ _ _ _ _ (response_json_ok_response _ _)).
  rewrite (bind_Ok _ _ _ _ _ (open_append_run _ _)).
  rewrite (bind_Ok _ _ _ _ _ (lift_run (py_iter (JArr events)) _ _ eq_refl)).
  match goal with
  | |- context [ write_events _ _ _ ?f ?evs ?l ?w0 ] =>
      destruct (write_events_run f evs l w0 Hall) as (w' & Hrun & Htr)
  end.
  exists w'. split; [ exact Hrun | ].
  rewrite Htr. cbn [trace log_event]. now rewrite <- !app_assoc.
Qed.

Lemma account_all_app events1 events2 ls :
  account_all' (events1 ++ events2) ls = account_all' events2 (account_all' events1 ls).
Proof. unfold account_all. apply fold_left_app. Qed.

Lemma writes_event_writes file events :
  List.map snd (writes (flat_map (event_writes float_repr file) events)) =
    flat_map (fun e => [dumps float_repr e; [10%N]]) events.
Proof. induction events as [ | e events IH ]; cbn; congruence. Qed.

Lemma content_uri_of_falsy fields :
  truthy (default JNull (assoc_get (lit "contentUri") fields)) = false ->
  content_uri_of (JObj fields) = None.
Proof.
  unfold content_uri_of. destruct (assoc_get _ fields) as [ [ | | | | [ | c u ] | | ] | ];
    cbn; congruence.
Qed.

Lemma content_uri_of_string fields uri :
  assoc_get (lit "contentUri") fields = Some (JStr uri) -> uri <> [] ->
  content_uri_of (JObj fields) = Some uri.
Proof.
  intros H Hne. unfold content_uri_of. rewrite H. destruct uri; [ contradiction | reflexivity ].
Qed.

(** The outer loop over a well-formed listing whose blobs the server
    delivers as arrays of writable events. *)
Lemma collect_loop_run entries blobs ls w :
  (forall tr uri, In uri (fetched_uris entries) ->
     server tr (content_request token uri) = ok_response (JArr (blobs uri))) ->
  Forall listing_entry_ok entries ->
  (forall uri, In uri (fetched_uris entries) -> Forall (writable float_repr) (blobs uri)) ->
  exists w',
    collect_loop' entries ls w =
      (Ok (account_all' (flat_map blobs (fetched_uris entries)) ls), w') /\
    List.map snd (writes (trace w')) =
      List.map snd (writes (trace w))
      ++ flat_map (fun e => [dumps float_repr e; [10%N]])
           (flat_map blobs (fetched_uris entries)).
Proof.
  intros Hserver Hok. revert ls w Hserver.
  induction Hok as [ | entry entries (fields & -> & Hentry) _ IH ]; intros ls w Hserver Hwr.
  - exists w. cbn. now rewrite app_nil_r.
  - cbn [collect_loop]. cbn [fetched_uris] in *.
    destruct Hentry as [Hfalsy | (uri & Hget & Hne & Hscheme)].
    + rewrite (content_uri_of_falsy _ Hfalsy) in *.
      rewrite (bind_Ok _ _ _ _ _ (process_content_falsy _ _ _ _ _ _ fields ls w Hfalsy)).
      apply IH; assumption.
    + rewrite (content_uri_of_string _ _ Hget Hne) in *. cbn [flat_map].
      destruct (process_content_run fields uri (blobs uri) ls w Hget Hne Hscheme)
        as (w1 & Hrun & Htr).
      { apply Hserver. now left. }
      { apply Hwr. now left. }
      rewrite (bind_Ok _ _ _ _ _ Hrun).
      destruct (IH (account_all' (blobs uri) ls) w1) as (w' & Hrun' & Htr').
      { intros tr u Hu. apply Hserver. now right. }
      { intros u Hu. apply Hwr. now right. }
      exists w'. split.
      * rewrite account_all_app. exact Hrun'.
      * rewrite Htr', Htr, !flat_map_app.
        rewrite !writes_app, !List.map_app, writes_event_writes. cbn [writes List.map app].
        now rewrite <- !app_assoc.
Qed.

End CollectFacts.


(** ** Rotation within one content blob *)

Lemma flat_map_escape_letters n : flat_map escape_char (repeat 97%N n) = repeat 97%N n.
Proof. induction n as [ | n IH ]; cbn [repeat flat_map]; [ reflexivity | ]. now rewrite IH. Qed.

Lemma dumps_padded_event float_repr n :
  dumps float_repr (padded_event n) =
    [123; 34; 107; 34; 58; 32; 34]%N ++ repeat 97%N n ++ [34; 125]%N.
Proof.
  unfold padded_event. cbn [dumps List.map join fst snd]. unfold encode_basestring.
  rewrite flat_map_escape_letters.
  change (lit "{") with [123%N]. change (lit "}") with [125%N].
  change (lit ": ") with [58; 32]%N.
  change (flat_map escape_char (lit "k")) with [107%N].
  cbn [app]. now rewrite <- !app_assoc.
Qed.

Lemma dumps_padded_event_ascii float_repr n :
  Forall (fun c => (c < 128)%N) (dumps float_repr (padded_event n)).
Proof.
  rewrite dumps_padded_event. apply Forall_app. split; [ | apply Forall_app; split ].
  - repeat constructor.
  - induction n; cbn [repeat]; constructor; [ reflexivity | assumption ].
  - repeat constructor.
Qed.

Lemma len_dumps_padded_event float_repr n :
  len (dumps float_repr (padded_event n)) = Z.of_nat n + 9.
Proof.
  rewrite dumps_padded_event, !len_app. unfold len. rewrite repeat_length. cbn [length]. lia.
Qed.

Lemma utf8_size_dumps_padded_event float_repr n :
  utf8_size (dumps float_repr (padded_event n)) = Z.of_nat n + 9.
Proof.
  rewrite (utf8_size_ascii _ (dumps_padded_event_ascii float_repr n)).
  apply len_dumps_padded_event.
Qed.

Lemma writable_padded_event float_repr n : writable float_repr (padded_event n).
Proof.
  unfold writable. rewrite (utf8_encode_ascii _ (dumps_padded_event_ascii float_repr n)).
  eexists; reflexivity.
Qed.

Lemma bytes_written_event_writes float_repr file events :
  bytes_written file (flat_map (event_writes float_repr file) events) =
    fold_right (fun e acc => utf8_size (dumps float_repr e) + 1 + acc) 0 events.
Proof.
  induction events as [ | e events IH ]; cbn [flat_map fold_right]; [ reflexivity | ].
  rewrite bytes_written_app, IH. cbn [event_writes bytes_written].
  destruct (decide (file = file)) as [ _ | Hne ]; [ | congruence ].
  change (utf8_size [10%N]) with 1. lia.
Qed.

(** The run of [collect_logs] against a server with a single blob: all
    the events of the blob are written through the handle opened on the
    file of index 0. *)
Lemma collect_logs_single_blob float_repr events
    (token tenant_id start_date_time end_date_time base_file_name extension : pystr) w :
  Forall (writable float_repr) events ->
  exists w',
    collect_logs float_repr (single_blob_server events) get_session_with_retries token
      tenant_id start_date_time end_date_time base_file_name extension w
    = (Ok (Z.of_nat (length events)), w') /\
    trace w' =
      trace w
      ++ [EvAttempt (listing_request token tenant_id start_date_time end_date_time)
            (ok_response (JArr [JObj [(lit "contentUri", JStr blob_uri)]]));
          EvAttempt (content_request token blob_uri) (ok_response (JArr events));
          EvOpen (get_new_file_name base_file_name extension 0)]
      ++ flat_map (event_writes float_repr (get_new_file_name base_file_name extension 0))
           events.
Proof.
  intros Hall.
  set (server := single_blob_server events).
  set (lrq := listing_request token tenant_id start_date_time end_date_time).
  set (entry := JObj [(lit "contentUri", JStr blob_uri)]).
  set (w1 := log_event (EvAttempt lrq (ok_response (JArr [entry]))) w).
  destruct (process_content_run float_repr server token base_file_name extension
              [(lit "contentUri", JStr blob_uri)] blob_uri events
              (initial_loop_state base_file_name extension) w1)
    as (w' & Hrun & Htr); try reflexivity; try assumption.
  { discriminate. }
  { now left. }
  exists w'. split.
  - unfold collect_logs, session_request.
    rewrite (get_adapter_https _ (content_base_url_https tenant_id)).
    fold lrq. unfold adapter_send.
    assert (Hsend : urlopen server (max_retries retry_adapter)
                      (total (max_retries retry_adapter)) lrq w
                    = (Ok (ok_response (JArr [entry])), w1)).
    { apply urlopen_final. reflexivity. }
    rewrite (bind_Ok _ _ _ _ _ Hsend).
    rewrite (bind_Ok _ _ _ _ _ (raise_for_status_ok_response _ _)).
    rewrite (bind_Ok _ _ _ _ _ (response_json_ok_response _ _)).
    rewrite (bind_Ok _ _ _ _ _ (lift_run (py_iter (JArr [entry])) _ _ eq_refl)).
    cbn [collect_loop]. fold entry in Hrun.
    rewrite (bind_Ok _ _ _ _ _ (bind_Ok _ _ _ _ _ Hrun)). unfold ret.
    rewrite total_logs_account_all. reflexivity.
  - rewrite Htr. unfold w1. cbn [log_event trace initial_loop_state current_file_name].
    now rewrite <- !app_assoc.
Qed.

(** C2, at a failing input.  A blob of two events whose first event is
    larger than 500 MiB: the first write makes the counter exceed the
    threshold and the loop rotates (index 1, name [out_1.json], counter 0),
    and yet the very next event is written to [out_0.json], the file the
    enclosing [with] opened; [out_1.json] is never opened. *)
Theorem rotation_keeps_writing_to_old_file :
  let big := padded_event (N.to_nat 524288000) in
  let run :=
    collect_logs sample_float_repr (single_blob_server [big; JObj []])
      get_session_with_retries (lit "token") (lit "tenant") (lit "start") (lit "end")
      (lit "out") (lit ".json") empty_world in
  fst run = Ok 2
  /\ account sample_float_repr (lit "out") (lit ".json") big
       (initial_loop_state (lit "out") (lit ".json"))
     = {| file_index := 1; current_file_name := lit "out_1.json";
          current_file_size := 0; total_logs := 1 |}
  /\ writes (trace (snd run))
     = [ (lit "out_0.json", dumps sample_float_repr big); (lit "out_0.json", [10%N]);
         (lit "out_0.json", dumps sample_float_repr (JObj [])); (lit "out_0.json", [10%N]) ]
  /\ opened (trace (snd run)) = [lit "out_0.json"].
Proof.
  intros big run.
  destruct (collect_logs_single_blob sample_float_repr [big; JObj []]
              (lit "token") (lit "tenant") (lit "start") (lit "end")
              (lit "out") (lit ".json") empty_world) as (w' & Hrun & Htr).
  { constructor; [ apply writable_padded_event | ].
    constructor; [ | constructor ]. eexists; reflexivity. }
  fold run in Hrun. rewrite Hrun. cbn [fst snd].
  split; [ reflexivity | ]. split; [ | split ].
  - unfold account, big. cbn zeta.
    rewrite len_dumps_padded_event.
    match goal with
    | |- context [ ?size >? ?limit ] => assert (Hgt : (size >? limit) = true)
    end.
    { apply Z.gtb_lt. cbn [current_file_size initial_loop_state].
      unfold MAX_FILE_SIZE_MB. lia. }
    rewrite Hgt. reflexivity.
  - rewrite Htr.
    change (get_new_file_name (lit "out") (lit ".json") 0) with (lit "out_0.json").
    reflexivity.
  - rewrite Htr.
    change (get_new_file_name (lit "out") (lit ".json") 0) with (lit "out_0.json").
    reflexivity.
Qed.

(** C1, at a failing input.  A blob of three events of 314572810 bytes
    each (newline included): the second write crosses the threshold of
    524288000, the third is still appended to [out_0.json], which ends up
    with 943718430 bytes, more than the threshold plus one event. *)
Theorem file_exceeds_threshold_by_more_than_one_event :
  let event := padded_event (N.to_nat 314572800) in
  let run :=
    collect_logs sample_float_repr (single_blob_server [event; event; event])
      get_session_with_retries (lit "token") (lit "tenant") (lit "start") (lit "end")
      (lit "out") (lit ".json") empty_world in
  fst run = Ok 3
  /\ utf8_size (dumps sample_float_repr event) + 1 = 314572810
  /\ bytes_written (lit "out_0.json") (trace (snd run)) = 943718430
  /\ bytes_written (lit "out_0.json") (trace (snd run))
     > threshold + (utf8_size (dumps sample_float_repr event) + 1).
Proof.
  intros event run.
  destruct (collect_logs_single_blob sample_float_repr [event; event; event]
              (lit "token") (lit "tenant") (lit "start") (lit "end")
              (lit "out") (lit ".json") empty_world) as (w' & Hrun & Htr).
  { pose proof (writable_padded_event sample_float_repr (N.to_nat 314572800)) as Hw.
    do 3 (constructor; [ exact Hw | ]). constructor. }
  fold run in Hrun. rewrite Hrun. cbn [fst snd].
  assert (Hsize : utf8_size (dumps sample_float_repr event) + 1 = 314572810).
  { unfold event. rewrite utf8_size_dumps_padded_event. lia. }
  assert (Hbytes : bytes_written (lit "out_0.json") (trace w') = 943718430).
  { rewrite Htr.
    change (get_new_file_name (lit "out") (lit ".json") 0) with (lit "out_0.json").
    rewrite !bytes_written_app, bytes_written_event_writes.
    cbn [trace empty_world bytes_written fold_right]. lia. }
  split; [ reflexivity | ]. split; [ exact Hsize | ]. split; [ exact Hbytes | ].
  rewrite Hbytes, Hsize. unfold threshold, MAX_FILE_SIZE_MB. lia.
Qed.

Lemma collect_logs_without_uris_witness :
  let server := constant_server (ok_response (JArr barren_listing)) in
  let w1 :=
    log_event
      (EvAttempt (listing_request (lit "token") (lit "tenant") (lit "start") (lit "end"))
         (ok_response (JArr barren_listing))) empty_world in
  collect_logs sample_float_repr server get_session_with_retries (lit "token")
    (lit "tenant") (lit "start") (lit "end") (lit "out") (lit ".json") empty_world
    = (Ok 0, w1)
  /\ opened (trace w1) = opened (trace empty_world)
  /\ fs w1 = fs empty_world.
Proof.
  intros server w1.
  apply (collect_logs_without_uris sample_float_repr server get_session_with_retries
           (lit "token") (lit "tenant") (lit "start") (lit "end") (lit "out") (lit ".json")
           barren_listing (ok_response (JArr barren_listing)) empty_world w1).
  - reflexivity.
  - reflexivity.
  - reflexivity.
  - unfold barren_listing.
    constructor; [ eexists; split; [ reflexivity | reflexivity ] | ].
    constructor; [ eexists; split; [ reflexivity | reflexivity ] | ].
    constructor; [ eexists; split; [ reflexivity | reflexivity ] | ].
    constructor.
Defined.


(** ** The rotation counter *)

Section CounterFacts.

Variable float_repr : float -> pystr.
Variables base_file_name extension : pystr.

Local Abbreviation account' := (account float_repr base_file_name extension).
Local Abbreviation account_all' := (account_all float_repr base_file_name extension).
Local Abbreviation write_events' := (write_events float_repr base_file_name extension).

Lemma account_counter event ls :
  (threshold < current_file_size ls + line_size float_repr event ->
     current_file_size (account' event ls) = 0
     /\ file_index (account' event ls) = file_index ls + 1
     /\ current_file_name (account' event ls)
        = get_new_file_name base_file_name extension (file_index ls + 1))
  /\ (current_file_size ls + line_size float_repr event <= threshold ->
        current_file_size (account' event ls)
        = current_file_size ls + line_size float_repr event
        /\ file_index (account' event ls) = file_index ls
        /\ current_file_name (account' event ls) = current_file_name ls).
Proof.
  unfold account, line_size, threshold. cbn zeta.
  destruct (_ >? _) eqn:Hgt; cbn [current_file_size file_index current_file_name].
  - apply Z.gtb_lt in Hgt. split; [ auto | ]. intros Hle. lia.
  - assert (Hle : ~ MAX_FILE_SIZE_MB * 1024 * 1024
                    < current_file_size ls + (len (dumps float_repr event) + 1)).
    { intros Hlt. apply Z.gtb_lt in Hlt. congruence. }
    split; [ intros Hlt; contradiction | auto ].
Qed.

Lemma sum_line_sizes_snoc events e :
  sum_line_sizes float_repr (events ++ [e]) =
    sum_line_sizes float_repr events + line_size float_repr e.
Proof.
  unfold sum_line_sizes. induction events as [ | x events IH ]; cbn [app fold_right]; lia.
Qed.

(** The counter after any sequence of events: split the sequence at the
    last event that made the counter exceed the threshold (or at its start
    when there is none); the counter is what it was at that point, zero
    after a reset, plus the line sizes of the events written since, and
    the file index has not moved since. *)
Lemma counter_since_reset events ls :
  exists before since,
    events = before ++ since
    /\ (before = []
        \/ exists before0 e,
             before = before0 ++ [e]
             /\ threshold < current_file_size (account_all' before0 ls) + line_size float_repr e
             /\ current_file_size (account_all' before ls) = 0)
    /\ file_index (account_all' events ls) = file_index (account_all' before ls)
    /\ current_file_size (account_all' events ls)
       = current_file_size (account_all' before ls) + sum_line_sizes float_repr since.
Proof.
  induction events as [ | e events IH ] using rev_ind.
  - exists [], []. cbn. repeat split; auto. lia.
  - destruct IH as (before & since & Hsplit & Hreset & Hindex & Hcounter).
    rewrite account_all_snoc.
    destruct (account_counter e (account_all' events ls)) as [Hover Hunder].
    destruct (Z_lt_le_dec threshold
                (current_file_size (account_all' events ls) + line_size float_repr e))
      as [Hlt | Hle].
    + destruct (Hover Hlt) as (Hzero & _ & _).
      exists (events ++ [e]), []. rewrite app_nil_r, !account_all_snoc.
      split; [ reflexivity | ]. split; [ | split; [ reflexivity | ] ].
      * right. exists events, e. auto.
      * cbn. lia.
    + destruct (Hunder Hle) as (Hsize & Hidx & _).
      exists before, (since ++ [e]). rewrite Hsplit at 1. rewrite <- app_assoc.
      split; [ reflexivity | ]. split; [ exact Hreset | ].
      split; [ congruence | ]. rewrite Hsize, Hcounter, sum_line_sizes_snoc. lia.
Qed.

Lemma write_events_inv file events ls w ls' w' :
  write_events' file events ls w = (Ok ls', w') ->
  ls' = account_all' events ls
  /\ trace w' = trace w ++ flat_map (event_writes float_repr file) events.
Proof.
  revert ls w. induction events as [ | e events IH ]; intros ls w Hrun.
  - inversion Hrun; subst. cbn. now rewrite app_nil_r.
  - cbn [write_events] in Hrun. bind_inv Hrun as ls1 w1 Hwrite.
    destruct (utf8_encode (dumps float_repr e)) as [bytes | ] eqn:Henc.
    + rewrite (write_event_run _ _ _ file e ls w bytes Henc) in Hwrite.
      inversion Hwrite; subst. apply IH in Hrun. destruct Hrun as [-> Htr].
      split; [ reflexivity | ]. rewrite Htr. cbn [trace flat_map event_writes].
      now rewrite <- app_assoc.
    + rewrite (write_event_fails _ _ _ file e ls w Henc) in Hwrite. discriminate.
Qed.

End CounterFacts.

Lemma raise_for_status_inv resp w a w' :
  raise_for_status resp w = (Ok a, w') ->
  w' = w /\ (400 <=? status_code resp) && (status_code resp <? 600) = false.
Proof.
  unfold raise_for_status. destruct (_ && _); [ discriminate | ].
  intros H. inversion H. auto.
Qed.

Lemma response_json_inv resp w v w' :
  response_json resp w = (Ok v, w') -> w' = w /\ body resp = Some v.
Proof.
  unfold response_json. destruct (body resp); [ | discriminate ].
  intros H. inversion H. auto.
Qed.

Section LoopFacts.

Variable float_repr : float -> pystr.
Variable server : list io_event -> request -> response.
Variable session : Session.
Variables token base_file_name extension : pystr.

Local Abbreviation account_all' := (account_all float_repr base_file_name extension).
Local Abbreviation process_content' :=
  (process_content float_repr server session token base_file_name extension).
Local Abbreviation collect_loop' :=
  (collect_loop float_repr server session token base_file_name extension).

(** Whatever the server does, when the processing of a listing entry
    returns, the loop state is the accounting of the events it wrote. *)
Lemma process_content_inv content ls w ls' w' :
  process_content' content ls w = (Ok ls', w') ->
  exists written new,
    trace w' = trace w ++ new
    /\ List.map snd (writes new) = flat_map (fun e => [dumps float_repr e; [10%N]]) written
    /\ ls' = account_all' written ls.
Proof.
  unfold process_content. intros Hrun. bind_inv Hrun as content_uri w0 Hget.
  apply lift_inv_Ok in Hget. destruct Hget as [_ ->].
  destruct (negb (truthy content_uri)).
  - inversion Hrun; subst. exists [], []. now rewrite app_nil_r.
  - bind_inv Hrun as event_response w1 Hsend.
    apply session_request_only_attempts in Hsend.
    destruct Hsend as [_ (tr1 & Htr1 & _ & Hw1)].
    bind_inv Hrun as u w2 Hstatus. apply raise_for_status_inv in Hstatus.
    destruct Hstatus as [-> _].
    bind_inv Hrun as event_data w3 Hjson. apply response_json_inv in Hjson.
    destruct Hjson as [-> _].
    bind_inv Hrun as file w4 Hopen. rewrite open_append_run in Hopen.
    inversion Hopen; subst. clear Hopen.
    bind_inv Hrun as events w5 Hiter. apply lift_inv_Ok in Hiter. destruct Hiter as [_ ->].
    apply write_events_inv in Hrun. destruct Hrun as [-> Htr].
    exists events, (tr1 ++ [EvOpen (current_file_name ls)]
                    ++ flat_map (event_writes float_repr (current_file_name ls)) events).
    split; [ | split; [ | reflexivity ] ].
    + rewrite Htr. cbn [trace]. rewrite Htr1. now rewrite <- !app_assoc.
    + rewrite !writes_app, !List.map_app, Hw1. cbn [writes List.map app].
      apply writes_event_writes.
Qed.

Lemma collect_loop_inv contents ls w ls' w' :
  collect_loop' contents ls w = (Ok ls', w') ->
  exists written new,
    trace w' = trace w ++ new
    /\ List.map snd (writes new) = flat_map (fun e => [dumps float_repr e; [10%N]]) written
    /\ ls' = account_all' written ls.
Proof.
  revert ls w. induction contents as [ | content contents IH ]; intros ls w Hrun.
  - inversion Hrun; subst. exists [], []. now rewrite app_nil_r.
  - cbn [collect_loop] in Hrun. bind_inv Hrun as ls1 w1 Hfirst.
    apply process_content_inv in Hfirst.
    destruct Hfirst as (written1 & new1 & Htr1 & Hw1 & ->).
    apply IH in Hrun. destruct Hrun as (written2 & new2 & Htr2 & Hw2 & ->).
    exists (written1 ++ written2), (new1 ++ new2).
    split; [ | split ].
    + rewrite Htr2, Htr1. now rewrite <- app_assoc.
    + now rewrite writes_app, List.map_app, Hw1, Hw2, flat_map_app.
    + symmetry. apply account_all_app.
Qed.

End LoopFacts.

(** C10.  Along the collection loop the counter [current_file_size] is
    the sum, over the events written since it was last reset (since the
    start of the loop when it never was), of the length in characters of
    the event's JSON text plus one.  It counts characters, not bytes: for
    the event [accented_event], which holds a non-ASCII character, the
    counter stands at 11 after the write while 12 bytes were appended. *)
Theorem counter_counts_characters_since_reset (float_repr : float -> pystr) :
  (forall (server : list io_event -> request -> response) (session : Session)
          (token base_file_name extension : pystr) (contents : list json)
          (ls ls' : loop_state) (w w' : world),
     collect_loop float_repr server session token base_file_name extension contents ls w
       = (Ok ls', w') ->
     exists before since new,
       trace w' = trace w ++ new
       /\ List.map snd (writes new)
          = flat_map (fun e => [dumps float_repr e; [10%N]]) (before ++ since)
       /\ (before = []
           \/ exists before0 e,
                before = before0 ++ [e]
                /\ threshold
                   < current_file_size
                       (account_all float_repr base_file_name extension before0 ls)
                     + line_size float_repr e
                /\ current_file_size
                     (account_all float_repr base_file_name extension before ls) = 0)
       /\ file_index ls'
          = file_index (account_all float_repr base_file_name extension before ls)
       /\ current_file_size ls'
          = current_file_size (account_all float_repr base_file_name extension before ls)
            + sum_line_sizes float_repr since)
  /\ (Exists (fun c => (128 <= c)%N) (dumps float_repr accented_event)
      /\ forall base_file_name extension file : pystr,
           exists ls' w',
             write_event float_repr base_file_name extension file accented_event
               (initial_loop_state base_file_name extension) empty_world = (Ok ls', w')
             /\ current_file_size ls' = 11
             /\ len <$> (fs w' !! file) = Some 12).
Proof.
  split.
  - intros server session token base_file_name extension contents ls ls' w w' Hrun.
    apply collect_loop_inv in Hrun. destruct Hrun as (written & new & Htr & Hw & ->).
    destruct (counter_since_reset float_repr base_file_name extension written ls)
      as (before & since & Hsplit & Hreset & Hindex & Hcounter).
    exists before, since, new. rewrite <- Hsplit. auto.
  - split.
    + change (dumps float_repr accented_event)
        with [123; 34; 107; 34; 58; 32; 34; 233; 34; 125]%N.
      do 7 apply Exists_cons_tl. apply Exists_cons_hd. discriminate.
    + intros base_file_name extension file.
      assert (Henc : utf8_encode (dumps float_repr accented_event)
                     = Some [123; 34; 107; 34; 58; 32; 34; 195; 169; 34; 125]%N)
        by reflexivity.
      rewrite (write_event_run float_repr base_file_name extension file accented_event
                 (initial_loop_state base_file_name extension) empty_world _ Henc).
      eexists _, _. split; [ reflexivity | ]. split; [ reflexivity | ].
      cbn [fs]. rewrite lookup_insert_eq. reflexivity.
Qed.

Lemma counter_counts_characters_since_reset_witness :
  exists ls' w',
    collect_loop sample_float_repr mixed_server get_session_with_retries (lit "token")
      (lit "out") (lit ".json") mixed_listing
      (initial_loop_state (lit "out") (lit ".json")) empty_world = (Ok ls', w')
    /\ exists before since,
         current_file_size ls'
         = current_file_size
             (account_all sample_float_repr (lit "out") (lit ".json") before
                (initial_loop_state (lit "out") (lit ".json")))
           + sum_line_sizes sample_float_repr since.
Proof.
  destruct (collect_loop sample_float_repr mixed_server get_session_with_retries
              (lit "token") (lit "out") (lit ".json") mixed_listing
              (initial_loop_state (lit "out") (lit ".json")) empty_world)
    as [[ls' | e] w'] eqn:Hrun.
  - exists ls', w'. split; [ reflexivity | ].
    destruct (proj1 (counter_counts_characters_since_reset sample_float_repr)
                mixed_server get_session_with_retries (lit "token") (lit "out")
                (lit ".json") mixed_listing _ ls' empty_world w' Hrun)
      as (before & since & new & _ & _ & _ & _ & Hcounter).
    exists before, since. exact Hcounter.
  - vm_compute in Hrun. discriminate Hrun.
Defined.

(** ** The reach of the retry policy *)

Lemma get_adapter_retry_iff url :
  get_adapter get_session_with_retries url = Some retry_adapter
  <-> starts_with (lower url) (lit "https://") = true.
Proof.
  split.
  - intros Hget.
    destruct (starts_with (lower url) (lit "https://")) eqn:Hs; [ reflexivity | ].
    destruct (starts_with (lower url) (lit "http://")) eqn:Hp.
    + rewrite (get_adapter_http _ Hs Hp) in Hget. discriminate.
    + rewrite (get_adapter_none _ Hs Hp) in Hget. discriminate.
  - apply get_adapter_https.
Qed.

Lemma is_retry_get_listed left status has_retry_after :
  is_retry (max_retries retry_adapter) left GET status has_retry_after = false ->
  mem_Z status retried_statuses = false.
Proof.
  unfold is_retry. cbn [max_retries retry_adapter Retry_new allowed_methods status_forcelist].
  change (negb (mem_method GET DEFAULT_ALLOWED_METHODS)) with false. cbn iota.
  fold retried_statuses. destruct (mem_Z status retried_statuses); [ discriminate | reflexivity ].
Qed.

(** C4, as amended.  The retry policy (5 retries, backoff factor 1,
    statuses 429, 500, 502, 503, 504) is mounted on the [https://] prefix
    and nothing overrides it per call: it is the policy of exactly the
    requests whose URL starts with [https://], among them the token POST
    and the listing GET.  For a GET under the policy a listed status never
    comes back to the caller: the request is repeated, and the failure
    ([RetryError]) surfaces only after six attempts with transient
    responses.  A POST under the policy is sent once and its response is
    returned whatever its status. *)
Theorem retry_policy_reach :
  max_retries retry_adapter
    = {| total := 5; backoff_factor := 1; status_forcelist := retried_statuses;
         allowed_methods := DEFAULT_ALLOWED_METHODS |}
  /\ (forall url,
        get_adapter get_session_with_retries url = Some retry_adapter
        <-> starts_with (lower url) (lit "https://") = true)
  /\ (forall tenant_id,
        get_adapter get_session_with_retries (token_url tenant_id) = Some retry_adapter
        /\ get_adapter get_session_with_retries (content_base_url tenant_id)
           = Some retry_adapter)
  /\ (forall (server : list io_event -> request -> response) rq w res w',
        rq_method rq = GET ->
        adapter_send server retry_adapter rq w = (res, w') ->
        exists resps,
          trace w' = trace w ++ List.map (EvAttempt rq) resps
          /\ match res with
             | Ok resp =>
                 exists pre,
                   resps = pre ++ [resp] /\ (length pre <= 5)%nat
                   /\ Forall (fun x => transient (max_retries retry_adapter) GET x = true) pre
                   /\ mem_Z (status_code resp) retried_statuses = false
             | Raise e =>
                 e = RetryError /\ length resps = 6%nat
                 /\ Forall (fun x => transient (max_retries retry_adapter) GET x = true) resps
             end)
  /\ (forall (server : list io_event -> request -> response) rq w,
        rq_method rq = POST ->
        adapter_send server retry_adapter rq w
        = (Ok (server (trace w) rq), log_event (EvAttempt rq (server (trace w) rq)) w)).
Proof.
  split; [ reflexivity | ]. split; [ exact get_adapter_retry_iff | ].
  split; [ | split ].
  - intros tenant_id. split; apply get_adapter_https.
    + apply token_url_https.
    + apply content_base_url_https.
  - intros server rq w res w' Hget Hsend. unfold adapter_send in Hsend.
    apply urlopen_spec in Hsend. destruct Hsend as [_ (resps & Htr & Hres)].
    exists resps. split; [ exact Htr | ]. rewrite Hget in Hres.
    destruct res as [ resp | e ].
    + destruct Hres as (pre & Hsplit & Hlen & Hall & Hlast).
      exists pre. repeat split; try assumption.
      eapply is_retry_get_listed; eauto.
    + exact Hres.
  - intros server rq w Hpost. unfold adapter_send. apply urlopen_post. exact Hpost.
Qed.

Lemma retry_policy_reach_witness :
  exists resps,
    trace (snd (adapter_send (constant_server unavailable) retry_adapter
                  (listing_request (lit "token") (lit "tenant") (lit "start") (lit "end"))
                  empty_world))
    = List.map
        (EvAttempt (listing_request (lit "token") (lit "tenant") (lit "start") (lit "end")))
        resps
    /\ length resps = 6%nat
  /\ adapter_send (constant_server unavailable) retry_adapter
       (token_request (lit "tenant") (lit "id") (lit "secret")) empty_world
     = (Ok unavailable,
        log_event (EvAttempt (token_request (lit "tenant") (lit "id") (lit "secret"))
                     unavailable) empty_world).
Proof.
  destruct retry_policy_reach as (_ & _ & _ & Hget & Hpost).
  destruct (adapter_send (constant_server unavailable) retry_adapter
              (listing_request (lit "token") (lit "tenant") (lit "start") (lit "end"))
              empty_world) as [[resp | e] w'] eqn:Hrun.
  - vm_compute in Hrun. discriminate Hrun.
  - destruct (Hget (constant_server unavailable)
                (listing_request (lit "token") (lit "tenant") (lit "start") (lit "end"))
                empty_world (Raise e) w' eq_refl Hrun) as (resps & Htr & _ & Hlen & _).
    exists resps. split; [ exact Htr | ]. split; [ exact Hlen | ].
    apply (Hpost (constant_server unavailable)). reflexivity.
Defined.

(** C4 as stated fails.  Against a server that answers 503, the token
    POST fails with the 503 after a single attempt; a content blob listed
    under an [http://] URI is fetched through the default adapter, so that
    its 503 also surfaces after a single attempt; and the listing GET,
    which is under the policy, is attempted six times, not five, before
    the failure surfaces. *)
Lemma transient_status_without_retry_counterexample :
  (let run :=
     get_access_token (constant_server unavailable) get_session_with_retries
       (lit "tenant") (lit "id") (lit "secret") empty_world in
   fst run = Raise (HTTPError 503)
   /\ requests (trace (snd run)) = [token_request (lit "tenant") (lit "id") (lit "secret")])
  /\ (let run :=
        collect_logs sample_float_repr plain_http_server get_session_with_retries
          (lit "token") (lit "tenant") (lit "start") (lit "end") (lit "out") (lit ".json")
          empty_world in
      fst run = Raise (HTTPError 503)
      /\ requests (trace (snd run))
         = [ listing_request (lit "token") (lit "tenant") (lit "start") (lit "end");
             content_request (lit "token") plain_http_uri ]
      /\ get_adapter get_session_with_retries plain_http_uri = Some default_adapter)
  /\ (let run :=
        collect_logs sample_float_repr (constant_server unavailable)
          get_session_with_retries (lit "token") (lit "tenant") (lit "start") (lit "end")
          (lit "out") (lit ".json") empty_world in
      fst run = Raise RetryError
      /\ requests (trace (snd run))
         = repeat (listing_request (lit "token") (lit "tenant") (lit "start") (lit "end")) 6).
Proof.
  split; [ | split ].
  - cbn zeta. rewrite get_access_token_run. split; reflexivity.
  - cbn zeta. split; [ reflexivity | ]. split; reflexivity.
  - cbn zeta. split; reflexivity.
Qed.

(** ** Reading back what the encoder wrote *)

Lemma scanstring_control c tail :
  (c <? 32)%N = true ->
  scanstring (escape_char c ++ tail) = prepend c (scanstring tail).
Proof.
  intros Hlt. destruct c as [ | p ]; [ reflexivity | ].
  do 6 (try destruct p as [ p | p | ]); try discriminate Hlt; reflexivity.
Qed.

Lemma scanstring_escape_char c tail :
  scanstring (escape_char c ++ tail) = prepend c (scanstring tail).
Proof.
  destruct (c <? 32)%N eqn:Hlt; [ now apply scanstring_control | ].
  unfold escape_char.
  destruct (c =? 34)%N eqn:H34; [ apply N.eqb_eq in H34; subst; reflexivity | ].
  destruct (c =? 92)%N eqn:H92; [ apply N.eqb_eq in H92; subst; reflexivity | ].
  destruct (c =? 10)%N eqn:H10; [ apply N.eqb_eq in H10; subst; discriminate | ].
  destruct (c =? 13)%N eqn:H13; [ apply N.eqb_eq in H13; subst; discriminate | ].
  destruct (c =? 9)%N eqn:H9; [ apply N.eqb_eq in H9; subst; discriminate | ].
  destruct (c =? 8)%N eqn:H8; [ apply N.eqb_eq in H8; subst; discriminate | ].
  destruct (c =? 12)%N eqn:H12; [ apply N.eqb_eq in H12; subst; discriminate | ].
  rewrite Hlt. cbn [app scanstring]. now rewrite H34, H92, Hlt.
Qed.

Lemma scanstring_encoded s rest :
  scanstring (flat_map escape_char s ++ 34%N :: rest) = Some (s, rest).
Proof.
  induction s as [ | c s IH ]; cbn [flat_map app].
  - reflexivity.
  - rewrite <- app_assoc, scanstring_escape_char, IH. reflexivity.
Qed.

Lemma scan_digits_stop s :
  match s with [] => True | c :: _ => is_digit c = false end ->
  scan_digits s = ([], s).
Proof. destruct s as [ | c s ]; cbn; [ reflexivity | ]. now intros ->. Qed.

Lemma scan_digits_uint u rest :
  match rest with [] => True | c :: _ => is_digit c = false end ->
  scan_digits (uint_chars u ++ rest) = (uint_chars u, rest).
Proof.
  intros Hrest.
  induction u as [ | u IH | u IH | u IH | u IH | u IH | u IH | u IH | u IH | u IH | u IH ];
    cbn [uint_chars app];
    try (cbn [scan_digits]; change (is_digit (digit_char _)) with true; cbn iota;
         rewrite IH; reflexivity).
  now apply scan_digits_stop.
Qed.

Lemma chars_uint_uint_chars u : chars_uint (uint_chars u) = u.
Proof.
  induction u as [ | u IH | u IH | u IH | u IH | u IH | u IH | u IH | u IH | u IH | u IH ];
    cbn [uint_chars chars_uint]; [ reflexivity | .. ];
    rewrite IH; reflexivity.
Qed.

Lemma delimited_head rest :
  delimited rest = true ->
  match rest with
  | [] => True
  | c :: _ =>
      is_digit c = false /\ (c =? 46)%N = false /\ (c =? 101)%N = false
      /\ (c =? 69)%N = false /\ is_ws c = negb (negb (c =? 10)%N)
  end.
Proof.
  destruct rest as [ | c rest ]; [ trivial | ]. cbn [delimited].
  intros H. apply orb_true_iff in H. destruct H as [H | H].
  - apply orb_true_iff in H. destruct H as [H | H].
    + apply orb_true_iff in H. destruct H as [H | H];
        apply N.eqb_eq in H; subst; repeat split; reflexivity.
    + apply N.eqb_eq in H; subst; repeat split; reflexivity.
  - apply N.eqb_eq in H; subst; repeat split; reflexivity.
Qed.

Lemma scan_frac_delimited rest : delimited rest = true -> scan_frac rest = ([], rest).
Proof.
  intros H. apply delimited_head in H. destruct rest as [ | c rest ]; [ reflexivity | ].
  destruct H as (_ & H & _). cbn [scan_frac]. now rewrite H.
Qed.

Lemma scan_exp_delimited rest : delimited rest = true -> scan_exp rest = ([], rest).
Proof.
  intros H. apply delimited_head in H. destruct rest as [ | c rest ]; [ reflexivity | ].
  destruct H as (_ & _ & H1 & H2 & _). cbn [scan_exp]. now rewrite H1, H2.
Qed.

Lemma pos_to_uint_normal p : Decimal.nzhead (Pos.to_uint p) = Pos.to_uint p.
Proof.
  pose proof (DecimalPos.Unsigned.to_of (Pos.to_uint p)) as Hto.
  rewrite DecimalPos.Unsigned.of_to in Hto. cbn [N.to_uint] in Hto.
  pose proof (DecimalPos.Unsigned.to_uint_nonzero p) as Hnz.
  unfold Decimal.unorm in Hto.
  destruct (Decimal.nzhead (Pos.to_uint p)) eqn:Hhead; try congruence.
Qed.

Lemma pos_to_uint_head p :
  exists c t, uint_chars (Pos.to_uint p) = c :: t
              /\ is_digit c = true /\ (c =? 48)%N = false.
Proof.
  pose proof (pos_to_uint_normal p) as Hn.
  pose proof (DecimalPos.Unsigned.to_uint_nonnil p) as Hnil.
  destruct (Pos.to_uint p) as [ | u | u | u | u | u | u | u | u | u | u ] eqn:Hu;
    try congruence; cbn [uint_chars];
    try (eexists _, _; repeat split; reflexivity).
  exfalso. exact (DecimalFacts.nzhead_nonzero (Decimal.D0 u) u Hn).
Qed.

Section ReadBack.

Variable float_repr : float -> pystr.
Variable float_of_literal : pystr -> option float.

Lemma match_number_int z rest :
  delimited rest = true ->
  match_number float_of_literal (int_str z ++ rest) = Some (JInt z, rest).
Proof.
  intros Hd.
  assert (Hstop : match rest with [] => True | c :: _ => is_digit c = false end).
  { apply delimited_head in Hd. destruct rest; [ trivial | apply Hd ]. }
  assert (Hpos : forall p,
             scan_int_part (uint_chars (Pos.to_uint p) ++ rest)
             = Some (uint_chars (Pos.to_uint p), rest)).
  { intros p. destruct (pos_to_uint_head p) as (c & t & Hct & Hdig & Hnz).
    pose proof (scan_digits_uint (Pos.to_uint p) rest Hstop) as Hscan.
    rewrite Hct in Hscan |- *. cbn [app scan_int_part scan_digits] in Hscan |- *.
    rewrite Hnz, Hdig. rewrite Hdig in Hscan.
    destruct (scan_digits (t ++ rest)) as [ds rem]. inversion Hscan; subst. reflexivity. }
  destruct z as [ | p | p ].
  - change (int_str 0) with [48%N]. unfold match_number. cbn [app].
    change (48 =? 45)%N with false. cbn iota. cbn [scan_int_part].
    change (48 =? 48)%N with true. cbn iota.
    rewrite (scan_frac_delimited _ Hd), (scan_exp_delimited _ Hd). reflexivity.
  - unfold match_number, int_str. cbn [Z.to_int].
    destruct (pos_to_uint_head p) as (c & t & Hct & Hdig & Hnz).
    assert (Hminus : (c =? 45)%N = false).
    { unfold is_digit in Hdig. apply andb_true_iff in Hdig. destruct Hdig as [H1 _].
      apply N.leb_le in H1. apply N.eqb_neq. lia. }
    specialize (Hpos p). rewrite Hct in Hpos |- *. cbn [app] in Hpos |- *.
    rewrite Hminus, Hpos, (scan_frac_delimited _ Hd), (scan_exp_delimited _ Hd).
    cbn [app]. unfold int_of_literal. rewrite Hminus, <- Hct, chars_uint_uint_chars.
    f_equal. f_equal. f_equal. exact (DecimalZ.of_to (Z.pos p)).
  - unfold match_number, int_str. cbn [Z.to_int].
    cbn [app]. change (45 =? 45)%N with true. cbn iota.
    rewrite Hpos, (scan_frac_delimited _ Hd), (scan_exp_delimited _ Hd).
    cbn [app]. unfold int_of_literal. change (45 =? 45)%N with true. cbn iota.
    rewrite chars_uint_uint_chars.
    f_equal. f_equal. f_equal. exact (DecimalZ.of_to (Z.neg p)).
Qed.


Lemma scan_once_atom fuel c t :
  (c =? 34)%N = false -> (c =? 123)%N = false -> (c =? 91)%N = false ->
  scan_once float_of_literal (S fuel) (c :: t) = scan_atom float_of_literal (c :: t).
Proof. intros H1 H2 H3. cbn [scan_once]. now rewrite H1, H2, H3. Qed.

Lemma int_str_head z :
  exists c t, int_str z = c :: t /\ (c = 45%N \/ is_digit c = true).
Proof.
  unfold int_str. destruct z as [ | p | p ]; cbn [Z.to_int].
  - eexists _, _. split; [ reflexivity | ]. now right.
  - destruct (pos_to_uint_head p) as (c & t & Hct & Hdig & _).
    exists c, t. auto.
  - eexists _, _. split; [ reflexivity | ]. now left.
Qed.

Lemma sign_or_digit_cases c :
  c = 45%N \/ is_digit c = true ->
  (c =? 34)%N = false /\ (c =? 123)%N = false /\ (c =? 91)%N = false
  /\ (c =? 110)%N = false /\ (c =? 116)%N = false /\ (c =? 102)%N = false
  /\ is_ws c = false /\ (c =? 93)%N = false.
Proof.
  intros [-> | Hdig]; [ repeat split; reflexivity | ].
  unfold is_digit in Hdig. apply andb_true_iff in Hdig. destruct Hdig as [H1 H2].
  apply N.leb_le in H1. apply N.leb_le in H2. unfold is_ws.
  repeat split; try (apply N.eqb_neq; lia).
  repeat (apply orb_false_iff; split); apply N.eqb_neq; lia.
Qed.

Lemma scan_once_int fuel z rest :
  delimited rest = true ->
  scan_once float_of_literal (S fuel) (int_str z ++ rest) = Some (JInt z, rest).
Proof.
  intros Hd. pose proof (match_number_int z rest Hd) as Hnum.
  destruct (int_str_head z) as (c & t & Hct & Hc).
  rewrite Hct in Hnum |- *. cbn [app] in Hnum |- *.
  destruct (sign_or_digit_cases c Hc) as (H34 & H123 & H91 & Hn & Ht & Hf & _).
  rewrite (scan_once_atom fuel c _ H34 H123 H91).
  unfold scan_atom. cbn [starts_with lit List.map list_ascii_of_string].
  change (N_of_ascii "n") with 110%N. change (N_of_ascii "t") with 116%N.
  change (N_of_ascii "f") with 102%N.
  rewrite Hn, Ht, Hf. cbn [andb]. now rewrite Hnum.
Qed.

(** The head of a readable float text. *)
Lemma readable_float_head f :
  readable_float float_repr float_of_literal f ->
  exists c t, floatstr float_repr f = c :: t /\ is_ws c = false /\ (c =? 93)%N = false.
Proof.
  intros Hread. specialize (Hread O [] eq_refl). rewrite app_nil_r in Hread.
  destruct (floatstr float_repr f) as [ | c t ]; [ discriminate | ].
  exists c, t. split; [ reflexivity | ].
  assert (Hbad : forall x, In x [32; 9; 10; 13; 93]%N -> c <> x).
  { intros x Hx ->. cbn [In] in Hx.
    destruct Hx as [<- | [<- | [<- | [<- | [<- | []]]]]]; discriminate Hread. }
  unfold is_ws. split.
  - repeat (apply orb_false_iff; split); apply N.eqb_neq; apply Hbad; cbn; auto.
  - apply N.eqb_neq; apply Hbad; cbn; auto 10.
Qed.

Lemma well_formed_arr items :
  well_formed float_repr float_of_literal (JArr items)
  <-> Forall (well_formed float_repr float_of_literal) items.
Proof.
  cbn [well_formed]. induction items as [ | x items IH ]; cbn [fold_right].
  - split; [ constructor | trivial ].
  - rewrite Forall_cons. now rewrite IH.
Qed.

Lemma well_formed_obj fields :
  well_formed float_repr float_of_literal (JObj fields)
  <-> NoDup (List.map fst fields)
      /\ Forall (fun kv => well_formed float_repr float_of_literal (snd kv)) fields.
Proof.
  cbn [well_formed].
  assert (H : fold_right (fun kv acc => well_formed float_repr float_of_literal (snd kv) /\ acc)
                True fields
              <-> Forall (fun kv => well_formed float_repr float_of_literal (snd kv)) fields).
  { induction fields as [ | kv fields IH ]; cbn [fold_right].
    - split; [ constructor | trivial ].
    - rewrite Forall_cons. now rewrite IH. }
  now rewrite H.
Qed.

Lemma dumps_arr items :
  dumps float_repr (JArr items)
  = 91%N :: join [44; 32]%N (List.map (dumps float_repr) items) ++ [93%N].
Proof. reflexivity. Qed.

Lemma dumps_obj fields :
  dumps float_repr (JObj fields)
  = 123%N
    :: join [44; 32]%N
         (List.map (fun kv => encode_basestring (fst kv)
                              ++ [58; 32]%N ++ dumps float_repr (snd kv)) fields)
       ++ [125%N].
Proof. reflexivity. Qed.

Lemma dumps_arr_rest items rest :
  dumps float_repr (JArr items) ++ rest
  = 91%N :: join [44; 32]%N (List.map (dumps float_repr) items) ++ 93%N :: rest.
Proof. rewrite dumps_arr, <- app_comm_cons, <- app_assoc. reflexivity. Qed.

Lemma dumps_obj_rest fields rest :
  dumps float_repr (JObj fields) ++ rest
  = 123%N
    :: join [44; 32]%N
         (List.map (fun kv => encode_basestring (fst kv)
                              ++ [58; 32]%N ++ dumps float_repr (snd kv)) fields)
       ++ 125%N :: rest.
Proof. rewrite dumps_obj, <- app_comm_cons, <- app_assoc. reflexivity. Qed.

(** Every value starts with a character that is neither white space nor
    a closing bracket. *)
Lemma dumps_head v :
  well_formed float_repr float_of_literal v ->
  exists c t, dumps float_repr v = c :: t /\ is_ws c = false /\ (c =? 93)%N = false.
Proof.
  destruct v as [ | [ | ] | z | f | s | items | fields ]; intros Hwf;
    try (eexists _, _; repeat split; reflexivity).
  - cbn [dumps]. destruct (int_str_head z) as (c & t & Hct & Hc).
    destruct (sign_or_digit_cases c Hc) as (_ & _ & _ & _ & _ & _ & Hws & H93).
    exists c, t. auto.
  - apply readable_float_head. exact Hwf.
Qed.


Lemma skip_ws_head c t : is_ws c = false -> skip_ws (c :: t) = c :: t.
Proof. intros H. cbn [skip_ws]. now rewrite H. Qed.

Lemma next_punct_comma close t :
  next_punct close ([44; 32]%N ++ t) = (Comma, 32%N :: t).
Proof. reflexivity. Qed.

Lemma next_punct_comma_cons close t :
  next_punct close (44%N :: 32%N :: t) = (Comma, 32%N :: t).
Proof. reflexivity. Qed.

Lemma dict_set_fresh key value d :
  ~ In key (List.map fst d) -> dict_set key value d = d ++ [(key, value)].
Proof.
  induction d as [ | [k x] d IH ]; cbn [dict_set List.map fst In app]; intros Hfresh.
  - reflexivity.
  - destruct (decide (k = key)) as [-> | Hne]; [ exfalso; auto | ].
    rewrite IH; [ reflexivity | auto ].
Qed.

Lemma dict_fold_distinct fields done :
  NoDup (List.map fst (done ++ fields)) ->
  fold_left (fun d kv => dict_set (fst kv) (snd kv) d) fields done = done ++ fields.
Proof.
  revert done. induction fields as [ | [k x] fields IH ]; intros done Hnd;
    cbn [fold_left fst snd].
  - now rewrite app_nil_r.
  - rewrite dict_set_fresh.
    + rewrite (IH (done ++ [(k, x)])); now rewrite <- app_assoc.
    + rewrite List.map_app in Hnd. cbn [List.map fst] in Hnd.
      apply NoDup_app in Hnd. destruct Hnd as (_ & Hdisjoint & _).
      intros Hin. apply list_elem_of_In in Hin.
      apply (Hdisjoint k Hin). constructor.
Qed.

Lemma dict_of_pairs_distinct fields :
  NoDup (List.map fst fields) -> dict_of_pairs fields = fields.
Proof. intros Hnodup. apply (dict_fold_distinct fields [] Hnodup). Qed.

(** The items of a non-empty array, up to the closing bracket. *)
Lemma scan_items_dumps x items :
  Forall (fun v =>
            well_formed float_repr float_of_literal v ->
            forall fuel rest,
              (need v <= fuel)%nat -> delimited rest = true ->
              scan_once float_of_literal fuel (dumps float_repr v ++ rest) = Some (v, rest))
    (x :: items) ->
  Forall (well_formed float_repr float_of_literal) (x :: items) ->
  forall fuel rest,
    (fold_right (fun y acc => S (need y + acc)) O (x :: items) <= fuel)%nat ->
    scan_items float_of_literal fuel
      (join [44; 32]%N (List.map (dumps float_repr) (x :: items)) ++ 93%N :: rest)
    = Some (x :: items, rest).
Proof.
  revert x. induction items as [ | y items IHitems ]; intros x IH Hwf fuel rest Hfuel;
    inversion IH as [ | ? ? IHx IHrest ]; subst;
    inversion Hwf as [ | ? ? Hx Hrest ]; subst;
    cbn [fold_right] in Hfuel; (destruct fuel as [ | fuel ]; [ lia | ]);
    cbn [scan_items].
  - cbn [List.map join].
    rewrite (IHx Hx fuel (93%N :: rest)); [ | lia | reflexivity ].
    reflexivity.
  - change (join [44; 32]%N (List.map (dumps float_repr) (x :: y :: items)))
      with (dumps float_repr x
            ++ [44; 32]%N ++ join [44; 32]%N (List.map (dumps float_repr) (y :: items))).
    rewrite <- !app_assoc.
    rewrite (IHx Hx fuel); [ | lia | reflexivity ].
    rewrite next_punct_comma.
    assert (Hnext : skip_ws (32%N :: join [44; 32]%N (List.map (dumps float_repr) (y :: items))
                               ++ 93%N :: rest)
                    = join [44; 32]%N (List.map (dumps float_repr) (y :: items))
                      ++ 93%N :: rest).
    { inversion Hrest as [ | ? ? Hy _ ]; subst.
      destruct (dumps_head y Hy) as (c & t & Hct & Hws & _).
      cbn [skip_ws is_ws N.eqb Pos.eqb orb].
      cbn [List.map]. destruct items; cbn [join List.map]; rewrite Hct;
        cbn [app]; now apply skip_ws_head. }
    rewrite Hnext.
    rewrite (IHitems y IHrest Hrest fuel rest); [ reflexivity | ].
    cbn [fold_right]. lia.
Qed.


Lemma field_text_flat k (text tail : pystr) :
  encode_basestring k ++ [58; 32]%N ++ text ++ tail
  = 34%N :: flat_map escape_char k ++ 34%N :: 58%N :: 32%N :: text ++ tail.
Proof. unfold encode_basestring. cbn [app]. now rewrite <- !app_assoc. Qed.

(** The fields of a non-empty object, up to the closing brace. *)
Lemma scan_fields_dumps kv fields :
  Forall (fun kv =>
            well_formed float_repr float_of_literal (snd kv) ->
            forall fuel rest,
              (need (snd kv) <= fuel)%nat -> delimited rest = true ->
              scan_once float_of_literal fuel (dumps float_repr (snd kv) ++ rest)
              = Some (snd kv, rest))
    (kv :: fields) ->
  Forall (fun kv => well_formed float_repr float_of_literal (snd kv)) (kv :: fields) ->
  forall fuel rest,
    (fold_right (fun kv acc => S (need (snd kv) + acc)) O (kv :: fields) <= fuel)%nat ->
    scan_fields float_of_literal fuel
      (join [44; 32]%N
         (List.map (fun kv => encode_basestring (fst kv)
                              ++ [58; 32]%N ++ dumps float_repr (snd kv)) (kv :: fields))
       ++ 125%N :: rest)
    = Some (kv :: fields, rest).
Proof.
  revert kv. induction fields as [ | kv' fields IHfields ];
    intros [k x] IH Hwf fuel rest Hfuel;
    inversion IH as [ | ? ? IHx IHrest ]; subst;
    inversion Hwf as [ | ? ? Hx Hrest ]; subst;
    cbn [fold_right snd] in Hfuel; cbn [snd] in IHx, Hx;
    (destruct fuel as [ | fuel ]; [ lia | ]);
    destruct (dumps_head x Hx) as (c & t & Hct & Hws & _).
  - cbn [List.map join fst snd]. rewrite <- !app_assoc, field_text_flat.
    cbn [scan_fields]. change (34 =? 34)%N with true. cbn iota.
    rewrite scanstring_encoded. cbn [skip_ws is_ws N.eqb Pos.eqb orb].
    rewrite Hct. cbn [app]. rewrite (skip_ws_head c _ Hws).
    change (c :: t ++ 125%N :: rest) with ((c :: t) ++ 125%N :: rest). rewrite <- Hct.
    rewrite (IHx Hx fuel (125%N :: rest)); [ | lia | reflexivity ].
    reflexivity.
  - change (join [44; 32]%N
              (List.map (fun kv => encode_basestring (fst kv)
                                   ++ [58; 32]%N ++ dumps float_repr (snd kv))
                 ((k, x) :: kv' :: fields)))
      with ((encode_basestring k ++ [58; 32]%N ++ dumps float_repr x)
            ++ [44; 32]%N
            ++ join [44; 32]%N
                 (List.map (fun kv => encode_basestring (fst kv)
                                      ++ [58; 32]%N ++ dumps float_repr (snd kv))
                    (kv' :: fields))).
    rewrite <- !app_assoc, field_text_flat.
    cbn [scan_fields]. change (34 =? 34)%N with true. cbn iota.
    rewrite scanstring_encoded. cbn [skip_ws is_ws N.eqb Pos.eqb orb].
    rewrite Hct. cbn [app]. rewrite (skip_ws_head c _ Hws).
    match goal with
    | |- context [ scan_once _ fuel (c :: t ++ ?tail) ] =>
        change (c :: t ++ tail) with ((c :: t) ++ tail)
    end.
    rewrite <- Hct.
    rewrite (IHx Hx fuel); [ | lia | reflexivity ].
    rewrite next_punct_comma_cons.
    assert (Hnext : forall tail,
               skip_ws (32%N :: join [44; 32]%N
                  (List.map (fun kv => encode_basestring (fst kv)
                                       ++ [58; 32]%N ++ dumps float_repr (snd kv))
                     (kv' :: fields)) ++ tail)
               = join [44; 32]%N
                   (List.map (fun kv => encode_basestring (fst kv)
                                        ++ [58; 32]%N ++ dumps float_repr (snd kv))
                      (kv' :: fields)) ++ tail).
    { intros tail. cbn [skip_ws is_ws N.eqb Pos.eqb orb].
      destruct fields; cbn [List.map join]; unfold encode_basestring; cbn [app];
        now apply skip_ws_head. }
    rewrite Hnext.
    rewrite (IHfields kv' IHrest Hrest fuel rest); [ reflexivity | ].
    cbn [fold_right]. lia.
Qed.

(** The scanner reads a value back from its text, before any delimiter. *)
Lemma scan_once_dumps v :
  well_formed float_repr float_of_literal v ->
  forall fuel rest,
    (need v <= fuel)%nat -> delimited rest = true ->
    scan_once float_of_literal fuel (dumps float_repr v ++ rest) = Some (v, rest).
Proof.
  induction v as [ | b | z | f | s | items IH | fields IH ] using json_nested_ind;
    intros Hwf fuel rest Hfuel Hd; cbn [need] in Hfuel;
    (destruct fuel as [ | fuel ]; [ lia | ]).
  - reflexivity.
  - destruct b; reflexivity.
  - cbn [dumps]. now apply scan_once_int.
  - cbn [dumps]. now apply Hwf.
  - cbn [dumps]. unfold encode_basestring. cbn [app scan_once].
    change (34 =? 34)%N with true. cbn iota.
    rewrite <- app_assoc. cbn [app]. now rewrite scanstring_encoded.
  - rewrite dumps_arr_rest. apply well_formed_arr in Hwf.
    destruct items as [ | x items ].
    + reflexivity.
    + cbn [scan_once].
      change (91 =? 34)%N with false. change (91 =? 123)%N with false.
      change (91 =? 91)%N with true. cbn iota.
      inversion Hwf as [ | ? ? Hx _ ]; subst.
      assert (Hstart : exists c t,
                 join [44; 32]%N (List.map (dumps float_repr) (x :: items)) ++ 93%N :: rest
                 = c :: t /\ is_ws c = false /\ (c =? 93)%N = false).
      { destruct (dumps_head x Hx) as (c & t & Hct & Hws & H93).
        cbn [List.map]. destruct items; cbn [join List.map]; rewrite Hct; cbn [app];
          eexists _, _; eauto. }
      destruct Hstart as (c & t & Hct & Hws & H93).
      assert (Hpunct : fst (next_punct 93 (c :: t)) <> Close).
      { unfold next_punct. rewrite (skip_ws_head c t Hws).
        destruct (c =? 44)%N; [ discriminate | ]. rewrite H93. discriminate. }
      pose proof (scan_items_dumps x items IH Hwf fuel rest) as Hitems.
      rewrite Hct in Hitems |- *. rewrite (skip_ws_head c t Hws).
      rewrite Hitems by lia.
      destruct (next_punct 93 (c :: t)) as [[ | | ] rem]; cbn [fst] in Hpunct;
        try reflexivity. contradiction.
  - rewrite dumps_obj_rest. apply well_formed_obj in Hwf. destruct Hwf as [Hnodup Hwf].
    destruct fields as [ | [k x] fields ].
    + reflexivity.
    + cbn [scan_once].
      change (123 =? 34)%N with false. change (123 =? 123)%N with true. cbn iota.
      pose proof (scan_fields_dumps (k, x) fields IH Hwf fuel rest) as Hfields.
      assert (Hstart : exists t,
                 join [44; 32]%N
                   (List.map (fun kv => encode_basestring (fst kv)
                                        ++ [58; 32]%N ++ dumps float_repr (snd kv))
                      ((k, x) :: fields)) ++ 125%N :: rest
                 = 34%N :: t).
      { cbn [List.map]. destruct fields; cbn [join List.map fst]; unfold encode_basestring;
          cbn [app]; eexists; reflexivity. }
      destruct Hstart as (t & Hct). rewrite Hct in Hfields |- *.
      change (next_punct 125 (34%N :: t)) with (Other, 34%N :: t). cbn iota.
      change (skip_ws (34%N :: t)) with (34%N :: t).
      rewrite Hfields by lia. now rewrite (dict_of_pairs_distinct _ Hnodup).
Qed.


Lemma length_join_ge (texts : list pystr) (costs : list nat) :
  Forall2 (fun text cost => (cost <= length text)%nat) texts costs ->
  (fold_right (fun cost acc => S (cost + acc)) O costs
   <= S (length (join [44; 32]%N texts)))%nat.
Proof.
  induction 1 as [ | text cost texts costs Hle Hrest IH ]; [ cbn; lia | ].
  destruct texts as [ | text' texts ].
  - inversion Hrest; subst. cbn [fold_right join]. lia.
  - change (join [44; 32]%N (text :: text' :: texts))
      with (text ++ [44; 32]%N ++ join [44; 32]%N (text' :: texts)).
    rewrite !length_app. cbn [fold_right length]. lia.
Qed.

(** The text of a value is at least as long as the fuel its scan needs. *)
Lemma need_le_length v :
  well_formed float_repr float_of_literal v ->
  (need v <= length (dumps float_repr v))%nat.
Proof.
  induction v as [ | b | z | f | s | items IH | fields IH ] using json_nested_ind;
    intros Hwf; cbn [need].
  - cbn. lia.
  - destruct b; cbn; lia.
  - cbn [dumps]. destruct (int_str_head z) as (c & t & -> & _). cbn [length]. lia.
  - destruct (readable_float_head f Hwf) as (c & t & Hct & _).
    cbn [dumps]. rewrite Hct. cbn [length]. lia.
  - cbn [dumps]. unfold encode_basestring. cbn [length]. lia.
  - rewrite dumps_arr. apply well_formed_arr in Hwf. cbn [length]. rewrite length_app.
    cbn [length].
    pose proof (length_join_ge (List.map (dumps float_repr) items) (List.map need items))
      as Hjoin.
    assert (Hcost : fold_right (fun cost acc => S (cost + acc)) O (List.map need items)
                    = fold_right (fun x acc => S (need x + acc)) O items).
    { clear. induction items; cbn [List.map fold_right]; congruence. }
    rewrite Hcost in Hjoin. enough (H2 : Forall2 (fun text cost => (cost <= length text)%nat)
                         (List.map (dumps float_repr) items) (List.map need items)).
    { specialize (Hjoin H2). lia. }
    clear Hjoin Hcost. induction items as [ | x items IHitems ]; cbn [List.map].
    + constructor.
    + inversion IH as [ | ? ? IHx IHrest ]; subst.
      inversion Hwf as [ | ? ? Hx Hrest ]; subst. constructor; auto.
  - rewrite dumps_obj. apply well_formed_obj in Hwf. destruct Hwf as [_ Hwf].
    cbn [length]. rewrite length_app. cbn [length].
    pose proof (length_join_ge
                  (List.map (fun kv => encode_basestring (fst kv)
                                       ++ [58; 32]%N ++ dumps float_repr (snd kv)) fields)
                  (List.map (fun kv => need (snd kv)) fields)) as Hjoin.
    assert (Hcost : fold_right (fun cost acc => S (cost + acc)) O
                      (List.map (fun kv => need (snd kv)) fields)
                    = fold_right (fun kv acc => S (need (snd kv) + acc)) O fields).
    { clear. induction fields; cbn [List.map fold_right]; congruence. }
    rewrite Hcost in Hjoin.
    enough (H2 : Forall2 (fun text cost => (cost <= length text)%nat)
                   (List.map (fun kv => encode_basestring (fst kv)
                                        ++ [58; 32]%N ++ dumps float_repr (snd kv)) fields)
                   (List.map (fun kv => need (snd kv)) fields)).
    { specialize (Hjoin H2). lia. }
    clear Hjoin Hcost. induction fields as [ | kv fields IHfields ]; cbn [List.map].
    + constructor.
    + inversion IH as [ | ? ? IHkv IHrest ]; subst.
      inversion Hwf as [ | ? ? Hkv Hrest ]; subst. constructor; auto.
      rewrite !length_app. specialize (IHkv Hkv). lia.
Qed.

(** [json.loads] reads a value back from the line written for it. *)
Lemma loads_line v :
  well_formed float_repr float_of_literal v ->
  loads float_of_literal (dumps float_repr v ++ [10%N]) = Some v.
Proof.
  intros Hwf. unfold loads.
  destruct (dumps_head v Hwf) as (c & t & Hct & Hws & _).
  assert (Hskip : skip_ws (dumps float_repr v ++ [10%N]) = dumps float_repr v ++ [10%N]).
  { rewrite Hct. cbn [app]. now apply skip_ws_head. }
  rewrite Hskip, (scan_once_dumps v Hwf); [ reflexivity | | reflexivity ].
  rewrite length_app. pose proof (need_le_length v Hwf). lia.
Qed.

End ReadBack.

Lemma encode_basestring_plain s :
  Forall (fun c => (128 <= c)%N) s -> encode_basestring s = 34%N :: s ++ [34%N].
Proof.
  intros Hall. unfold encode_basestring. f_equal. f_equal.
  induction Hall as [ | c s Hc _ IH ]; cbn [flat_map]; [ reflexivity | ].
  rewrite IH. unfold escape_char.
  repeat match goal with
         | |- context [ (c =? ?k)%N ] =>
             replace (c =? k)%N with false by (symmetry; apply N.eqb_neq; lia)
         end.
  replace (c <? 32)%N with false by (symmetry; apply N.ltb_ge; lia). reflexivity.
Qed.

(** ** Reading the bytes of the file back *)

Ltac bool_N :=
  repeat match goal with
         | |- context [ (?a <? ?b)%N ] =>
             first [ replace (a <? b)%N with true by (symmetry; apply N.ltb_lt; lia)
                   | replace (a <? b)%N with false by (symmetry; apply N.ltb_ge; lia) ]
         | |- context [ (?a <=? ?b)%N ] =>
             first [ replace (a <=? b)%N with true by (symmetry; apply N.leb_le; lia)
                   | replace (a <=? b)%N with false by (symmetry; apply N.leb_gt; lia) ]
         end.

Lemma utf8_decode_encode_char c bytes rest :
  utf8_encode_char c = Some bytes ->
  utf8_decode (bytes ++ rest) = push c (utf8_decode rest).
Proof.
  unfold utf8_encode_char.
  pose proof (N.div_mod c 64 ltac:(lia)) as H64.
  pose proof (N.mod_lt c 64 ltac:(lia)) as Hr0.
  pose proof (N.div_mod (c / 64) 64 ltac:(lia)) as H4096.
  pose proof (N.mod_lt (c / 64) 64 ltac:(lia)) as Hr1.
  pose proof (N.div_mod (c / 64 / 64) 64 ltac:(lia)) as H262144.
  pose proof (N.mod_lt (c / 64 / 64) 64 ltac:(lia)) as Hr2.
  replace (c / 4096)%N with (c / 64 / 64)%N by (rewrite N.Div0.div_div; reflexivity).
  replace (c / 262144)%N with (c / 64 / 64 / 64)%N
    by (rewrite !N.Div0.div_div; reflexivity).
  set (q0 := (c / 64)%N) in *. set (r0 := (c mod 64)%N) in *.
  set (q1 := (q0 / 64)%N) in *. set (r1 := (q0 mod 64)%N) in *.
  set (q2 := (q1 / 64)%N) in *. set (r2 := (q1 mod 64)%N) in *.
  destruct (c <? 128)%N eqn:H1.
  { intros [= <-]. cbn [app utf8_decode]. now rewrite H1. }
  apply N.ltb_ge in H1.
  destruct (c <? 2048)%N eqn:H2.
  { apply N.ltb_lt in H2. intros [= <-]. cbn [app utf8_decode].
    unfold is_cont. bool_N. cbn [andb].
    replace ((192 + q0 - 192) * 64 + (128 + r0 - 128))%N with c by lia. bool_N.
    reflexivity. }
  apply N.ltb_ge in H2.
  destruct (is_surrogate c) eqn:Hs; [ discriminate | ].
  destruct (c <? 65536)%N eqn:H3.
  { apply N.ltb_lt in H3. intros [= <-]. cbn [app utf8_decode].
    unfold is_cont. bool_N. cbn [andb].
    replace (((224 + q1 - 224) * 64 + (128 + r1 - 128)) * 64 + (128 + r0 - 128))%N
      with c by lia.
    rewrite Hs. bool_N. reflexivity. }
  apply N.ltb_ge in H3.
  destruct (c <=? 1114111)%N eqn:H4; [ | discriminate ].
  apply N.leb_le in H4. intros [= <-]. cbn [app utf8_decode].
  unfold is_cont. bool_N. cbn [andb].
  replace ((((240 + q2 - 240) * 64 + (128 + r2 - 128)) * 64 + (128 + r1 - 128)) * 64
           + (128 + r0 - 128))%N with c by lia.
  bool_N. reflexivity.
Qed.

Lemma utf8_decode_encode s bytes :
  utf8_encode s = Some bytes -> utf8_decode bytes = Some s.
Proof.
  revert bytes. induction s as [ | c s IH ]; intros bytes; cbn [utf8_encode].
  - intros [= <-]. reflexivity.
  - destruct (utf8_encode_char c) as [bc | ] eqn:Hc; [ | discriminate ].
    destruct (utf8_encode s) as [bs | ]; [ | discriminate ].
    intros [= <-]. rewrite (utf8_decode_encode_char c bc bs Hc), (IH bs eq_refl).
    reflexivity.
Qed.

(** C7.  For an event as [response.json()] delivers it (distinct keys,
    floats that Python reads back from their [repr]) and that the file can
    take, [write_event] appends to the file the bytes of one line, the
    event's JSON text and a newline; decoding those bytes and applying
    [json.loads] to the line returns the event itself; strings outside
    ASCII are written as they are. *)
Theorem written_line_reads_back
    (float_repr : float -> pystr) (float_of_literal : pystr -> option float)
    (base_file_name extension file : pystr) (event : json) (ls : loop_state) (w : world) :
  well_formed float_repr float_of_literal event ->
  writable float_repr event ->
  exists w' bytes,
    write_event float_repr base_file_name extension file event ls w
    = (Ok (account float_repr base_file_name extension event ls), w')
    /\ writes (trace w')
       = writes (trace w) ++ [(file, dumps float_repr event); (file, [10%N])]
    /\ fs w' !! file = Some (default [] (fs w !! file) ++ bytes)
    /\ utf8_decode bytes = Some (dumps float_repr event ++ [10%N])
    /\ loads float_of_literal (dumps float_repr event ++ [10%N]) = Some event
    /\ forall s, Forall (fun c => (128 <= c)%N) s ->
         dumps float_repr (JStr s) = 34%N :: s ++ [34%N].
Proof.
  intros Hwf [bytes Henc]. eexists _, (bytes ++ [10%N]).
  split; [ | split; [ | split; [ | split; [ | split ] ] ] ].
  - apply (write_event_run _ _ _ file event ls w bytes Henc).
  - cbn [trace]. now rewrite writes_app.
  - cbn [fs]. apply lookup_insert_eq.
  - apply utf8_decode_encode. now apply utf8_encode_app.
  - now apply loads_line.
  - intros s Hs. cbn [dumps]. now apply encode_basestring_plain.
Qed.

Lemma measured_event_well_formed :
  well_formed sample_float_repr sample_float_of_literal measured_event.
Proof.
  apply well_formed_obj. split.
  - cbn [measured_event List.map fst].
    repeat (apply NoDup_cons; split; [ | ]); try apply NoDup_nil_2;
      rewrite ?elem_of_cons, ?elem_of_nil; intros H; intuition discriminate.
  - unfold measured_event. repeat constructor; cbn [snd].
    intros fuel rest Hd.
    change (floatstr sample_float_repr 0%float) with [48; 46; 48]%N.
    cbn [app]. rewrite scan_once_atom by reflexivity.
    unfold scan_atom. cbn [starts_with lit List.map list_ascii_of_string].
    change (48 =? N_of_ascii "n")%N with false. change (48 =? N_of_ascii "t")%N with false.
    change (48 =? N_of_ascii "f")%N with false. cbn [andb].
    unfold match_number. change (48 =? 45)%N with false. cbn iota.
    cbn [scan_int_part]. change (48 =? 48)%N with true. cbn iota.
    assert (Hstop : match rest with [] => True | c :: _ => is_digit c = false end).
    { apply delimited_head in Hd. destruct rest; [ trivial | apply Hd ]. }
    cbn [scan_frac]. change (46 =? 46)%N with true. cbn iota.
    cbn [scan_digits]. change (is_digit 48) with true. cbn iota.
    rewrite (scan_digits_stop rest Hstop), (scan_exp_delimited rest Hd). reflexivity.
Qed.

Lemma written_line_reads_back_witness :
  exists w',
    write_event sample_float_repr (lit "out") (lit ".json") (lit "out_0.json")
      measured_event (initial_loop_state (lit "out") (lit ".json")) empty_world
    = (Ok (account sample_float_repr (lit "out") (lit ".json") measured_event
             (initial_loop_state (lit "out") (lit ".json"))), w')
    /\ loads sample_float_of_literal (dumps sample_float_repr measured_event ++ [10%N])
       = Some measured_event.
Proof.
  destruct (written_line_reads_back sample_float_repr sample_float_of_literal
              (lit "out") (lit ".json") (lit "out_0.json") measured_event
              (initial_loop_state (lit "out") (lit ".json")) empty_world
              measured_event_well_formed)
    as (w' & bytes & Hrun & _ & _ & _ & Hloads & _).
  - eexists. reflexivity.
  - exists w'. split; [ exact Hrun | exact Hloads ].
Defined.

(** ** The timeouts of the GET requests *)

Lemma adds_requests_refl P w : adds_requests P w w.
Proof. exists []. rewrite app_nil_r. split; [ reflexivity | constructor ]. Qed.

Lemma adds_requests_trans P w1 w2 w3 :
  adds_requests P w1 w2 -> adds_requests P w2 w3 -> adds_requests P w1 w3.
Proof.
  intros (tr1 & Ht1 & Hp1) (tr2 & Ht2 & Hp2). exists (tr1 ++ tr2).
  rewrite Ht2, Ht1, <- app_assoc, requests_app. split; [ reflexivity | ].
  apply Forall_app. auto.
Qed.

Lemma bind_adds_requests {A B} P (m : M A) (k : A -> M B) w r w' :
  (forall w0 r0 w1, m w0 = (r0, w1) -> adds_requests P w0 w1) ->
  (forall a w0 r0 w1, k a w0 = (r0, w1) -> adds_requests P w0 w1) ->
  bind m k w = (r, w') -> adds_requests P w w'.
Proof.
  intros Hm Hk. unfold bind. destruct (m w) as [[a | e] w1] eqn:Hrun; intros H.
  - eapply adds_requests_trans; [ eapply Hm | eapply Hk ]; eauto.
  - inversion H; subst. eapply Hm; eauto.
Qed.

Lemma only_attempts_of_writes P w w' tr :
  trace w' = trace w ++ tr -> requests tr = [] -> adds_requests P w w'.
Proof. intros Htr Hrq. exists tr. rewrite Hrq. split; [ exact Htr | constructor ]. Qed.

Section TimeoutFacts.

Variable float_repr : float -> pystr.
Variable server : list io_event -> request -> response.
Variable session : Session.
Variables token tenant_id start_date_time end_date_time : pystr.
Variables base_file_name extension : pystr.

Lemma session_get_adds url headers params w r w' :
  session_request server session GET url headers params [] (Some REQUEST_TIMEOUT) w
  = (r, w') ->
  adds_requests timed_get w w'.
Proof.
  unfold session_request, adapter_send, raise.
  destruct url; try (intros H; inversion H; subst; apply adds_requests_refl).
  destruct (get_adapter session s).
  - intros H. apply urlopen_spec in H. destruct H as [_ (resps & Htr & _)].
    eexists. split; [ exact Htr | ].
    clear. induction resps; cbn [List.map requests]; constructor; [ | assumption ].
    split; reflexivity.
  - intros H; inversion H; subst; apply adds_requests_refl.
Qed.

Lemma file_write_adds file text w r w' :
  file_write file text w = (r, w') -> adds_requests timed_get w w'.
Proof.
  unfold file_write. destruct (utf8_encode text); intros H; inversion H; subst.
  - eapply only_attempts_of_writes; [ reflexivity | reflexivity ].
  - apply adds_requests_refl.
Qed.

Lemma silent_adds {A} (m : M A) w r w' :
  (forall w0, snd (m w0) = w0) -> m w = (r, w') -> adds_requests timed_get w w'.
Proof.
  intros Hsilent H. specialize (Hsilent w). rewrite H in Hsilent. cbn in Hsilent. subst.
  apply adds_requests_refl.
Qed.

Lemma raise_for_status_silent resp w0 : snd (raise_for_status resp w0) = w0.
Proof. unfold raise_for_status. destruct (_ && _); reflexivity. Qed.

Lemma response_json_silent resp w0 : snd (response_json resp w0) = w0.
Proof. unfold response_json. destruct (body resp); reflexivity. Qed.

Lemma write_events_adds file events ls w r w' :
  write_events float_repr base_file_name extension file events ls w = (r, w') ->
  adds_requests timed_get w w'.
Proof.
  revert ls w r w'. induction events as [ | e events IH ]; intros ls w r w';
    cbn [write_events].
  - intros H; inversion H; subst; apply adds_requests_refl.
  - apply bind_adds_requests; [ | intros a w0 r0 w1; apply IH ].
    intros w0 r0 w1. unfold write_event.
    apply bind_adds_requests; [ intros ? ? ?; apply file_write_adds | ].
    intros _ w2 r2 w3.
    apply bind_adds_requests; [ intros ? ? ?; apply file_write_adds | ].
    intros _ w4 r4 w5 H; inversion H; subst; apply adds_requests_refl.
Qed.

Lemma process_content_adds content ls w r w' :
  process_content float_repr server session token base_file_name extension content ls w
  = (r, w') ->
  adds_requests timed_get w w'.
Proof.
  unfold process_content.
  apply bind_adds_requests; [ intros ? ? ?; apply silent_adds; reflexivity | ].
  intros content_uri w0 r0 w1. destruct (negb (truthy content_uri)).
  - intros H; inversion H; subst; apply adds_requests_refl.
  - apply bind_adds_requests; [ intros ? ? ?; apply session_get_adds | ].
    intros event_response w2 r2 w3.
    apply bind_adds_requests;
      [ intros ? ? ?; apply silent_adds; apply raise_for_status_silent | ].
    intros _ w4 r4 w5.
    apply bind_adds_requests;
      [ intros ? ? ?; apply silent_adds; apply response_json_silent | ].
    intros event_data w6 r6 w7.
    apply bind_adds_requests.
    + intros w8 r8 w9 H. rewrite open_append_run in H. inversion H; subst.
      eapply only_attempts_of_writes; reflexivity.
    + intros file w8 r8 w9.
      apply bind_adds_requests; [ intros ? ? ?; apply silent_adds; reflexivity | ].
      intros events w10 r10 w11. apply write_events_adds.
Qed.

Lemma collect_loop_adds contents ls w r w' :
  collect_loop float_repr server session token base_file_name extension contents ls w
  = (r, w') ->
  adds_requests timed_get w w'.
Proof.
  revert ls w r w'. induction contents as [ | c contents IH ]; intros ls w r w';
    cbn [collect_loop].
  - intros H; inversion H; subst; apply adds_requests_refl.
  - apply bind_adds_requests; [ intros ? ? ?; apply process_content_adds | ].
    intros a w0 r0 w1. apply IH.
Qed.

(** Whatever the outcome, every request [collect_logs] sends is a GET
    with the timeout of 120 seconds. *)
Lemma collect_logs_requests_are_timed w r w' :
  collect_logs float_repr server session token tenant_id start_date_time end_date_time
    base_file_name extension w = (r, w') ->
  adds_requests timed_get w w'.
Proof.
  unfold collect_logs.
  apply bind_adds_requests; [ intros ? ? ?; apply session_get_adds | ].
  intros response w0 r0 w1.
  apply bind_adds_requests;
    [ intros ? ? ?; apply silent_adds; apply raise_for_status_silent | ].
  intros _ w2 r2 w3.
  apply bind_adds_requests;
    [ intros ? ? ?; apply silent_adds; apply response_json_silent | ].
  intros content_list w4 r4 w5.
  apply bind_adds_requests; [ intros ? ? ?; apply silent_adds; reflexivity | ].
  intros contents w6 r6 w7.
  apply bind_adds_requests; [ intros ? ? ?; apply collect_loop_adds | ].
  intros ls w8 r8 w9 H; inversion H; subst; apply adds_requests_refl.
Qed.

End TimeoutFacts.

(** C5, the failing case.  The token-acquisition POST is sent without a
    timeout: the one request [get_access_token] issues on the shared
    session is the POST to the token endpoint, and the [timeout] it
    carries is [None], whereas every request of [collect_logs], the
    listing GET and the content GETs, carries the 120 seconds. *)
Theorem token_request_carries_no_timeout
    (float_repr : float -> pystr) (server : list io_event -> request -> response)
    (tenant_id client_id client_secret : pystr)
    (token start_date_time end_date_time base_file_name extension : pystr) (w : world) :
  let rq := token_request tenant_id client_id client_secret in
  trace (snd (get_access_token server get_session_with_retries
                tenant_id client_id client_secret w))
    = trace w ++ [EvAttempt rq (server (trace w) rq)]
  /\ rq_method rq = POST
  /\ rq_timeout rq = None
  /\ rq_timeout rq <> Some REQUEST_TIMEOUT
  /\ adds_requests timed_get w
       (snd (collect_logs float_repr server get_session_with_retries token tenant_id
               start_date_time end_date_time base_file_name extension w)).
Proof.
  cbn zeta. rewrite get_access_token_run. cbn zeta.
  split; [ | split; [ reflexivity | split; [ reflexivity | split; [ discriminate | ] ] ] ].
  - destruct ((400 <=? _) && (_ <? 600)); [ reflexivity | ].
    destruct (body _); reflexivity.
  - destruct (collect_logs float_repr server get_session_with_retries token tenant_id
                start_date_time end_date_time base_file_name extension w)
      as [r w'] eqn:Hrun.
    cbn [snd]. eapply collect_logs_requests_are_timed; eauto.
Qed.

(** ** File names *)

Lemma int_of_literal_int_str z : int_of_literal (int_str z) = z.
Proof.
  unfold int_str. destruct z as [ | p | p ]; cbn [Z.to_int].
  - reflexivity.
  - destruct (pos_to_uint_head p) as (c & t & Hct & Hdig & _).
    rewrite Hct. unfold int_of_literal.
    assert (Hminus : (c =? 45)%N = false).
    { unfold is_digit in Hdig. apply andb_true_iff in Hdig. destruct Hdig as [H1 _].
      apply N.leb_le in H1. apply N.eqb_neq. lia. }
    rewrite Hminus, <- Hct, chars_uint_uint_chars. exact (DecimalZ.of_to (Z.pos p)).
  - unfold int_of_literal. change (45 =? 45)%N with true. cbn iota.
    rewrite chars_uint_uint_chars. exact (DecimalZ.of_to (Z.neg p)).
Qed.

Lemma int_str_injective i j : int_str i = int_str j -> i = j.
Proof.
  intros H. rewrite <- (int_of_literal_int_str i), <- (int_of_literal_int_str j).
  now rewrite H.
Qed.

(** X1.  Distinct indices give distinct file names: for the same base
    name and extension, [get_new_file_name] never returns the same name
    for two different indices, so a rotation always moves to a name that
    no earlier index of the run had. *)
Theorem get_new_file_name_distinct (base_name extension : pystr) (i j : Z) :
  i <> j ->
  get_new_file_name base_name extension i <> get_new_file_name base_name extension j.
Proof.
  unfold get_new_file_name. intros Hij H. apply Hij.
  apply app_inv_head in H. apply app_inv_head in H. apply app_inv_tail in H.
  now apply int_str_injective.
Qed.

Lemma get_new_file_name_distinct_witness :
  get_new_file_name (lit "out") (lit ".json") 9
  <> get_new_file_name (lit "out") (lit ".json") 10.
Proof.
  apply (get_new_file_name_distinct (lit "out") (lit ".json") 9 10). lia.
Defined.

(** ** Invariants of the loop state *)

Section StateFacts.

Variable float_repr : float -> pystr.
Variables base_file_name extension : pystr.

Local Abbreviation account' := (account float_repr base_file_name extension).
Local Abbreviation account_all' := (account_all float_repr base_file_name extension).

Lemma line_size_positive event : 0 < line_size float_repr event.
Proof. unfold line_size, len. lia. Qed.

Lemma account_keeps_name event ls :
  name_matches_index base_file_name extension ls ->
  name_matches_index base_file_name extension (account' event ls)
  /\ file_index ls <= file_index (account' event ls) <= file_index ls + 1.
Proof.
  unfold name_matches_index. intros Hname.
  destruct (account_counter float_repr base_file_name extension event ls) as [Hover Hunder].
  destruct (Z_lt_le_dec threshold (current_file_size ls + line_size float_repr event))
    as [Hlt | Hle].
  - destruct (Hover Hlt) as (_ & Hidx & Hn). rewrite Hidx, Hn. split; [ reflexivity | lia ].
  - destruct (Hunder Hle) as (_ & Hidx & Hn). rewrite Hidx, Hn. split; [ exact Hname | lia ].
Qed.

Lemma account_keeps_range event ls :
  0 <= current_file_size ls ->
  counter_in_range (account' event ls).
Proof.
  unfold counter_in_range. intros Hsize.
  pose proof (line_size_positive event) as Hpos.
  destruct (account_counter float_repr base_file_name extension event ls) as [Hover Hunder].
  destruct (Z_lt_le_dec threshold (current_file_size ls + line_size float_repr event))
    as [Hlt | Hle].
  - destruct (Hover Hlt) as (H0 & _). rewrite H0.
    unfold threshold, MAX_FILE_SIZE_MB. lia.
  - destruct (Hunder Hle) as (Hs & _). rewrite Hs. lia.
Qed.

Lemma account_all_keeps_name events ls :
  name_matches_index base_file_name extension ls ->
  name_matches_index base_file_name extension (account_all' events ls)
  /\ file_index ls <= file_index (account_all' events ls)
     <= file_index ls + Z.of_nat (length events).
Proof.
  intros Hname. induction events as [ | e events IH ] using rev_ind.
  - cbn. split; [ exact Hname | lia ].
  - destruct IH as (Hn & Hi). rewrite account_all_snoc, length_app. cbn [length].
    destruct (account_keeps_name e (account_all' events ls) Hn) as (Hn' & Hi').
    split; [ exact Hn' | lia ].
Qed.

Lemma account_all_keeps_range events ls :
  counter_in_range ls -> counter_in_range (account_all' events ls).
Proof.
  intros Hrange. induction events as [ | e events IH ] using rev_ind.
  - exact Hrange.
  - rewrite account_all_snoc. apply account_keeps_range. apply IH.
Qed.

End StateFacts.

(** X2.  The collection loop keeps its state consistent: from a state
    whose file name is the one of its index and whose counter is within
    the threshold, every run of the loop that returns ends in such a
    state; the index never decreases, and it has risen by at most the
    number of events counted. *)
Theorem collect_loop_keeps_state
    (float_repr : float -> pystr) (server : list io_event -> request -> response)
    (session : Session) (token base_file_name extension : pystr)
    (contents : list json) (ls ls' : loop_state) (w w' : world) :
  name_matches_index base_file_name extension ls ->
  counter_in_range ls ->
  collect_loop float_repr server session token base_file_name extension contents ls w
    = (Ok ls', w') ->
  name_matches_index base_file_name extension ls'
  /\ counter_in_range ls'
  /\ total_logs ls <= total_logs ls'
  /\ file_index ls <= file_index ls' <= file_index ls + (total_logs ls' - total_logs ls).
Proof.
  intros Hname Hrange Hrun. apply collect_loop_inv in Hrun.
  destruct Hrun as (written & new & _ & _ & ->).
  destruct (account_all_keeps_name float_repr base_file_name extension written ls Hname)
    as [Hn Hi].
  pose proof (account_all_keeps_range float_repr base_file_name extension written ls Hrange).
  rewrite total_logs_account_all.
  split; [ exact Hn | ]. split; [ assumption | ]. lia.
Qed.

Lemma collect_loop_keeps_state_witness :
  exists ls' w',
    collect_loop sample_float_repr mixed_server get_session_with_retries (lit "token")
      (lit "out") (lit ".json") mixed_listing
      (initial_loop_state (lit "out") (lit ".json")) empty_world = (Ok ls', w')
    /\ current_file_name ls' = get_new_file_name (lit "out") (lit ".json") (file_index ls')
    /\ 0 <= current_file_size ls' <= threshold.
Proof.
  destruct (collect_loop sample_float_repr mixed_server get_session_with_retries
              (lit "token") (lit "out") (lit ".json") mixed_listing
              (initial_loop_state (lit "out") (lit ".json")) empty_world)
    as [[ls' | e] w'] eqn:Hrun.
  - exists ls', w'. split; [ reflexivity | ].
    destruct (collect_loop_keeps_state sample_float_repr mixed_server
                get_session_with_retries (lit "token") (lit "out") (lit ".json")
                mixed_listing (initial_loop_state (lit "out") (lit ".json")) ls'
                empty_world w') as (Hname & Hrange & _).
    + reflexivity.
    + unfold counter_in_range, threshold, MAX_FILE_SIZE_MB. cbn. lia.
    + exact Hrun.
    + split; [ exact Hname | exact Hrange ].
  - vm_compute in Hrun. discriminate Hrun.
Defined.

(** X3.  The number [collect_logs] returns counts the lines it wrote:
    whatever the server and the session, when the call returns [n], the
    texts written during the call are, in order, the JSON text of an
    event followed by a newline, for exactly [n] events. *)
Theorem collect_logs_counts_written_lines
    (float_repr : float -> pystr) (server : list io_event -> request -> response)
    (session : Session)
    (token tenant_id start_date_time end_date_time base_file_name extension : pystr)
    (w w' : world) (n : Z) :
  collect_logs float_repr server session token tenant_id start_date_time end_date_time
    base_file_name extension w = (Ok n, w') ->
  exists written new,
    trace w' = trace w ++ new
    /\ List.map snd (writes new) = flat_map (fun e => [dumps float_repr e; [10%N]]) written
    /\ n = Z.of_nat (length written).
Proof.
  unfold collect_logs. intros Hrun.
  bind_inv Hrun as response w1 Hsend.
  apply session_request_only_attempts in Hsend.
  destruct Hsend as [_ (tr1 & Htr1 & _ & Hw1)].
  bind_inv Hrun as u w2 Hstatus. apply raise_for_status_inv in Hstatus.
  destruct Hstatus as [-> _].
  bind_inv Hrun as content_list w3 Hjson. apply response_json_inv in Hjson.
  destruct Hjson as [-> _].
  bind_inv Hrun as contents w4 Hiter. apply lift_inv_Ok in Hiter. destruct Hiter as [_ ->].
  bind_inv Hrun as ls w5 Hloop. inversion Hrun; subst. clear Hrun.
  apply collect_loop_inv in Hloop. destruct Hloop as (written & new & Htr & Hw & ->).
  exists written, (tr1 ++ new). split; [ | split ].
  - rewrite Htr, Htr1. now rewrite <- app_assoc.
  - now rewrite writes_app, List.map_app, Hw1.
  - rewrite total_logs_account_all. cbn. lia.
Qed.

Lemma collect_logs_counts_written_lines_witness :
  exists n w' (written : list json),
    collect_logs sample_float_repr mixed_server get_session_with_retries (lit "token")
      (lit "tenant") (lit "start") (lit "end") (lit "out") (lit ".json") empty_world
    = (Ok n, w')
    /\ n = Z.of_nat (length written).
Proof.
  destruct (collect_logs sample_float_repr mixed_server get_session_with_retries
              (lit "token") (lit "tenant") (lit "start") (lit "end") (lit "out")
              (lit ".json") empty_world) as [[n | e] w'] eqn:Hrun.
  - destruct (collect_logs_counts_written_lines sample_float_repr mixed_server
                get_session_with_retries (lit "token") (lit "tenant") (lit "start")
                (lit "end") (lit "out") (lit ".json") empty_world w' n Hrun)
      as (written & new & _ & _ & Hn).
    exists n, w', written. split; [ reflexivity | exact Hn ].
  - vm_compute in Hrun. discriminate Hrun.
Defined.

(** ** The files a run touches *)

Lemma touched_app tr1 tr2 : touched (tr1 ++ tr2) = touched tr1 ++ touched tr2.
Proof.
  induction tr1 as [ | [ rq resp | f | f text ] tr1 IH ]; cbn; congruence.
Qed.

Lemma touched_attempts rq resps : touched (List.map (EvAttempt rq) resps) = [].
Proof. induction resps; cbn; auto. Qed.

Lemma touches_only_refl P w : touches_only P w w.
Proof.
  split; [ | reflexivity ]. exists []. rewrite app_nil_r. split; [ reflexivity | constructor ].
Qed.

Lemma touches_only_trans P w1 w2 w3 :
  touches_only P w1 w2 -> touches_only P w2 w3 -> touches_only P w1 w3.
Proof.
  intros [(tr1 & Ht1 & Hp1) Hf1] [(tr2 & Ht2 & Hp2) Hf2]. split.
  - exists (tr1 ++ tr2). rewrite Ht2, Ht1, <- app_assoc, touched_app.
    split; [ reflexivity | ]. apply Forall_app. auto.
  - intros name Hn. rewrite (Hf2 name Hn). apply Hf1, Hn.
Qed.

Lemma touches_only_mono (P Q : pystr -> Prop) w w' :
  (forall name, P name -> Q name) -> touches_only P w w' -> touches_only Q w w'.
Proof.
  intros HPQ [(tr & Ht & Hp) Hf]. split.
  - exists tr. split; [ exact Ht | ]. eapply Forall_impl; eauto.
  - intros name Hn. apply Hf. intros HP. apply Hn, HPQ, HP.
Qed.

Lemma appends_only_refl w : appends_only w w.
Proof. intros name old H. exists []. now rewrite app_nil_r. Qed.

Lemma appends_only_trans w1 w2 w3 :
  appends_only w1 w2 -> appends_only w2 w3 -> appends_only w1 w3.
Proof.
  intros H1 H2 name old Hold. destruct (H1 name old Hold) as (a1 & Ha1).
  destruct (H2 name _ Ha1) as (a2 & Ha2). exists (a1 ++ a2). now rewrite app_assoc.
Qed.

Section Steps.

Variable R : world -> world -> Prop.
Hypothesis R_refl : forall w, R w w.
Hypothesis R_trans : forall w1 w2 w3, R w1 w2 -> R w2 w3 -> R w1 w3.

Lemma preserves_bind {A B} (m : M A) (k : A -> M B) :
  preserves R m -> (forall a, preserves R (k a)) -> preserves R (bind m k).
Proof.
  intros Hm Hk w r w'. unfold bind. destruct (m w) as [[a | e] w1] eqn:Hrun; intros H.
  - eapply R_trans; [ eapply Hm | eapply Hk ]; eauto.
  - inversion H; subst. eapply Hm; eauto.
Qed.

Lemma preserves_bind_run {A B} (m : M A) (k : A -> M B) :
  preserves R m ->
  (forall a, (exists w w1, m w = (Ok a, w1)) -> preserves R (k a)) ->
  preserves R (bind m k).
Proof.
  intros Hm Hk w r w'. unfold bind. destruct (m w) as [[a | e] w1] eqn:Hrun; intros H.
  - eapply R_trans; [ eapply Hm | eapply Hk ]; eauto.
  - inversion H; subst. eapply Hm; eauto.
Qed.

Lemma preserves_ret {A} (a : A) : preserves R (ret a).
Proof. intros w r w' H. inversion H; subst. apply R_refl. Qed.

Lemma preserves_raise {A} (e : exn) : preserves R (raise (A := A) e).
Proof. intros w r w' H. inversion H; subst. apply R_refl. Qed.

Lemma preserves_lift {A} (x : result A) : preserves R (lift x).
Proof. intros w r w' H. inversion H; subst. apply R_refl. Qed.

Lemma preserves_raise_for_status resp : preserves R (raise_for_status resp).
Proof.
  unfold raise_for_status. destruct (_ && _); [ apply preserves_raise | apply preserves_ret ].
Qed.

Lemma preserves_response_json resp : preserves R (response_json resp).
Proof.
  unfold response_json. destruct (body resp); [ apply preserves_ret | apply preserves_raise ].
Qed.

End Steps.

Section FileSteps.

Variable float_repr : float -> pystr.
Variable server : list io_event -> request -> response.
Variable session : Session.
Variables token base_file_name extension : pystr.

(** A relation on worlds that HTTP attempts do not affect, and that the
    opening and the writing of the files in [allowed] respect. *)
Variable R : world -> world -> Prop.
Variable allowed : pystr -> Prop.
Hypothesis R_refl : forall w, R w w.
Hypothesis R_trans : forall w1 w2 w3, R w1 w2 -> R w2 w3 -> R w1 w3.
Hypothesis R_attempts : forall w w', only_attempts w w' -> R w w'.
Hypothesis R_open : forall f, allowed f -> preserves R (open_append f).
Hypothesis R_write : forall f text, allowed f -> preserves R (file_write f text).

Lemma preserves_session_request m url headers params data timeout :
  preserves R (session_request server session m url headers params data timeout).
Proof.
  intros w r w' H. apply R_attempts. eapply session_request_only_attempts; eauto.
Qed.

Lemma preserves_write_events file events ls :
  allowed file ->
  preserves R (write_events float_repr base_file_name extension file events ls).
Proof.
  intros Hfile. revert ls. induction events as [ | e events IH ]; intros ls;
    cbn [write_events].
  - now apply preserves_ret.
  - apply preserves_bind; auto. unfold write_event.
    apply preserves_bind; auto. intros _.
    apply preserves_bind; auto. intros _. now apply preserves_ret.
Qed.

Lemma preserves_process_content content ls :
  allowed (current_file_name ls) ->
  preserves R
    (process_content float_repr server session token base_file_name extension content ls).
Proof.
  intros Hfile. unfold process_content.
  apply preserves_bind; auto; [ now apply preserves_lift | ].
  intros content_uri. destruct (negb (truthy content_uri)); [ now apply preserves_ret | ].
  apply preserves_bind; auto; [ apply preserves_session_request | ]. intros event_response.
  apply preserves_bind; auto; [ now apply preserves_raise_for_status | ]. intros _.
  apply preserves_bind; auto; [ now apply preserves_response_json | ]. intros event_data.
  apply preserves_bind_run; auto. intros file (w0 & w1 & Hopen).
  rewrite open_append_run in Hopen. inversion Hopen; subst file.
  apply preserves_bind; auto; [ now apply preserves_lift | ]. intros events.
  now apply preserves_write_events.
Qed.

End FileSteps.

(** Opening and writing, for the two relations. *)

Lemma only_attempts_touches_only P w w' : only_attempts w w' -> touches_only P w w'.
Proof.
  intros [Hfs (tr & Htr & Hopen & Hwrites)]. split.
  - exists tr. split; [ exact Htr | ].
    assert (Hnone : touched tr = []).
    { clear Htr. induction tr as [ | [ rq resp | f | f text ] tr IH ]; cbn in *;
        try discriminate; auto. }
    rewrite Hnone. constructor.
  - intros name _. now rewrite Hfs.
Qed.

Lemma only_attempts_appends_only w w' : only_attempts w w' -> appends_only w w'.
Proof. intros [Hfs _] name old H. exists []. now rewrite Hfs, app_nil_r. Qed.

Lemma open_append_touches_only (P : pystr -> Prop) f :
  P f -> preserves (touches_only P) (open_append f).
Proof.
  intros Hf w r w' H. rewrite open_append_run in H. inversion H; subst. split.
  - exists [EvOpen f]. split; [ reflexivity | ]. cbn. constructor; [ exact Hf | constructor ].
  - intros name Hn. cbn [fs]. apply lookup_insert_ne. intros ->. contradiction.
Qed.

Lemma file_write_touches_only (P : pystr -> Prop) f text :
  P f -> preserves (touches_only P) (file_write f text).
Proof.
  intros Hf w r w'. unfold file_write. destruct (utf8_encode text); intros H;
    inversion H; subst.
  - split.
    + exists [EvWrite f text]. split; [ reflexivity | ].
      cbn. constructor; [ exact Hf | constructor ].
    + intros name Hn. cbn [fs]. apply lookup_insert_ne. intros ->. contradiction.
  - apply touches_only_refl.
Qed.

Lemma open_append_appends_only f : preserves appends_only (open_append f).
Proof.
  intros w r w' H. rewrite open_append_run in H. inversion H; subst.
  intros name old Hold. cbn [fs]. exists []. rewrite app_nil_r.
  destruct (decide (f = name)) as [-> | Hne].
  - rewrite lookup_insert_eq, Hold. reflexivity.
  - now rewrite lookup_insert_ne.
Qed.

Lemma file_write_appends_only f text : preserves appends_only (file_write f text).
Proof.
  intros w r w'. unfold file_write. destruct (utf8_encode text) as [bytes | ]; intros H;
    inversion H; subst.
  - intros name old Hold. cbn [fs].
    destruct (decide (f = name)) as [-> | Hne].
    + exists bytes. rewrite lookup_insert_eq, Hold. reflexivity.
    + exists []. rewrite app_nil_r. now rewrite lookup_insert_ne.
  - apply appends_only_refl.
Qed.

Section FileFacts.

Variable float_repr : float -> pystr.
Variable server : list io_event -> request -> response.
Variable session : Session.
Variables token tenant_id start_date_time end_date_time : pystr.
Variables base_file_name extension : pystr.

Local Abbreviation process_content' :=
  (process_content float_repr server session token base_file_name extension).
Local Abbreviation collect_loop' :=
  (collect_loop float_repr server session token base_file_name extension).
Local Abbreviation collect_logs' :=
  (collect_logs float_repr server session token tenant_id start_date_time end_date_time
     base_file_name extension).

Lemma process_content_one_file content ls :
  preserves (touches_only (fun name => name = current_file_name ls))
    (process_content' content ls).
Proof.
  apply preserves_process_content with (allowed := fun name => name = current_file_name ls).
  - apply touches_only_refl.
  - apply touches_only_trans.
  - apply only_attempts_touches_only.
  - intros f Hf. now apply open_append_touches_only.
  - intros f text Hf. now apply file_write_touches_only.
  - reflexivity.
Qed.

Lemma process_content_appends content ls :
  preserves appends_only (process_content' content ls).
Proof.
  apply preserves_process_content with (allowed := fun _ => True).
  - apply appends_only_refl.
  - apply appends_only_trans.
  - apply only_attempts_appends_only.
  - intros f _. apply open_append_appends_only.
  - intros f text _. apply file_write_appends_only.
  - exact I.
Qed.

Lemma collect_loop_appends contents ls :
  preserves appends_only (collect_loop' contents ls).
Proof.
  revert ls. induction contents as [ | c contents IH ]; intros ls; cbn [collect_loop].
  - apply preserves_ret, appends_only_refl.
  - apply preserves_bind; [ apply appends_only_trans | apply process_content_appends | ].
    intros ls'. apply IH.
Qed.

Lemma collect_loop_numbered contents ls :
  name_matches_index base_file_name extension ls ->
  0 <= file_index ls ->
  preserves (touches_only (numbered_name base_file_name extension))
    (collect_loop' contents ls).
Proof.
  revert ls. induction contents as [ | c contents IH ]; intros ls Hname Hidx;
    cbn [collect_loop].
  - apply preserves_ret, touches_only_refl.
  - apply preserves_bind_run; [ apply touches_only_trans | | ].
    + intros w r w' Hrun. apply (process_content_one_file c ls) in Hrun.
      revert Hrun. apply touches_only_mono. intros name ->.
      exists (file_index ls). split; [ exact Hidx | exact Hname ].
    + intros ls' (w0 & w1 & Hrun). apply process_content_inv in Hrun.
      destruct Hrun as (written & new & _ & _ & ->).
      destruct (account_all_keeps_name float_repr base_file_name extension written ls Hname)
        as [Hn Hi].
      apply IH; [ exact Hn | lia ].
Qed.

Lemma collect_logs_steps (R : world -> world -> Prop) :
  (forall w, R w w) ->
  (forall w1 w2 w3, R w1 w2 -> R w2 w3 -> R w1 w3) ->
  (forall w w', only_attempts w w' -> R w w') ->
  (forall contents,
     preserves R (collect_loop' contents (initial_loop_state base_file_name extension))) ->
  preserves R collect_logs'.
Proof.
  intros R_refl R_trans R_attempts R_loop. unfold collect_logs.
  apply preserves_bind; auto.
  { intros w r w' H. apply R_attempts. eapply session_request_only_attempts; eauto. }
  intros response.
  apply preserves_bind; auto; [ now apply preserves_raise_for_status | ]. intros _.
  apply preserves_bind; auto; [ now apply preserves_response_json | ]. intros content_list.
  apply preserves_bind; auto; [ now apply preserves_lift | ]. intros contents.
  apply preserves_bind; auto. intros ls. now apply preserves_ret.
Qed.

End FileFacts.

(** X4.  One blob, one file: whatever the outcome of the processing of
    a listing entry, the only file it opens or writes to is the one named
    by [current_file_name] when the processing starts, also when the
    counter passes the threshold on the way; every other file is left as
    it was. *)
Theorem process_content_touches_one_file
    (float_repr : float -> pystr) (server : list io_event -> request -> response)
    (session : Session) (token base_file_name extension : pystr)
    (content : json) (ls : loop_state) (w : world) :
  touches_only (fun name => name = current_file_name ls) w
    (snd (process_content float_repr server session token base_file_name extension
            content ls w)).
Proof.
  destruct (process_content float_repr server session token base_file_name extension
              content ls w) as [r w'] eqn:Hrun.
  cbn [snd]. eapply process_content_one_file; eauto.
Qed.

(** X5.  [collect_logs] only appends: whatever its outcome, every file
    that existed before the call exists after it, and its content starts
    with the content it had. *)
Theorem collect_logs_appends_only
    (float_repr : float -> pystr) (server : list io_event -> request -> response)
    (session : Session)
    (token tenant_id start_date_time end_date_time base_file_name extension : pystr)
    (w : world) :
  appends_only w
    (snd (collect_logs float_repr server session token tenant_id start_date_time
            end_date_time base_file_name extension w)).
Proof.
  destruct (collect_logs float_repr server session token tenant_id start_date_time
              end_date_time base_file_name extension w) as [r w'] eqn:Hrun.
  cbn [snd]. revert Hrun. apply collect_logs_steps.
  - apply appends_only_refl.
  - apply appends_only_trans.
  - apply only_attempts_appends_only.
  - intros contents. apply collect_loop_appends.
Qed.


(** ** Failures of the listing and of the content requests *)

Lemma status_error_true resp :
  400 <= status_code resp < 600 ->
  (400 <=? status_code resp) && (status_code resp <? 600) = true.
Proof. intros [H1 H2]. apply andb_true_iff. split; [ apply Z.leb_le | apply Z.ltb_lt ]; lia. Qed.

Lemma status_error_false resp :
  ~ 400 <= status_code resp < 600 ->
  (400 <=? status_code resp) && (status_code resp <? 600) = false.
Proof.
  intros H. apply andb_false_iff.
  destruct (Z_le_gt_dec 400 (status_code resp)) as [Hle | Hgt].
  - right. apply Z.ltb_ge. lia.
  - left. apply Z.leb_gt. lia.
Qed.

Lemma raise_for_status_error resp w :
  400 <= status_code resp < 600 ->
  raise_for_status resp w = (Raise (HTTPError (status_code resp)), w).
Proof. intros H. unfold raise_for_status. now rewrite (status_error_true resp H). Qed.

Lemma raise_for_status_pass resp w :
  ~ 400 <= status_code resp < 600 -> raise_for_status resp w = (Ok tt, w).
Proof. intros H. unfold raise_for_status. now rewrite (status_error_false resp H). Qed.

Lemma bind_Raise {A B} (m : M A) (k : A -> M B) w e w' :
  m w = (Raise e, w') -> bind m k w = (Raise e, w').
Proof. intros H. unfold bind. now rewrite H. Qed.

(** X7.  What [collect_logs] makes of the listing response once the
    request has delivered one: a 4xx or 5xx status is raised as an
    [HTTPError] with that status; otherwise a body that is not JSON raises
    [JSONDecodeError], a body that is null, a boolean or a number raises
    [TypeError], and a body that is a non-empty JSON object raises
    [AttributeError] (its keys are strings, which have no [get]).  In
    each case the run ends in the world the request left: no file has been
    opened and the file system is unchanged. *)
Theorem collect_logs_rejects_listing
    (float_repr : float -> pystr) (server : list io_event -> request -> response)
    (session : Session)
    (token tenant_id start_date_time end_date_time base_file_name extension : pystr)
    (resp : response) (w w1 : world) :
  session_request server session GET (JStr (content_base_url tenant_id))
    (auth_headers token) (listing_params start_date_time end_date_time) []
    (Some REQUEST_TIMEOUT) w = (Ok resp, w1) ->
  let outcome :=
    collect_logs float_repr server session token tenant_id start_date_time
      end_date_time base_file_name extension w in
  only_attempts w w1
  /\ (400 <= status_code resp < 600 ->
        outcome = (Raise (HTTPError (status_code resp)), w1))
  /\ (~ 400 <= status_code resp < 600 -> body resp = None ->
        outcome = (Raise JSONDecodeError, w1))
  /\ (forall v, ~ 400 <= status_code resp < 600 -> body resp = Some v ->
        iterable v = false -> outcome = (Raise TypeError, w1))
  /\ (forall key value fields, ~ 400 <= status_code resp < 600 ->
        body resp = Some (JObj ((key, value) :: fields)) ->
        outcome = (Raise AttributeError, w1)).
Proof.
  intros Hlist outcome. subst outcome. unfold collect_logs.
  rewrite (bind_Ok _ _ _ _ _ Hlist).
  split; [ eapply session_request_only_attempts; eauto | ].
  split; [ | split; [ | split ] ].
  - intros Hst. now rewrite (bind_Raise _ _ _ _ _ (raise_for_status_error resp w1 Hst)).
  - intros Hst Hbody. rewrite (bind_Ok _ _ _ _ _ (raise_for_status_pass resp w1 Hst)).
    unfold response_json. rewrite Hbody. reflexivity.
  - intros v Hst Hbody Hiter. rewrite (bind_Ok _ _ _ _ _ (raise_for_status_pass resp w1 Hst)).
    unfold response_json. rewrite Hbody.
    destruct v; try discriminate; reflexivity.
  - intros key value fields Hst Hbody.
    rewrite (bind_Ok _ _ _ _ _ (raise_for_status_pass resp w1 Hst)).
    unfold response_json. rewrite Hbody. reflexivity.
Qed.

Lemma collect_logs_rejects_listing_witness :
  let rq := listing_request (lit "token") (lit "tenant") (lit "start") (lit "end") in
  collect_logs sample_float_repr (constant_server (refusal 401)) get_session_with_retries
    (lit "token") (lit "tenant") (lit "start") (lit "end") (lit "out") (lit ".json")
    empty_world
  = (Raise (HTTPError 401), log_event (EvAttempt rq (refusal 401)) empty_world).
Proof.
  intros rq.
  apply (proj1 (proj2 (collect_logs_rejects_listing sample_float_repr
                         (constant_server (refusal 401)) get_session_with_retries
                         (lit "token") (lit "tenant") (lit "start") (lit "end")
                         (lit "out") (lit ".json") (refusal 401) empty_world
                         (log_event (EvAttempt rq (refusal 401)) empty_world) eq_refl))).
  cbn. lia.
Defined.

Section FetchFacts.

Variable float_repr : float -> pystr.
Variable server : list io_event -> request -> response.
Variable session : Session.
Variables token base_file_name extension : pystr.

Local Abbreviation process_content' :=
  (process_content float_repr server session token base_file_name extension).
Local Abbreviation collect_loop' :=
  (collect_loop float_repr server session token base_file_name extension).

(** The processing of an entry with a truthy [contentUri], up to the
    response of the fetch. *)
Lemma process_content_fetch fields uri ls w :
  assoc_get (lit "contentUri") fields = Some uri ->
  truthy uri = true ->
  process_content' (JObj fields) ls w =
    bind (session_request server session GET uri (auth_headers token) [] []
            (Some REQUEST_TIMEOUT))
      (fun event_response =>
         do _ <- raise_for_status event_response;
         do event_data <- response_json event_response;
         do file <- open_append (current_file_name ls);
         do events <- lift (py_iter event_data);
         write_events float_repr base_file_name extension file events ls) w.
Proof.
  intros Hget Htruthy. unfold process_content.
  unfold lift at 1. unfold bind at 1. cbn [py_get]. rewrite Hget.
  cbn [default from_option]. unfold id. now rewrite Htruthy.
Qed.

(** Once the fetch has delivered a JSON body, the file is opened. *)
Lemma process_content_fetched fields uri resp v ls w w1 :
  assoc_get (lit "contentUri") fields = Some uri ->
  truthy uri = true ->
  session_request server session GET uri (auth_headers token) [] []
    (Some REQUEST_TIMEOUT) w = (Ok resp, w1) ->
  ~ 400 <= status_code resp < 600 ->
  body resp = Some v ->
  process_content' (JObj fields) ls w =
    bind (lift (py_iter v))
      (fun events =>
         write_events float_repr base_file_name extension (current_file_name ls) events ls)
      (after_open (current_file_name ls) w1).
Proof.
  intros Hget Htruthy Hsend Hst Hbody.
  rewrite (process_content_fetch fields uri ls w Hget Htruthy).
  rewrite (bind_Ok _ _ _ _ _ Hsend).
  rewrite (bind_Ok _ _ _ _ _ (raise_for_status_pass resp w1 Hst)).
  unfold response_json. rewrite Hbody.
  unfold bind at 1. unfold ret at 1.
  rewrite (bind_Ok _ _ _ _ _ (open_append_run _ _)). reflexivity.
Qed.

End FetchFacts.

(** X8.  A content fetch that ends in a 4xx or 5xx status aborts the
    collection: when the entries before it have been processed and the
    fetch of an entry delivers such a response, the loop raises an
    [HTTPError] with that status in the world the fetch left.  No file is
    opened for the entry, and the entries after it are never requested. *)
Theorem failed_fetch_aborts_collection
    (float_repr : float -> pystr) (server : list io_event -> request -> response)
    (session : Session) (token base_file_name extension : pystr)
    (pre post : list json) (fields : list (pystr * json)) (uri : json)
    (resp : response) (ls ls1 : loop_state) (w w1 w2 : world) :
  collect_loop float_repr server session token base_file_name extension pre ls w
    = (Ok ls1, w1) ->
  assoc_get (lit "contentUri") fields = Some uri ->
  truthy uri = true ->
  session_request server session GET uri (auth_headers token) [] []
    (Some REQUEST_TIMEOUT) w1 = (Ok resp, w2) ->
  400 <= status_code resp < 600 ->
  collect_loop float_repr server session token base_file_name extension
    (pre ++ JObj fields :: post) ls w
  = (Raise (HTTPError (status_code resp)), w2)
  /\ only_attempts w1 w2.
Proof.
  intros Hpre Hget Htruthy Hsend Hst. split.
  - rewrite collect_loop_app, (bind_Ok _ _ _ _ _ Hpre). cbn [collect_loop].
    apply bind_Raise.
    rewrite (process_content_fetch _ _ _ _ _ _ fields uri ls1 w1 Hget Htruthy).
    rewrite (bind_Ok _ _ _ _ _ Hsend).
    apply bind_Raise, raise_for_status_error, Hst.
  - eapply session_request_only_attempts; eauto.
Qed.

Lemma failed_fetch_aborts_collection_witness :
  let ls := initial_loop_state (lit "out") (lit ".json") in
  let entry := JObj [(lit "contentUri", JStr plain_http_uri)] in
  let w2 :=
    log_event (EvAttempt (content_request (lit "token") plain_http_uri) unavailable)
      empty_world in
  collect_loop sample_float_repr plain_http_server get_session_with_retries (lit "token")
    (lit "out") (lit ".json") ([] ++ entry :: [JObj [(lit "contentUri", JStr blob_uri)]])
    ls empty_world
  = (Raise (HTTPError 503), w2)
  /\ only_attempts empty_world w2.
Proof.
  intros ls entry w2.
  apply (failed_fetch_aborts_collection sample_float_repr plain_http_server
           get_session_with_retries (lit "token") (lit "out") (lit ".json")
           [] [JObj [(lit "contentUri", JStr blob_uri)]]
           [(lit "contentUri", JStr plain_http_uri)] (JStr plain_http_uri)
           unavailable ls ls empty_world empty_world w2).
  - reflexivity.
  - reflexivity.
  - reflexivity.
  - reflexivity.
  - cbn. lia.
Defined.

(** X9.  A truthy [contentUri] that cannot be requested fails before
    anything is sent: when it is not a string, or is a string that starts
    with a printable character and with neither [http://] nor [https://]
    (in any case), the processing of the entry on the shared session
    raises the error of [requests] for such a URL and leaves the world as
    it was: no request is sent and no file is opened.  ([requests] strips
    leading white space from a URL, hence the condition on the first
    character.) *)
Theorem unusable_content_uri_sends_nothing
    (float_repr : float -> pystr) (server : list io_event -> request -> response)
    (token base_file_name extension : pystr)
    (fields : list (pystr * json)) (uri : json) (ls : loop_state) (w : world) :
  assoc_get (lit "contentUri") fields = Some uri ->
  truthy uri = true ->
  (forall s, uri = JStr s ->
     (exists c rest, s = c :: rest /\ (33 <= c <= 126)%N)
     /\ starts_with (lower s) (lit "https://") = false
     /\ starts_with (lower s) (lit "http://") = false) ->
  process_content float_repr server get_session_with_retries token base_file_name
    extension (JObj fields) ls w
  = (Raise InvalidSchema, w).
Proof.
  intros Hget Htruthy Huri.
  rewrite (process_content_fetch _ _ _ _ _ _ fields uri ls w Hget Htruthy).
  apply bind_Raise. unfold session_request.
  destruct uri as [ | b | z | f | s | items | kvs ]; try reflexivity.
  destruct (Huri s eq_refl) as (_ & H1 & H2).
  now rewrite (get_adapter_none s H1 H2).
Qed.

Lemma unusable_content_uri_sends_nothing_witness :
  let ls := initial_loop_state (lit "out") (lit ".json") in
  process_content sample_float_repr mixed_server get_session_with_retries (lit "token")
    (lit "out") (lit ".json") (JObj [(lit "contentUri", JStr ftp_uri)]) ls empty_world
  = (Raise InvalidSchema, empty_world)
  /\ process_content sample_float_repr mixed_server get_session_with_retries (lit "token")
       (lit "out") (lit ".json") (JObj [(lit "contentUri", JInt 7)]) ls empty_world
     = (Raise InvalidSchema, empty_world).
Proof.
  intros ls. split.
  - apply (unusable_content_uri_sends_nothing sample_float_repr mixed_server (lit "token")
             (lit "out") (lit ".json") [(lit "contentUri", JStr ftp_uri)] (JStr ftp_uri)
             ls empty_world).
    + reflexivity.
    + reflexivity.
    + intros s [= <-]. split; [ | split; reflexivity ].
      exists 102%N, (lit "tp://blob/1"). split; [ reflexivity | lia ].
  - apply (unusable_content_uri_sends_nothing sample_float_repr mixed_server (lit "token")
             (lit "out") (lit ".json") [(lit "contentUri", JInt 7)] (JInt 7)
             ls empty_world).
    + reflexivity.
    + reflexivity.
    + intros s Hs. discriminate Hs.
Defined.

(** ** The shape of a content blob *)

Lemma write_events_appends float_repr base_file_name extension file events ls :
  preserves appends_only (write_events float_repr base_file_name extension file events ls).
Proof.
  apply preserves_write_events with (allowed := fun _ => True).
  - apply appends_only_refl.
  - apply appends_only_trans.
  - intros f text _. apply file_write_appends_only.
  - exact I.
Qed.



(** ** Events the file cannot take *)

Lemma utf8_encode_char_encodable c :
  is_Some (utf8_encode_char c) <-> encodable c = true.
Proof.
  unfold utf8_encode_char, encodable, is_surrogate.
  destruct (c <? 128)%N eqn:H1; [ apply N.ltb_lt in H1 | apply N.ltb_ge in H1 ].
  { split; [ intros _ | eauto ]. apply andb_true_iff. split.
    - apply negb_true_iff, andb_false_iff. left. apply N.leb_gt. lia.
    - apply N.leb_le. lia. }
  destruct (c <? 2048)%N eqn:H2; [ apply N.ltb_lt in H2 | apply N.ltb_ge in H2 ].
  { split; [ intros _ | eauto ]. apply andb_true_iff. split.
    - apply negb_true_iff, andb_false_iff. left. apply N.leb_gt. lia.
    - apply N.leb_le. lia. }
  destruct ((55296 <=? c)%N && (c <=? 57343)%N) eqn:Hs; cbn [negb andb].
  { split; [ intros [x Hx]; discriminate | discriminate ]. }
  destruct (c <? 65536)%N eqn:H3; [ apply N.ltb_lt in H3 | apply N.ltb_ge in H3 ].
  { split; [ intros _ | eauto ]. apply N.leb_le. lia. }
  destruct (c <=? 1114111)%N; split; eauto; try discriminate; intros [x Hx]; discriminate.
Qed.

Lemma utf8_encode_encodable s :
  is_Some (utf8_encode s) <-> forallb encodable s = true.
Proof.
  induction s as [ | c s IH ]; cbn [utf8_encode forallb].
  - split; eauto.
  - rewrite andb_true_iff, <- IH, <- utf8_encode_char_encodable.
    destruct (utf8_encode_char c), (utf8_encode s); split;
      try (intros [x Hx]; discriminate); try (intros [[x Hx] [y Hy]]; discriminate); eauto.
Qed.

(** X11.  An event whose JSON text holds a code point the file encoding
    cannot take (a lone surrogate) aborts the writing of its blob with
    [UnicodeEncodeError], once the events before it, which the encoding
    can take, have been written; the events after it are not looked at. *)
Theorem unencodable_event_aborts_writing
    (float_repr : float -> pystr) (base_file_name extension file : pystr)
    (before after : list json) (event : json) (ls : loop_state) (w : world) :
  Forall (fun e => forallb encodable (dumps float_repr e) = true) before ->
  forallb encodable (dumps float_repr event) = false ->
  exists w1,
    write_events float_repr base_file_name extension file before ls w
      = (Ok (account_all float_repr base_file_name extension before ls), w1)
    /\ fst (write_events float_repr base_file_name extension file
              (before ++ event :: after) ls w)
       = Raise UnicodeEncodeError.
Proof.
  intros Hbefore Hevent.
  assert (Hwritable : Forall (writable float_repr) before).
  { eapply Forall_impl; [ exact Hbefore | ]. intros e He. now apply utf8_encode_encodable. }
  assert (Hnone : utf8_encode (dumps float_repr event) = None).
  { destruct (utf8_encode (dumps float_repr event)) as [bytes | ] eqn:Henc; [ | reflexivity ].
    assert (Hsome : is_Some (utf8_encode (dumps float_repr event))) by (rewrite Henc; eauto).
    apply utf8_encode_encodable in Hsome. congruence. }
  clear Hbefore Hevent. revert ls w.
  induction Hwritable as [ | e before [bytes He] _ IH ]; intros ls w.
  - exists w. split; [ reflexivity | ].
    cbn [app write_events].
    now rewrite (bind_Raise _ _ _ _ _
                   (write_event_fails float_repr base_file_name extension file event ls w
                      Hnone)).
  - cbn [app write_events].
    rewrite !(bind_Ok _ _ _ _ _
               (write_event_run float_repr base_file_name extension file e ls w bytes He)).
    destruct (IH (account float_repr base_file_name extension e ls)
                {| trace := trace w
                            ++ [EvWrite file (dumps float_repr e); EvWrite file [10%N]];
                   fs := <[file := default [] (fs w !! file) ++ bytes ++ [10%N]]> (fs w) |})
      as (w1 & Hrun & Hfail).
    exists w1. split; [ exact Hrun | exact Hfail ].
Qed.

Lemma unencodable_event_aborts_writing_witness :
  fst (write_events sample_float_repr (lit "out") (lit ".json") (lit "out_0.json")
         (two_events ++ surrogate_event :: [JNull])
         (initial_loop_state (lit "out") (lit ".json")) empty_world)
  = Raise UnicodeEncodeError.
Proof.
  destruct (unencodable_event_aborts_writing sample_float_repr (lit "out") (lit ".json")
              (lit "out_0.json") two_events [JNull] surrogate_event
              (initial_loop_state (lit "out") (lit ".json")) empty_world)
    as (w1 & _ & Hfail).
  - unfold two_events. constructor; [ reflexivity | ].
    constructor; [ reflexivity | constructor ].
  - reflexivity.
  - exact Hfail.
Defined.

(** ** The requests of a collection *)

Section RequestFacts.

Variable float_repr : float -> pystr.
Variable server : list io_event -> request -> response.
Variable session : Session.
Variables token tenant_id start_date_time end_date_time : pystr.
Variables base_file_name extension : pystr.

Lemma session_request_adds (P : request -> Prop) m url headers params data timeout :
  (forall u, url = JStr u ->
     P {| rq_method := m; rq_url := u; rq_headers := headers; rq_params := params;
          rq_data := data; rq_timeout := timeout |}) ->
  preserves (adds_requests P)
    (session_request server session m url headers params data timeout).
Proof.
  intros HP w r w'. unfold session_request, adapter_send, raise.
  destruct url; try (intros H; inversion H; subst; apply adds_requests_refl).
  destruct (get_adapter session s).
  - intros H. apply urlopen_spec in H. destruct H as [_ (resps & Htr & _)].
    eexists. split; [ exact Htr | ].
    specialize (HP s eq_refl).
    clear - HP. induction resps; cbn [List.map requests]; constructor; assumption.
  - intros H; inversion H; subst; apply adds_requests_refl.
Qed.

Lemma file_steps_add_no_request (P : request -> Prop) :
  (forall f, preserves (adds_requests P) (open_append f))
  /\ (forall f text, preserves (adds_requests P) (file_write f text)).
Proof.
  split.
  - intros f w r w' H. rewrite open_append_run in H. inversion H; subst.
    eapply only_attempts_of_writes; reflexivity.
  - intros f text w r w'. unfold file_write. destruct (utf8_encode text); intros H;
      inversion H; subst.
    + eapply only_attempts_of_writes; reflexivity.
    + apply adds_requests_refl.
Qed.

Local Abbreviation wanted :=
  (collection_request token tenant_id start_date_time end_date_time).

Lemma write_events_requests file events ls :
  preserves (adds_requests wanted)
    (write_events float_repr base_file_name extension file events ls).
Proof.
  destruct (file_steps_add_no_request wanted) as [_ Hwrite].
  revert ls. induction events as [ | e events IH ]; intros ls; cbn [write_events].
  - apply preserves_ret, adds_requests_refl.
  - apply preserves_bind; [ apply adds_requests_trans | | intros ls'; apply IH ].
    unfold write_event.
    apply preserves_bind; [ apply adds_requests_trans | apply Hwrite | ]. intros _.
    apply preserves_bind; [ apply adds_requests_trans | apply Hwrite | ]. intros _.
    apply preserves_ret, adds_requests_refl.
Qed.

Lemma process_content_requests content ls :
  preserves (adds_requests wanted)
    (process_content float_repr server session token base_file_name extension content ls).
Proof.
  destruct (file_steps_add_no_request wanted) as [Hopen _].
  pose proof (adds_requests_refl wanted) as Hrefl.
  pose proof (adds_requests_trans wanted) as Htrans.
  unfold process_content.
  apply preserves_bind; auto; [ now apply preserves_lift | ].
  intros content_uri. destruct (negb (truthy content_uri)); [ now apply preserves_ret | ].
  apply preserves_bind; auto.
  { apply session_request_adds. intros u _. right. exists u. reflexivity. }
  intros event_response.
  apply preserves_bind; auto; [ now apply preserves_raise_for_status | ]. intros _.
  apply preserves_bind; auto; [ now apply preserves_response_json | ]. intros event_data.
  apply preserves_bind; auto. intros file.
  apply preserves_bind; auto; [ now apply preserves_lift | ]. intros events.
  apply write_events_requests.
Qed.

Lemma collect_loop_requests contents ls :
  preserves (adds_requests wanted)
    (collect_loop float_repr server session token base_file_name extension contents ls).
Proof.
  revert ls. induction contents as [ | c contents IH ]; intros ls; cbn [collect_loop].
  - apply preserves_ret, adds_requests_refl.
  - apply preserves_bind; [ apply adds_requests_trans | apply process_content_requests | ].
    intros ls'. apply IH.
Qed.

Lemma collect_logs_requests :
  preserves (adds_requests wanted)
    (collect_logs float_repr server session token tenant_id start_date_time end_date_time
       base_file_name extension).
Proof.
  pose proof (adds_requests_refl wanted) as Hrefl.
  pose proof (adds_requests_trans wanted) as Htrans.
  unfold collect_logs.
  apply preserves_bind; auto.
  { apply session_request_adds. intros u [= <-]. left. reflexivity. }
  intros response.
  apply preserves_bind; auto; [ now apply preserves_raise_for_status | ]. intros _.
  apply preserves_bind; auto; [ now apply preserves_response_json | ]. intros content_list.
  apply preserves_bind; auto; [ now apply preserves_lift | ]. intros contents.
  apply preserves_bind; auto; [ apply collect_loop_requests | ].
  intros ls. now apply preserves_ret.
Qed.

End RequestFacts.


(** ** The text of an event *)

Lemma forallb_printable_app s t :
  forallb printable (s ++ t) = forallb printable s && forallb printable t.
Proof. apply forallb_app. Qed.

Lemma printable_join sep parts :
  forallb printable sep = true ->
  Forall (fun p => forallb printable p = true) parts ->
  forallb printable (join sep parts) = true.
Proof.
  intros Hsep. induction 1 as [ | p parts Hp Hparts IH ]; [ reflexivity | ].
  cbn [join]. destruct parts as [ | q parts ]; [ exact Hp | ].
  rewrite !forallb_printable_app, Hp, Hsep, IH. reflexivity.
Qed.

Lemma printable_hex_char d : (d < 16)%N -> printable (hex_char d) = true.
Proof.
  intros _. unfold hex_char, printable. destruct (d <? 10)%N; apply N.leb_le; lia.
Qed.

Lemma printable_escape_char c : forallb printable (escape_char c) = true.
Proof.
  unfold escape_char.
  repeat match goal with
         | |- context [ if (c =? ?n)%N then _ else _ ] =>
             destruct (c =? n)%N; [ reflexivity | ]
         end.
  destruct (c <? 32)%N eqn:Hc.
  - cbn [forallb]. rewrite !printable_hex_char; try reflexivity.
    + apply N.mod_lt. discriminate.
    + apply N.ltb_lt in Hc. apply N.Div0.div_lt_upper_bound. lia.
  - cbn [forallb]. unfold printable. apply N.ltb_ge in Hc.
    rewrite andb_true_r. apply N.leb_le. exact Hc.
Qed.

Lemma printable_encode_basestring s : forallb printable (encode_basestring s) = true.
Proof.
  unfold encode_basestring. cbn [forallb]. rewrite forallb_printable_app.
  change (printable 34) with true. cbn [forallb andb]. rewrite andb_true_r.
  induction s as [ | c s IH ]; [ reflexivity | ].
  cbn [flat_map]. now rewrite forallb_printable_app, printable_escape_char, IH.
Qed.

Lemma printable_uint_chars u : forallb printable (uint_chars u) = true.
Proof. induction u; cbn [uint_chars forallb]; try reflexivity; now rewrite IHu. Qed.

Lemma printable_int_str z : forallb printable (int_str z) = true.
Proof.
  unfold int_str. destruct (Z.to_int z); cbn [forallb]; now rewrite printable_uint_chars.
Qed.

(** X13.  An event occupies one line: provided the text Python prints
    for a finite float holds no control character, the text
    [json.dumps(event, ensure_ascii=False)] holds none, whatever the
    strings of the event; in particular it holds no newline, so that the
    only newline of a written line is the one of line 85. *)
Theorem dumps_has_no_control_character
    (float_repr : float -> pystr) (event : json) :
  (forall f, forallb printable (float_repr f) = true) ->
  forallb printable (dumps float_repr event) = true
  /\ ~ In 10%N (dumps float_repr event).
Proof.
  intros Hfloat.
  assert (Hall : forallb printable (dumps float_repr event) = true).
  { induction event as [ | b | z | f | s | items IH | fields IH ] using json_nested_ind.
    - reflexivity.
    - destruct b; reflexivity.
    - apply printable_int_str.
    - cbn [dumps]. unfold floatstr.
      destruct (PrimFloat.is_nan f); [ reflexivity | ].
      destruct (PrimFloat.eqb f infinity); [ reflexivity | ].
      destruct (PrimFloat.eqb f neg_infinity); [ reflexivity | ]. apply Hfloat.
    - apply printable_encode_basestring.
    - cbn [dumps]. rewrite !forallb_printable_app.
      rewrite printable_join; [ reflexivity | reflexivity | ].
      apply Forall_map. exact IH.
    - cbn [dumps]. rewrite !forallb_printable_app.
      rewrite printable_join; [ reflexivity | reflexivity | ].
      apply Forall_map. eapply Forall_impl; [ exact IH | ].
      intros [k x] Hx. cbn [fst snd] in *.
      rewrite !forallb_printable_app, printable_encode_basestring, Hx. reflexivity. }
  split; [ exact Hall | ].
  intros Hin. rewrite forallb_forall in Hall. specialize (Hall _ Hin). discriminate Hall.
Qed.

Lemma dumps_has_no_control_character_witness :
  ~ In 10%N (dumps sample_float_repr (JObj [(lit "k", JStr [97; 10; 98]%N)])).
Proof.
  apply (dumps_has_no_control_character sample_float_repr
           (JObj [(lit "k", JStr [97; 10; 98]%N)])).
  intros f. reflexivity.
Defined.

(** ** Characters counted, bytes written *)

Lemma utf8_encode_char_length c bytes :
  utf8_encode_char c = Some bytes -> (1 <= length bytes <= 4)%nat.
Proof.
  unfold utf8_encode_char.
  destruct (c <? 128)%N; [ intros [= <-]; cbn; lia | ].
  destruct (c <? 2048)%N; [ intros [= <-]; cbn; lia | ].
  destruct (is_surrogate c); [ discriminate | ].
  destruct (c <? 65536)%N; [ intros [= <-]; cbn; lia | ].
  destruct (c <=? 1114111)%N; [ intros [= <-]; cbn; lia | discriminate ].
Qed.

Lemma utf8_encode_length s bytes :
  utf8_encode s = Some bytes -> len s <= len bytes <= 4 * len s.
Proof.
  unfold len. revert bytes. induction s as [ | c s IH ]; intros bytes; cbn [utf8_encode].
  - intros [= <-]. cbn. lia.
  - destruct (utf8_encode_char c) as [bc | ] eqn:Hc; [ | discriminate ].
    destruct (utf8_encode s) as [bs | ]; [ | discriminate ].
    intros [= <-]. apply utf8_encode_char_length in Hc. specialize (IH bs eq_refl).
    rewrite length_app. cbn [length]. lia.
Qed.

(** X14.  Characters against bytes.  Every event that is written makes
    the file grow by at least the amount line 86 adds to the counter, and
    by at most four times that amount: the file receives the UTF-8 bytes
    of the text and of the newline, the counter their number of
    characters. *)
Theorem written_bytes_bound_by_counted_characters
    (float_repr : float -> pystr) (base_file_name extension file : pystr)
    (event : json) (ls ls' : loop_state) (w w' : world) :
  write_event float_repr base_file_name extension file event ls w = (Ok ls', w') ->
  exists added,
    fs w' !! file = Some (default [] (fs w !! file) ++ added)
    /\ line_size float_repr event <= len added <= 4 * line_size float_repr event.
Proof.
  intros Hrun.
  destruct (utf8_encode (dumps float_repr event)) as [bytes | ] eqn:Henc.
  - rewrite (write_event_run float_repr base_file_name extension file event ls w bytes Henc)
      in Hrun.
    inversion Hrun; subst. exists (bytes ++ [10%N]). split.
    + cbn [fs]. apply lookup_insert_eq.
    + apply utf8_encode_length in Henc. unfold line_size. rewrite len_app.
      change (len [10%N]) with 1. lia.
  - rewrite (write_event_fails float_repr base_file_name extension file event ls w Henc)
      in Hrun.
    discriminate Hrun.
Qed.

Lemma written_bytes_bound_by_counted_characters_witness :
  exists added,
    fs (snd (write_event sample_float_repr (lit "out") (lit ".json") (lit "out_0.json")
               accented_event (initial_loop_state (lit "out") (lit ".json")) empty_world))
      !! lit "out_0.json" = Some (default [] (fs empty_world !! lit "out_0.json") ++ added)
    /\ line_size sample_float_repr accented_event <= len added.
Proof.
  destruct (write_event sample_float_repr (lit "out") (lit ".json") (lit "out_0.json")
              accented_event (initial_loop_state (lit "out") (lit ".json")) empty_world)
    as [[ls' | e] w'] eqn:Hrun.
  - destruct (written_bytes_bound_by_counted_characters sample_float_repr (lit "out")
                (lit ".json") (lit "out_0.json") accented_event
                (initial_loop_state (lit "out") (lit ".json")) ls' empty_world w' Hrun)
      as (added & Hfs & Hlow & _).
    exists added. split; [ exact Hfs | exact Hlow ].
  - vm_compute in Hrun. discriminate Hrun.
Defined.

(** ** The token response *)

(** X15.  [get_access_token] on the shared session sends exactly one
    request, whatever the response, and changes no file.  When the status
    is not a 4xx or 5xx one, a body that is not JSON raises
    [JSONDecodeError], and a body that is JSON but not an object (an
    array, a string, a number, a boolean, null) raises [TypeError]. *)
Theorem get_access_token_unusable_body
    (server : list io_event -> request -> response)
    (tenant_id client_id client_secret : pystr) (w : world) :
  let rq := token_request tenant_id client_id client_secret in
  let resp := server (trace w) rq in
  let outcome :=
    get_access_token server get_session_with_retries tenant_id client_id client_secret w in
  snd outcome = log_event (EvAttempt rq resp) w
  /\ (~ 400 <= status_code resp < 600 -> body resp = None ->
        fst outcome = Raise JSONDecodeError)
  /\ (forall v, ~ 400 <= status_code resp < 600 -> body resp = Some v ->
        (forall fields, v <> JObj fields) -> fst outcome = Raise TypeError).
Proof.
  cbn zeta. rewrite get_access_token_run. cbn zeta.
  set (resp := server _ _).
  split; [ | split ].
  - destruct ((400 <=? _) && (_ <? 600)); [ reflexivity | ].
    destruct (body resp); reflexivity.
  - intros Hst Hbody. rewrite (status_error_false resp Hst), Hbody. reflexivity.
  - intros v Hst Hbody Hshape. rewrite (status_error_false resp Hst), Hbody.
    destruct v; try reflexivity. exfalso. eapply Hshape. reflexivity.
Qed.

Lemma get_access_token_unusable_body_witness :
  fst (get_access_token (constant_server html_response) get_session_with_retries
         (lit "tenant") (lit "id") (lit "secret") empty_world)
    = Raise JSONDecodeError
  /\ fst (get_access_token (constant_server array_response) get_session_with_retries
            (lit "tenant") (lit "id") (lit "secret") empty_world)
     = Raise TypeError.
Proof.
  split.
  - apply (proj1 (proj2 (get_access_token_unusable_body (constant_server html_response)
                           (lit "tenant") (lit "id") (lit "secret") empty_world))).
    + cbn. lia.
    + reflexivity.
  - apply (proj2 (proj2 (get_access_token_unusable_body (constant_server array_response)
                           (lit "tenant") (lit "id") (lit "secret") empty_world))
             (JArr [JStr (lit "abc")])).
    + cbn. lia.
    + reflexivity.
    + intros fields H. discriminate H.
Defined.

(** ** The content of the file after a blob *)

Lemma utf8_encode_app_inv s t bytes :
  utf8_encode (s ++ t) = Some bytes ->
  exists bs bt, utf8_encode s = Some bs /\ utf8_encode t = Some bt /\ bytes = bs ++ bt.
Proof.
  revert bytes. induction s as [ | c s IH ]; intros bytes; cbn [app utf8_encode].
  - intros H. exists [], bytes. auto.
  - destruct (utf8_encode_char c) as [bc | ]; [ | discriminate ].
    destruct (utf8_encode (s ++ t)) as [rest | ] eqn:Hrest; [ | discriminate ].
    intros [= <-]. destruct (IH rest eq_refl) as (bs & bt & Hs & Ht & ->).
    rewrite Hs. exists (bc ++ bs), bt. rewrite app_assoc. auto.
Qed.

Section BlobFacts.

Variable float_repr : float -> pystr.
Variables base_file_name extension : pystr.

Lemma write_events_content file events bytes ls w :
  utf8_encode (lines_text float_repr events) = Some bytes ->
  is_Some (fs w !! file) ->
  exists w',
    write_events float_repr base_file_name extension file events ls w
      = (Ok (account_all float_repr base_file_name extension events ls), w')
    /\ fs w' !! file = Some (default [] (fs w !! file) ++ bytes)
    /\ (forall name, name <> file -> fs w' !! name = fs w !! name)
    /\ opened (trace w') = opened (trace w).
Proof.
  revert bytes ls w. induction events as [ | e events IH ]; intros bytes ls w Henc [old Hold].
  - cbn in Henc. inversion Henc; subst. exists w. rewrite Hold, app_nil_r. cbn. auto.
  - cbn [lines_text flat_map] in Henc. fold (lines_text float_repr events) in Henc.
    rewrite <- app_assoc in Henc.
    apply utf8_encode_app_inv in Henc. destruct Henc as (be & brest & He & Hrest & ->).
    apply utf8_encode_app_inv in Hrest. destruct Hrest as (bn & bs & Hn & Hs & ->).
    cbn in Hn. inversion Hn; subst bn. clear Hn.
    cbn [write_events].
    rewrite (bind_Ok _ _ _ _ _
               (write_event_run float_repr base_file_name extension file e ls w be He)).
    match goal with
    | |- context [ write_events _ _ _ _ _ ?l ?w0 ] =>
        destruct (IH bs l w0 Hs) as (w' & Hrun & Hfile & Hframe & Hopened)
    end.
    { cbn [fs]. rewrite lookup_insert_eq. eauto. }
    exists w'. split; [ exact Hrun | ]. split; [ | split ].
    + rewrite Hfile. cbn [fs]. rewrite lookup_insert_eq. cbn [default from_option].
      unfold id. rewrite Hold. cbn [default from_option]. unfold id.
      now rewrite <- !app_assoc.
    + intros name Hname. rewrite (Hframe name Hname). cbn [fs].
      apply lookup_insert_ne. congruence.
    + rewrite Hopened. cbn [trace]. rewrite opened_app. cbn. apply app_nil_r.
Qed.

End BlobFacts.


